(** * Review analytics of the App Store scraper server (src/server.js)

    A shallow embedding of the [analyze_reviews] tool: the tokenizer, the
    lexicon sentiment classifier, the keyword extractor, and the
    aggregation of the processed reviews into the report (sentiment
    breakdown, keyword frequencies, themes, recent issues, rating
    distribution, top positive and negative keywords), the fetching of the
    reviews from the two scrapers with the page loop of the iOS branch, and
    the [analyze_top_keywords] tool from the search results on (brand
    presence, competition level, category distribution).

    JavaScript data is modelled as the program has it:
    - a string is its sequence of UTF-16 code units;
    - a plain object used as a table is the list of its own properties in
      creation order, read through the property order of [Object.entries]
      and through the two properties of [Object.prototype] whose names a
      lower-case token can spell;
    - a Number is an IEEE 754 binary64 value ([SpecFloat]). *)

From Stdlib Require Import List String Ascii Bool Arith ZArith NArith Lia.
From Stdlib Require Import Permutation Sorted.
From Stdlib Require Import Floats.SpecFloat Zpower DecimalString.
Import ListNotations.
Open Scope string_scope.
Open Scope list_scope.
Open Scope nat_scope.

(** ** Strings *)

Module JsString.

(** A JavaScript string: UTF-16 code units. *)
Definition codeunit := N.
Definition jsstring := list codeunit.

Definition ofString (s : string) : jsstring :=
  map N_of_ascii (list_ascii_of_string s).

(** [\w] of a regular expression without the [u] and [i] flags:
    [A-Za-z0-9_]. *)
Definition isWord (c : codeunit) : bool :=
  ((48 <=? c) && (c <=? 57) || (65 <=? c) && (c <=? 90)
   || (97 <=? c) && (c <=? 122) || (c =? 95))%N.

(** [String.prototype.toLowerCase], one code unit at a time.  ASCII capitals
    move to their small letters.  Two code units outside ASCII lower-case into
    ASCII: KELVIN SIGN (U+212A) to [k], and LATIN CAPITAL LETTER I WITH DOT
    ABOVE (U+0130) to [i] followed by U+0307.  Every other code unit outside
    ASCII lower-cases to code units outside ASCII, none of which is a word
    character; the only consumer of the lowered text is the [\w+] match, so
    they are left as they are. *)
Definition lowerUnit (c : codeunit) : list codeunit :=
  if ((65 <=? c) && (c <=? 90))%N then [(c + 32)%N]
  else if (c =? 8490)%N then [107%N]
  else if (c =? 304)%N then [105%N; 775%N]
  else [c].

Definition toLowerCase (s : jsstring) : jsstring := flat_map lowerUnit s.

Definition flush (run : string) (toks : list string) : list string :=
  match run with
  | EmptyString => toks
  | _ => run :: toks
  end.

(** [runs s] is the word-character run that starts [s] (empty when [s] starts
    with another character) and the matches that follow it. *)
Fixpoint runs (s : jsstring) : string * list string :=
  match s with
  | [] => (EmptyString, [])
  | c :: s' =>
      let (run, toks) := runs s' in
      if isWord c then (String (ascii_of_N c) run, toks)
      else (EmptyString, flush run toks)
  end.

(** [s.match(/\b(\w+)\b/g) || []]: the maximal runs of word characters,
    left to right. *)
Definition matchWords (s : jsstring) : list string :=
  let (run, toks) := runs s in flush run toks.

(** [text.toLowerCase().match(/\b(\w+)\b/g) || []] *)
Definition tokenize (text : jsstring) : list string :=
  matchWords (toLowerCase text).

(** [Array.prototype.includes] on an array of strings. *)
Definition includes (l : list string) (w : string) : bool :=
  existsb (String.eqb w) l.

(** [String.prototype.includes]: [w] occurs in [s] as a substring. *)
Fixpoint strIncludes (s w : string) : bool :=
  prefix w s ||
  match s with
  | EmptyString => false
  | String _ s' => strIncludes s' w
  end.

End JsString.
Import JsString.

(** ** Sentiment classification and keyword extraction *)

Inductive sentiment :=
| positive | somewhat_positive | neutral | somewhat_negative | negative.

(** The label the program uses for each sentiment. *)
Definition label (s : sentiment) : string :=
  match s with
  | positive => "positive"
  | somewhat_positive => "somewhat positive"
  | neutral => "neutral"
  | somewhat_negative => "somewhat negative"
  | negative => "negative"
  end.

Definition sentiment_eqb (a b : sentiment) : bool :=
  match a, b with
  | positive, positive | somewhat_positive, somewhat_positive
  | neutral, neutral | somewhat_negative, somewhat_negative
  | negative, negative => true
  | _, _ => false
  end.

Definition positiveWords : list string :=
  ["good"; "great"; "excellent"; "awesome"; "amazing"; "love"; "best";
   "perfect"; "fantastic"; "wonderful"; "happy"; "easy"; "helpful";
   "recommend"; "recommended"; "nice"; "beautiful"; "fun"; "enjoy";
   "worth"; "favorite"; "improvement"; "improved"; "better"; "useful"].

Definition negativeWords : list string :=
  ["bad"; "terrible"; "awful"; "horrible"; "poor"; "worst"; "waste";
   "useless"; "difficult"; "hate"; "crash"; "bug"; "problem"; "issue";
   "disappointing"; "disappointed"; "fix"; "error"; "fail"; "fails";
   "wrong"; "frustrating"; "slow"; "expensive"; "annoying"; "boring"].

Definition stopWords : list string :=
  ["i"; "me"; "my"; "myself"; "we"; "our"; "ours"; "ourselves";
   "you"; "your"; "yours"; "yourself"; "yourselves"; "he"; "him";
   "his"; "himself"; "she"; "her"; "hers"; "herself"; "it"; "its";
   "itself"; "they"; "them"; "their"; "theirs"; "themselves";
   "what"; "which"; "who"; "whom"; "this"; "that"; "these"; "those";
   "am"; "is"; "are"; "was"; "were"; "be"; "been"; "being"; "have";
   "has"; "had"; "having"; "do"; "does"; "did"; "doing"; "a"; "an";
   "the"; "and"; "but"; "if"; "or"; "because"; "as"; "until"; "while";
   "of"; "at"; "by"; "for"; "with"; "about"; "against"; "between";
   "into"; "through"; "during"; "before"; "after"; "above"; "below";
   "to"; "from"; "up"; "down"; "in"; "out"; "on"; "off"; "over";
   "under"; "again"; "further"; "then"; "once"; "here"; "there";
   "when"; "where"; "why"; "how"; "all"; "any"; "both"; "each";
   "few"; "more"; "most"; "other"; "some"; "such"; "no"; "nor";
   "not"; "only"; "own"; "same"; "so"; "than"; "too"; "very";
   "s"; "t"; "can"; "will"; "just"; "don"; "should"; "now"; "app"].

(** The body of the [forEach] over the words: both counters are tested
    independently. *)
Definition countWord (acc : nat * nat) (word : string) : nat * nat :=
  let (positiveCount, negativeCount) := acc in
  (if includes positiveWords word then S positiveCount else positiveCount,
   if includes negativeWords word then S negativeCount else negativeCount).

(** The five returns at the end of [analyzeSentiment]. *)
Definition verdict (positiveCount negativeCount : nat) : sentiment :=
  if negativeCount * 2 <? positiveCount then positive
  else if positiveCount * 2 <? negativeCount then negative
  else if negativeCount <? positiveCount then somewhat_positive
  else if positiveCount <? negativeCount then somewhat_negative
  else neutral.

(** [if (!text) return 'neutral'] takes the absent ([null], [undefined]) and
    the empty text. *)
Definition analyzeSentiment (text : option jsstring) : sentiment :=
  match text with
  | None | Some [] => neutral
  | Some t =>
      let words := tokenize t in
      let (positiveCount, negativeCount) := fold_left countWord words (0, 0) in
      verdict positiveCount negativeCount
  end.

(** [if (!text) return []], then the filter over the words. *)
Definition extractKeywords (text : option jsstring) : list string :=
  match text with
  | None | Some [] => []
  | Some t =>
      let words := tokenize t in
      filter (fun word => negb (includes stopWords word) && (3 <? String.length word))
             words
  end.

(** ** Plain objects used as tables *)

Module JsObject.

(** What a table cell can hold.  A count, or the string that [+ 1] builds
    once the cell was first read through [Object.prototype]; such a string
    starts with the text of a function or of an object, and [ToNumber] maps
    it to [NaN]. *)
Inductive value :=
| VNum (n : nat)
| VText (s : string).

(** Own properties in creation order; no key occurs twice. *)
Definition jsobject (V : Type) := list (string * V).

Fixpoint own {V} (o : jsobject V) (k : string) : option V :=
  match o with
  | [] => None
  | (k', v) :: o' => if String.eqb k k' then Some v else own o' k
  end.

Fixpoint put {V} (o : jsobject V) (k : string) (v : V) : jsobject V :=
  match o with
  | [] => [(k, v)]
  | (k', v') :: o' =>
      if String.eqb k k' then (k', v) :: o' else (k', v') :: put o' k v
  end.

(** [o[k] = v] for a primitive [v]: the setter of [__proto__] ignores a value
    that is neither an object nor [null]; any other key becomes (or stays)
    an own property. *)
Definition assign {V} (o : jsobject V) (k : string) (v : V) : jsobject V :=
  if String.eqb k "__proto__" then o else put o k v.

(** [(o[k] || 0) + 1] for an object [o] whose prototype is
    [Object.prototype].  A missing own property is looked up in the
    prototype: [constructor] is the function [Object] and [__proto__] is
    [Object.prototype] itself, both truthy, and [+ 1] appends ["1"] to their
    string conversion.  Every other missing key reads [undefined]. *)
Definition bump (o : jsobject value) (k : string) : value :=
  match own o k with
  | Some (VNum n) => VNum (n + 1)
  | Some (VText s) => VText (s ++ "1")%string
  | None =>
      if String.eqb k "constructor" then VText ("function Object() { [native code] }" ++ "1")%string
      else if String.eqb k "__proto__" then VText ("[object Object]" ++ "1")%string
      else VNum 1
  end.

(** [xs.forEach(k => { o[k] = (o[k] || 0) + 1; })] *)
Definition tally (o : jsobject value) (xs : list string) : jsobject value :=
  fold_left (fun o k => assign o k (bump o k)) xs o.

Definition isDigit (c : ascii) : bool :=
  let n := N_of_ascii c in ((48 <=? n) && (n <=? 57))%N.

Fixpoint digitsValue (acc : N) (s : string) : N :=
  match s with
  | EmptyString => acc
  | String c s' => digitsValue (10 * acc + (N_of_ascii c - 48))%N s'
  end.

Fixpoint allDigits (s : string) : bool :=
  match s with
  | EmptyString => true
  | String c s' => isDigit c && allDigits s'
  end.

(** An array index: a canonical numeric string below [2^32 - 1]. *)
Definition arrayIndex (k : string) : option N :=
  match k with
  | EmptyString => None
  | String c rest =>
      if allDigits k && (negb (Ascii.eqb c "0") || String.eqb rest "")
         && (digitsValue 0 k <? 4294967295)%N
      then Some (digitsValue 0 k) else None
  end.

Definition isIndex {V} (p : string * V) : bool :=
  match arrayIndex (fst p) with Some _ => true | None => false end.

Definition indexOf {V} (p : string * V) : N :=
  match arrayIndex (fst p) with Some n => n | None => 0%N end.

Fixpoint insertIndex {V} (p : string * V) (l : list (string * V)) :=
  match l with
  | [] => [p]
  | q :: l' => if (indexOf p <=? indexOf q)%N then p :: l else q :: insertIndex p l'
  end.

(** [Object.entries(o)]: array-index keys in ascending numeric order, then
    the other keys in creation order. *)
Definition entries {V} (o : jsobject V) : list (string * V) :=
  fold_right insertIndex [] (filter isIndex o)
  ++ filter (fun p => negb (isIndex p)) o.

Definition keys {V} (o : jsobject V) : list string := map fst (entries o).

(** The comparator [(a, b) => b[1] - a[1]]; [None] is [NaN]. *)
Definition compareFn (a b : string * value) : option Z :=
  match snd a, snd b with
  | VNum x, VNum y => Some (Z.of_nat y - Z.of_nat x)%Z
  | _, _ => None
  end.

(** [Array.prototype.sort] keeps [a] before [b] when the comparator is not
    positive, and reads [NaN] as [+0]. *)
Definition keepsOrder (a b : string * value) : bool :=
  match compareFn a b with
  | Some d => (d <=? 0)%Z
  | None => true
  end.

Fixpoint insertSorted (a : string * value) (l : list (string * value)) :=
  match l with
  | [] => [a]
  | b :: l' => if keepsOrder a b then a :: l else b :: insertSorted a l'
  end.

(** [.sort((a, b) => b[1] - a[1])].  The sort is stable; with counts in
    every cell the comparator is consistent and every stable sort returns
    this list.  With a string in some cell the comparator is not consistent
    and the language leaves the order to the implementation: the insertion
    sort is then one possible outcome. *)
Definition sortByCount (l : list (string * value)) : list (string * value) :=
  fold_right insertSorted [] l.

(** [.reduce((obj, [key, value]) => { obj[key] = value; return obj; }, {})] *)
Definition fromEntries (l : list (string * value)) : jsobject value :=
  fold_left (fun obj kv => assign obj (fst kv) (snd kv)) l [].

(** [Object.entries(o).sort(...).slice(0, n).reduce(...)] *)
Definition top (n : nat) (l : list (string * value)) : jsobject value :=
  fromEntries (firstn n (sortByCount l)).

End JsObject.
Import JsObject.

(** ** Numbers *)

Module JsNumber.

(** A Number is a binary64 value. *)
Definition prec : Z := 53.
Definition emax : Z := 1024.
Definition number := spec_float.

(** The Number that holds an integer (exactly, below [2^53]). *)
Definition ofZ (z : Z) : number := binary_normalize prec emax z 0 false.
Definition ofNat (n : nat) : number := ofZ (Z.of_nat n).

Definition div : number -> number -> number := SFdiv prec emax.
Definition mul : number -> number -> number := SFmul prec emax.

(** [Math.floor] of a finite number, as an integer; [None] for [NaN] and the
    infinities, which [Math.floor] returns unchanged. *)
Definition floor (x : number) : option Z :=
  match x with
  | S754_zero _ => Some 0%Z
  | S754_finite s m e => Some (Z.shiftl (cond_Zopp s (Zpos m)) e)
  | S754_infinity _ | S754_nan => None
  end.

(** [x.toFixed(2)] for a finite [x] below [10^21] in magnitude: the
    decimal [n / 100] for the integer [n] that makes [n / 100 - x] closest to
    zero, the larger [n] of two; a negative [x] is formatted through [-x].
    The result is [n], the value in hundredths (the sign of a negative zero
    is not kept). *)
Definition toFixed2 (x : number) : option Z :=
  match x with
  | S754_zero _ => Some 0%Z
  | S754_finite s m e =>
      let n := match e with
               | Zneg p => ((200 * Zpos m + 2 ^ Zpos p) / 2 ^ (Zpos p + 1))%Z
               | _ => (100 * Zpos m * 2 ^ e)%Z
               end in
      if (n <? 10 ^ 23)%Z then Some (cond_Zopp s n) else None
  | S754_infinity _ | S754_nan => None
  end.

(** [parseFloat] of the decimal with [n] hundredths: the Number nearest to
    [n / 100], which is also what the correctly rounded quotient of the two
    integers is. *)
Definition parseHundredths (n : Z) : number := div (ofZ n) (ofZ 100).

(** [parseFloat(x.toFixed(2))] *)
Definition round2 (x : number) : number :=
  match toFixed2 x with
  | Some n => parseHundredths n
  | None => x
  end.

End JsNumber.
Import JsNumber.

(** ** Reviews *)

Inductive platform := android | ios.

(** A review as the store client returns it.  [date] and [updated] stand for
    the time value (milliseconds since the epoch) of [new Date(...)] on the
    field, [None] when that is an invalid date. *)
Record review := {
  id : string;
  text : option jsstring;
  score : number;
  date : option Z;
  updated : option Z
}.

Record processedReview := {
  p_id : string;
  p_text : option jsstring;
  p_score : number;
  p_sentiment : sentiment;
  p_keywords : list string;
  p_date : option Z
}.

Definition processReview (pf : platform) (r : review) : processedReview :=
  let reviewText := match pf with android => text r | ios => text r end in
  let reviewScore := match pf with android => score r | ios => score r end in
  {| p_id := id r;
     p_text := reviewText;
     p_score := reviewScore;
     p_sentiment := analyzeSentiment reviewText;
     p_keywords := extractKeywords reviewText;
     p_date := match pf with android => date r | ios => updated r end |}.

Definition processReviews (pf : platform) (reviews : list review) :=
  map (processReview pf) reviews.

(** ** Aggregation *)

Definition initialSentimentCounts : jsobject value :=
  [("positive", VNum 0); ("somewhat positive", VNum 0); ("neutral", VNum 0);
   ("somewhat negative", VNum 0); ("negative", VNum 0)].

Definition sentimentCounts (prs : list processedReview) : jsobject value :=
  tally initialSentimentCounts (map (fun r => label (p_sentiment r)) prs).

(** A table cell read as a Number. *)
Definition toNumber (v : option value) : number :=
  match v with
  | Some (VNum n) => ofNat n
  | _ => S754_nan
  end.

(** [totalReviews ? (count / totalReviews) * 100 : 0] *)
Definition percentage (count : number) (totalReviews : nat) : number :=
  match totalReviews with
  | 0 => S754_zero false
  | _ => mul (div count (ofNat totalReviews)) (ofNat 100)
  end.

Definition sentimentBreakdown (prs : list processedReview) : jsobject number :=
  let counts := sentimentCounts prs in
  let totalReviews := List.length prs in
  fold_left
    (fun breakdown sentiment =>
       assign breakdown sentiment
         (round2 (percentage (toNumber (own counts sentiment)) totalReviews)))
    (keys counts) [].

Definition allKeywords (prs : list processedReview) : list string :=
  flat_map p_keywords prs.

Definition keywordFrequency (prs : list processedReview) : jsobject value :=
  tally [] (allKeywords prs).

Definition topKeywords (prs : list processedReview) : jsobject value :=
  top 20 (entries (keywordFrequency prs)).

Record themeEntry := { theme : string; description : string }.

Definition bugKeywords := ["bug"; "crash"; "freezes"; "frozen"; "stuck"; "error"].
Definition pricingKeywords :=
  ["price"; "cost"; "expensive"; "cheap"; "free"; "subscription"; "payment"].
Definition uxKeywords :=
  ["interface"; "design"; "layout"; "ugly"; "beautiful"; "easy"; "difficult";
   "confusing"].

(** [trigger.some(word => Object.keys(keywordFrequency).some(kw => kw.includes(word)))] *)
Definition hasTheme (trigger : list string) (freq : jsobject value) : bool :=
  existsb (fun word => existsb (fun kw => strIncludes kw word) (keys freq)) trigger.

Definition commonThemes (freq : jsobject value) : list themeEntry :=
  (if hasTheme bugKeywords freq
   then [{| theme := "Stability Issues";
            description := "Users are reporting crashes, bugs, or freezes" |}]
   else [])
  ++ (if hasTheme pricingKeywords freq
      then [{| theme := "Pricing Concerns";
               description := "Users are discussing price or subscription costs" |}]
      else [])
  ++ (if hasTheme uxKeywords freq
      then [{| theme := "User Experience";
               description := "Users are commenting on the app's design or usability" |}]
      else []).

(** The clock of the process: the time value of [new Date()] and the offset
    of local time, [LocalTZA(t, isUTC)] of the language specification. *)
Record clock := {
  now : Z;
  localTZA : Z -> bool -> Z
}.

Definition msPerDay : Z := 86400000.

(** [oneWeekAgo = new Date(); oneWeekAgo.setDate(oneWeekAgo.getDate() - 7)].
    [setDate] works on local time: the day of the month minus 7 is the day
    number minus 7 at the same time within the day, and the result is taken
    back to UTC. *)
Definition oneWeekAgo (c : clock) : Z :=
  let t := (now c + localTZA c (now c) true)%Z in
  let newDate := (t - 7 * msPerDay)%Z in
  (newDate - localTZA c newDate false)%Z.

(** [reviewDate >= oneWeekAgo]: false for an invalid date. *)
Definition notBefore (d : option Z) (limit : Z) : bool :=
  match d with
  | Some t => (limit <=? t)%Z
  | None => false
  end.

Definition recentNegativeReviews (c : clock) (prs : list processedReview) :=
  filter (fun r =>
            notBefore (p_date r) (oneWeekAgo c)
            && (sentiment_eqb (p_sentiment r) negative
                || sentiment_eqb (p_sentiment r) somewhat_negative))
         prs.

Definition recentIssuesFrequency (c : clock) (prs : list processedReview) :=
  tally [] (flat_map p_keywords (recentNegativeReviews c prs)).

Definition topRecentIssues (c : clock) (prs : list processedReview) :=
  top 10 (entries (recentIssuesFrequency c prs)).

Definition initialRatingDistribution : jsobject value :=
  [("1", VNum 0); ("2", VNum 0); ("3", VNum 0); ("4", VNum 0); ("5", VNum 0)].

(** The property key of a floored score between 1 and 5. *)
Definition bucketKey (z : Z) : string :=
  String (ascii_of_N (48 + Z.to_N z)) EmptyString.

(** The bucket a review goes to: [Math.floor(review.score)] when it is
    between 1 and 5. *)
Definition bucket (r : processedReview) : option string :=
  match floor (p_score r) with
  | Some z => if ((1 <=? z) && (z <=? 5))%Z then Some (bucketKey z) else None
  | None => None
  end.

(** One turn of the [forEach] that fills the rating distribution. *)
Definition rate (dist : jsobject value) (r : processedReview) : jsobject value :=
  match bucket r with
  | Some k => assign dist k (bump dist k)
  | None => dist
  end.

Definition ratingDistribution (prs : list processedReview) : jsobject value :=
  fold_left rate prs initialRatingDistribution.

(** The filter of the top positive and top negative tables:
    [processedReviews.some(r => r.sentiment === s && r.keywords.includes(key))] *)
Definition mentionedWith (s : sentiment) (prs : list processedReview)
    (kv : string * value) : bool :=
  existsb (fun r => sentiment_eqb (p_sentiment r) s && includes (p_keywords r) (fst kv))
          prs.

Definition topSentimentKeywords (s : sentiment) (prs : list processedReview) :=
  top 10 (filter (mentionedWith s prs) (entries (keywordFrequency prs))).

Definition topPositiveKeywords := topSentimentKeywords positive.
Definition topNegativeKeywords := topSentimentKeywords negative.

Record analysis := {
  a_sentimentBreakdown : jsobject number;
  a_keywordFrequency : jsobject value;
  a_ratingDistribution : jsobject value;
  a_commonThemes : list themeEntry;
  a_recentIssues : jsobject value;
  a_topPositiveKeywords : jsobject value;
  a_topNegativeKeywords : jsobject value
}.

Record report := {
  totalReviewsAnalyzed : nat;
  analysisOf : analysis
}.

(** The handler of [analyze_reviews] from the fetched reviews on. *)
Definition analyzeReviews (c : clock) (pf : platform) (reviews : list review) : report :=
  let processedReviews := processReviews pf reviews in
  {| totalReviewsAnalyzed := List.length processedReviews;
     analysisOf :=
       {| a_sentimentBreakdown := sentimentBreakdown processedReviews;
          a_keywordFrequency := topKeywords processedReviews;
          a_ratingDistribution := ratingDistribution processedReviews;
          a_commonThemes := commonThemes (keywordFrequency processedReviews);
          a_recentIssues := topRecentIssues c processedReviews;
          a_topPositiveKeywords := topPositiveKeywords processedReviews;
          a_topNegativeKeywords := topNegativeKeywords processedReviews |} |}.

Definition utc (t : Z) : clock := {| now := t; localTZA := fun _ _ => 0%Z |}.

Definition mkReview (txt : string) (stars : Z) (d : Z) : review :=
  {| id := "r"; text := Some (ofString txt); score := ofZ stars;
     date := Some d; updated := Some d |}.

(** ** Specification-level notions *)

(** The number of tokens, counted with repetition, that are members of the
    lexicon ([In] is membership up to equality of strings). *)
Definition hits (lexicon tokens : list string) : nat :=
  List.length (filter (fun w => if in_dec string_dec w lexicon then true else false) tokens).

(** The decision rule as the specification lists it: each rule applies only
    when the ones before it do not. *)
Inductive firstMatchingRule (p n : nat) : sentiment -> Prop :=
| rule_positive :
    p > 2 * n -> firstMatchingRule p n positive
| rule_negative :
    ~ p > 2 * n -> n > 2 * p -> firstMatchingRule p n negative
| rule_somewhat_positive :
    ~ p > 2 * n -> ~ n > 2 * p -> p > n -> firstMatchingRule p n somewhat_positive
| rule_somewhat_negative :
    ~ p > 2 * n -> ~ n > 2 * p -> ~ p > n -> n > p ->
    firstMatchingRule p n somewhat_negative
| rule_neutral :
    ~ p > 2 * n -> ~ n > 2 * p -> ~ p > n -> ~ n > p -> firstMatchingRule p n neutral.

(** A character of a lower-case token: a digit, a small letter or the
    underscore. *)
Definition lowerChar (a : ascii) : bool :=
  let n := N_of_ascii a in
  ((48 <=? n) && (n <=? 57) || (97 <=? n) && (n <=? 122) || (n =? 95))%N.

Fixpoint lowerToken (s : string) : bool :=
  match s with
  | EmptyString => true
  | String a s' => lowerChar a && lowerToken s'
  end.

(** The tokens the keyword extractor retains, in the specification's words:
    not a stop word, and longer than 3 characters. *)
Definition retained (w : string) : bool :=
  if in_dec string_dec w stopWords then false else 3 <? String.length w.

(** How many elements of a list pass a test. *)
Definition countIf {A} (f : A -> bool) (l : list A) : nat :=
  List.length (filter f l).

(** The score floors to the integer [z]. *)
Definition floorsTo (z : Z) (x : number) : bool :=
  match floor x with
  | Some y => (y =? z)%Z
  | None => false
  end.

(** The score goes to no bucket: its floor is below 1 or above 5, or it is
    [NaN] or an infinity. *)
Definition outsideBuckets (x : number) : bool :=
  match floor x with
  | Some y => negb ((1 <=? y) && (y <=? 5))%Z
  | None => true
  end.

Definition fiveBuckets (n1 n2 n3 n4 n5 : nat) : jsobject value :=
  [("1", VNum n1); ("2", VNum n2); ("3", VNum n3); ("4", VNum n4); ("5", VNum n5)].

(** [w] occurs inside [s]. *)
Definition Substring (w s : string) : Prop :=
  exists a b : string, s = (a ++ w ++ b)%string.

(** The two property names of [Object.prototype] that a token can spell. *)
Definition prototypeName (k : string) : bool :=
  String.eqb k "constructor" || String.eqb k "__proto__".

(** The count in a table cell. *)
Definition countOf (v : value) : nat :=
  match v with
  | VNum n => n
  | VText _ => 0
  end.

(** [table] holds the [n] entries of [candidates] with the largest counts,
    created in the order of descending count. *)
Record TopByCount (n : nat) (candidates table : list (string * value)) : Prop := {
  top_subset : forall kv, In kv table -> In kv candidates;
  top_nodup : NoDup (map fst table);
  top_size : List.length table = Nat.min n (List.length candidates);
  top_descending :
    StronglySorted (fun a b => countOf (snd b) <= countOf (snd a)) table;
  top_largest :
    forall kv kv', In kv table -> In kv' candidates -> ~ In kv' table ->
                   countOf (snd kv') <= countOf (snd kv)
}.

(** Every cell holds a count. *)
Definition numeric (l : list (string * value)) : Prop :=
  Forall (fun kv => exists n, snd kv = VNum n) l.

(** What [tally] leaves in the cell of a key that is not a property name of
    [Object.prototype], after [c] occurrences of the key. *)
Definition addCount (cell : option value) (c : nat) : option value :=
  match cell, c with
  | None, 0 => None
  | None, _ => Some (VNum c)
  | Some (VNum n), _ => Some (VNum (n + c))
  | Some (VText s), _ => Some (VText s)
  end.

(** The text of the review has [word] among its tokens. *)
Definition mentions (word : string) (r : review) : Prop :=
  exists t, text r = Some t /\ In word (tokenize t).

(** No keyword of any review is a property name of [Object.prototype]. *)
Definition plainKeywords (reviews : list review) : bool :=
  forallb (fun r => forallb (fun k => negb (prototypeName k)) (extractKeywords (text r)))
          reviews.

(** The keyword [k] occurs in a review classified [s]. *)
Definition qualifies (s : sentiment) (reviews : list review) (k : string) : Prop :=
  exists r, In r reviews /\ analyzeSentiment (text r) = s
            /\ In k (extractKeywords (text r)).

(** Occurrences of [k] among the keywords of the reviews. *)
Definition frequency (reviews : list review) (k : string) : nat :=
  count_occ string_dec (flat_map (fun r => extractKeywords (text r)) reviews) k.

(** Where the remainder [r] of a division by [D] lies between two
    consecutive integers: on the lower one, or below, at or above the
    middle. *)
Definition position (r D : Z) : location :=
  if (r =? 0)%Z then loc_Exact else loc_Inexact (2 * r ?= D)%Z.

(** The mantissa [m] and the location [l] locate the rational [N / D]. *)
Definition located (N D m : Z) (l : location) : Prop :=
  (0 < D)%Z /\ (m * D <= N < (m + 1) * D)%Z /\ l = position (N - m * D) D.

(** The value of a finite number in units of [2^-200]; an integer for every
    exponent from [-200] on. *)
Definition scaled (m : BinNums.positive) (e : Z) : Z := (Zpos m * 2 ^ (e + 200))%Z.

(** The five labels in the order of the breakdown. *)
Definition sentiments : list sentiment :=
  [positive; somewhat_positive; neutral; somewhat_negative; negative].

(** ** Fetching the reviews *)

(** The [sort] parameter of the tool: [z.enum(["newest", "rating",
    "helpfulness"])]. *)
Inductive sortParam := newest | rating | helpfulness.

(** An awaited promise: fulfilled with a value, or rejected with an error, of
    which the handler reads the [message]. *)
Record error := { message : jsstring }.

Inductive outcome (A : Type) :=
| fulfilled (value : A)
| rejected (e : error).
Arguments fulfilled {A} value.
Arguments rejected {A} e.

(** [google-play-scraper]: the sort orders and the [reviews] method, which
    resolves to an object whose [data] is the array of reviews ([None] for a
    missing or otherwise falsy [data]). *)
Module Gplay.

Inductive sortType := NEWEST | RATING | HELPFULNESS.

Record reviewsParams := {
  appId : jsstring;
  num : number;
  sort : sortType;
  country : jsstring;
  lang : jsstring
}.

Record reviewsResult := { data : option (list review) }.

End Gplay.

(** [app-store-scraper]: the sort orders, the [app] method, which resolves to
    the details of the app with its numeric [id], and the [reviews] method,
    which resolves to one page of reviews ([None] for a falsy value). *)
Module AppStore.

Inductive sortType := RECENT | HELPFUL.

Record appParams := {
  appId : jsstring;
  country : jsstring
}.

Record appDetails := { id : N }.

Record reviewsParams := {
  reviews_id : jsstring;
  page : nat;
  sort : sortType;
  reviews_country : jsstring
}.

End AppStore.

(** The memoized scrapers, with the state of the world outside the process
    (the stores, the network, the caches) passed through every call. *)
Record scrapers (World : Type) := {
  gplay_reviews :
    Gplay.reviewsParams -> World -> outcome Gplay.reviewsResult * World;
  appStore_app :
    AppStore.appParams -> World -> outcome AppStore.appDetails * World;
  appStore_reviews :
    AppStore.reviewsParams -> World -> outcome (option (list review)) * World
}.
Arguments gplay_reviews {World} _ _ _.
Arguments appStore_app {World} _ _ _.
Arguments appStore_reviews {World} _ _ _.

(** A call to a scraper, with what it gave. *)
Inductive event :=
| gplayReviewsCall (p : Gplay.reviewsParams) (o : outcome Gplay.reviewsResult)
| appCall (p : AppStore.appParams) (o : outcome AppStore.appDetails)
| reviewsCall (p : AppStore.reviewsParams) (o : outcome (option (list review))).

(** [/^\d+$/.test(appId)] *)
Definition isDigitUnit (c : codeunit) : bool := ((48 <=? c) && (c <=? 57))%N.

Definition isNumericId (appId : jsstring) : bool :=
  match appId with
  | [] => false
  | _ :: _ => forallb isDigitUnit appId
  end.

(** [id.toString()] of a whole number below [2^53]: its decimal numeral. *)
Definition decimal (n : N) : jsstring :=
  ofString (NilZero.string_of_uint (N.to_uint n)).

(** [Math.min(a, b)]: [NaN] when an argument is, and [-0] below [+0]. *)
Definition mathMin (a b : number) : number :=
  match SFcompare a b with
  | None => S754_nan
  | Some Lt => a
  | Some Gt => b
  | Some Eq => match a with S754_zero true => a | _ => b end
  end.

(** [a < b] on Numbers. *)
Definition lessThan (a b : number) : bool := SFltb a b.

(** [l.slice(0, end)]: the end is truncated to an integer ([NaN] to 0), a
    negative one counts from the end of the array, and the result stays
    within the array. *)
Definition sliceTo {A} (l : list A) (end_ : number) : list A :=
  match end_ with
  | S754_nan | S754_zero _ | S754_infinity true => []
  | S754_infinity false => l
  | S754_finite s m e =>
      let k := Z.to_nat (Z.shiftl (Zpos m) e) in
      match k with
      | O => []
      | _ => if s then firstn (List.length l - k) l else firstn k l
      end
  end.

Section Fetch.

Context {World : Type} (scraper : scrapers World).
Context (appId : jsstring) (num : number) (country lang : jsstring)
        (sort : sortParam).

(** The [switch] of the Android branch. *)
Definition gplaySortType : Gplay.sortType :=
  match sort with
  | newest => Gplay.NEWEST
  | rating => Gplay.RATING
  | helpfulness => Gplay.HELPFULNESS
  end.

(** The [switch] of the iOS branch: [rating] falls to the default. *)
Definition appStoreSortType : AppStore.sortType :=
  match sort with
  | newest => AppStore.RECENT
  | helpfulness => AppStore.HELPFUL
  | rating => AppStore.RECENT
  end.

(** The variables of the iOS loop, the world, and the calls made so far. *)
Record fetchState := {
  page : nat;
  allReviews : list review;
  world : World;
  trace : list event
}.

Inductive completion := continues (s : fetchState) | breaks (s : fetchState).

(** [allReviews.length < num && page <= 10] *)
Definition loopCondition (s : fetchState) : bool :=
  lessThan (ofNat (List.length (allReviews s))) num && (page s <=? 10).

(** From [await memoizedAppStore.reviews(iosParams)] to the end of the loop
    body; a rejection is caught, logged, and leaves the loop. *)
Definition fetchPage (s : fetchState) (w : World) (calls : list event)
    (iosParams : AppStore.reviewsParams) : completion :=
  let (o, w') := appStore_reviews scraper iosParams w in
  let calls' := calls ++ [reviewsCall iosParams o] in
  match o with
  | fulfilled (Some (r :: rest)) =>
      continues {| page := S (page s);
                   allReviews := allReviews s ++ r :: rest;
                   world := w';
                   trace := calls' |}
  | fulfilled (Some []) | fulfilled None | rejected _ =>
      breaks {| page := page s; allReviews := allReviews s;
                world := w'; trace := calls' |}
  end.

(** The body of the loop. *)
Definition loopBody (s : fetchState) : completion :=
  if isNumericId appId then
    fetchPage s (world s) (trace s)
      {| AppStore.reviews_id := appId; AppStore.page := page s;
         AppStore.sort := appStoreSortType; AppStore.reviews_country := country |}
  else
    let appParams := {| AppStore.appId := appId; AppStore.country := country |} in
    let (o, w') := appStore_app scraper appParams (world s) in
    let calls' := trace s ++ [appCall appParams o] in
    match o with
    | fulfilled appDetails =>
        fetchPage s w' calls'
          {| AppStore.reviews_id := decimal (AppStore.id appDetails);
             AppStore.page := page s;
             AppStore.sort := appStoreSortType;
             AppStore.reviews_country := country |}
    | rejected _ =>
        breaks {| page := page s; allReviews := allReviews s;
                  world := w'; trace := calls' |}
    end.

(** [while (...) { ... }], with a bound on the number of times the condition
    is evaluated; [None] when the bound is reached. *)
Fixpoint while (fuel : nat) (s : fetchState) : option fetchState :=
  match fuel with
  | O => None
  | S fuel' =>
      if loopCondition s then
        match loopBody s with
        | continues s' => while fuel' s'
        | breaks s' => Some s'
        end
      else Some s
  end.

(** What the handler returns: the report, or the error object. *)
Inductive toolResult :=
| content (appId : jsstring) (pf : platform) (r : report)
| isError (message : jsstring) (appId : jsstring) (pf : platform).

(** The handler of [analyze_reviews]: the result, the world after the calls,
    and the calls made.  The condition of the iOS loop is evaluated at most
    11 times. *)
Definition analyze_reviews (c : clock) (pf : platform) (w : World)
  : option (toolResult * World * list event) :=
  match pf with
  | android =>
      let params := {| Gplay.appId := appId;
                       Gplay.num := mathMin num (ofZ 1000);
                       Gplay.sort := gplaySortType;
                       Gplay.country := country;
                       Gplay.lang := lang |} in
      let (o, w') := gplay_reviews scraper params w in
      match o with
      | fulfilled result =>
          let reviews := match Gplay.data result with
                         | Some l => l
                         | None => []
                         end in
          Some (content appId android (analyzeReviews c android reviews), w',
                [gplayReviewsCall params o])
      | rejected e =>
          Some (isError (message e) appId android, w', [gplayReviewsCall params o])
      end
  | ios =>
      match while 11 {| page := 1; allReviews := []; world := w; trace := [] |} with
      | Some s =>
          Some (content appId ios (analyzeReviews c ios (sliceTo (allReviews s) num)),
                world s, trace s)
      | None => None
      end
  end.

End Fetch.

(** The reviews of the pages received, in the order of the calls. *)
Definition received (calls : list event) : list review :=
  flat_map (fun ev => match ev with
                      | reviewsCall _ (fulfilled (Some l)) => l
                      | _ => []
                      end) calls.

Definition reviewsRequests (calls : list event) : list AppStore.reviewsParams :=
  flat_map (fun ev => match ev with
                      | reviewsCall p _ => [p]
                      | _ => []
                      end) calls.

Definition appRequests (calls : list event) : list AppStore.appParams :=
  flat_map (fun ev => match ev with
                      | appCall p _ => [p]
                      | _ => []
                      end) calls.

(** The calls of the iOS branch ask for the pages 1 to [k] in this order,
    with the sort order and the country of the request, look the app up
    under the [appId] of the request, and never go to the other store; a
    numeric [appId] is the [id] of every request, without any lookup. *)
Definition pagesInOrder (appId country : jsstring) (sort : sortParam)
    (calls : list event) (k : nat) : Prop :=
  map AppStore.page (reviewsRequests calls) = seq 1 k
  /\ Forall (fun p => AppStore.sort p = appStoreSortType sort
                      /\ AppStore.reviews_country p = country)
            (reviewsRequests calls)
  /\ Forall (fun p => p = {| AppStore.appId := appId; AppStore.country := country |})
            (appRequests calls)
  /\ Forall (fun ev => match ev with gplayReviewsCall _ _ => False | _ => True end)
            calls
  /\ (isNumericId appId = true ->
      appRequests calls = []
      /\ Forall (fun p => AppStore.reviews_id p = appId) (reviewsRequests calls)).

(** What holds of the variables of the iOS loop before the request for the
    page [page s], and when the loop is left. *)
Definition loopInvariant {World} (appId country : jsstring) (sort : sortParam)
    (s : @fetchState World) : Prop :=
  1 <= page s <= 11
  /\ pagesInOrder appId country sort (trace s) (page s - 1)
  /\ allReviews s = received (trace s).

Definition loopResult {World} (appId country : jsstring) (sort : sortParam)
    (s : @fetchState World) : Prop :=
  exists k, k <= 10
            /\ pagesInOrder appId country sort (trace s) k
            /\ allReviews s = received (trace s).

(** A store that serves two pages of two reviews each and knows one app,
    and a store that fails every call; the world counts the calls. *)
Definition sampleStore : scrapers nat :=
  {| gplay_reviews := fun _ w =>
       (fulfilled {| Gplay.data := Some [mkReview "Great design" 5 0] |}, S w);
     appStore_app := fun _ w => (fulfilled {| AppStore.id := 284882215 |}, S w);
     appStore_reviews := fun p w =>
       (fulfilled (Some (if AppStore.page p <=? 2
                         then [mkReview "Great design" 5 0;
                               mkReview "Terrible crash" 1 0]
                         else [])), S w) |}.

Definition failingStore (e : error) : scrapers nat :=
  {| gplay_reviews := fun _ w => (rejected e, S w);
     appStore_app := fun _ w => (rejected e, S w);
     appStore_reviews := fun _ w => (rejected e, S w) |}.

(** One round of the iOS loop for an [appId] that is not numeric: the lookup
    of the app, then the request for a page. *)
Definition lookupRound (appParams : AppStore.appParams)
    (x : AppStore.appDetails * AppStore.reviewsParams * outcome (option (list review)))
  : list event :=
  let '(details, iosParams, o) := x in
  [appCall appParams (fulfilled details); reviewsCall iosParams o].

(** The page is requested under the [id] that the lookup gave. *)
Definition underLookedUpId
    (x : AppStore.appDetails * AppStore.reviewsParams * outcome (option (list review)))
  : Prop :=
  let '(details, iosParams, _) := x in
  AppStore.reviews_id iosParams = decimal (AppStore.id details).

(** Every call was made while fewer than [n] reviews were held: before the
    call number [i], the pages received held fewer than [n] reviews. *)
Definition calledWhileShort (n : nat) (calls : list event) : Prop :=
  forall i, i < List.length calls -> List.length (received (firstn i calls)) < n.

(** What holds of the variables of the iOS loop for a whole [num = n], before
    the request for the page [page s], and when the loop is left: it is left
    with [n] reviews held, or after ten pages, or after a call that brought
    no review. *)
Definition wholeInvariant {World} (n : nat) (s : @fetchState World) : Prop :=
  1 <= page s <= 11
  /\ page s - 1 <= n
  /\ page s - 1 <= List.length (allReviews s)
  /\ (Z.of_nat (List.length (allReviews s)) <= Z.of_nat (page s - 1) * 2 ^ 28)%Z
  /\ List.length (reviewsRequests (trace s)) = page s - 1
  /\ allReviews s = received (trace s)
  /\ calledWhileShort n (trace s).

Definition wholeResult {World} (n : nat) (s : @fetchState World) : Prop :=
  List.length (reviewsRequests (trace s)) <= n
  /\ calledWhileShort n (trace s)
  /\ (n <= List.length (received (trace s))
      \/ List.length (reviewsRequests (trace s)) = 10
      \/ exists calls ev, trace s = calls ++ [ev] /\ received [ev] = []).

(** ** The keyword analysis *)

(** An app of the search results, as far as the analysis reads it:
    [developer] is the property key that [app.developer] converts to,
    [score] is absent when the scraper gave none, [free] is the truthiness of
    [app.free], and the genres are absent or strings. *)
Module SearchResult.

Record app := {
  developer : string;
  score : option number;
  free : bool;
  genre : option string;
  primaryGenre : option string
}.

End SearchResult.

Record normalizedApp := {
  n_developer : string;
  n_score : option number;
  n_free : bool;
  n_category : option string
}.

(** [results.map(app => ...)]: the category is [app.genre] on Android and
    [app.primaryGenre] on iOS. *)
Definition normalize (pf : platform) (a : SearchResult.app) : normalizedApp :=
  {| n_developer := SearchResult.developer a;
     n_score := SearchResult.score a;
     n_free := SearchResult.free a;
     n_category := match pf with
                   | android => SearchResult.genre a
                   | ios => SearchResult.primaryGenre a
                   end |}.

(** The string conversion of the property of [Object.prototype] of name [k]:
    [__proto__] is [Object.prototype] itself, [constructor] is the function
    [Object], and the other ten are functions of their own name. *)
Definition objectPrototypeText (k : string) : option string :=
  if String.eqb k "__proto__" then Some "[object Object]"
  else if String.eqb k "constructor" then Some "function Object() { [native code] }"
  else if includes ["__defineGetter__"; "__defineSetter__"; "hasOwnProperty";
                    "__lookupGetter__"; "__lookupSetter__"; "isPrototypeOf";
                    "propertyIsEnumerable"; "toString"; "valueOf"; "toLocaleString"] k
       then Some ("function " ++ k ++ "() { [native code] }")%string
  else None.

(** [(o[k] || 0) + 1] for any key [k]: a missing own property is read through
    [Object.prototype], whose properties are truthy, and [+ 1] appends ["1"]
    to their string conversion. *)
Definition bumpKey (o : jsobject value) (k : string) : value :=
  match own o k with
  | Some (VNum n) => VNum (n + 1)
  | Some (VText s) => VText (s ++ "1")%string
  | None =>
      match objectPrototypeText k with
      | Some s => VText (s ++ "1")%string
      | None => VNum 1
      end
  end.

(** [apps.forEach(app => { developerCounts[app.developer] =
    (developerCounts[app.developer] || 0) + 1; })] *)
Definition developerCounts (apps : list normalizedApp) : jsobject value :=
  fold_left (fun o a => assign o (n_developer a) (bumpKey o (n_developer a))) apps [].

(** [Object.entries(developerCounts).sort((a, b) => b[1] - a[1])
    .map(entry => entry[0])] *)
Definition sortedDevelopers (apps : list normalizedApp) : list string :=
  map fst (sortByCount (entries (developerCounts apps))).

Definition add : number -> number -> number := SFadd prec emax.

(** [app.score || 0]: a missing score, a zero and [NaN] count as 0. *)
Definition scoreOrZero (s : option number) : number :=
  match s with
  | None | Some (S754_zero _) | Some S754_nan => ofZ 0
  | Some x => x
  end.

(** [normalizedApps.reduce((sum, app) => sum + (app.score || 0), 0)
    / totalApps] *)
Definition avgRating (apps : list normalizedApp) : number :=
  div (fold_left (fun sum a => add sum (scoreOrZero (n_score a))) apps (ofZ 0))
      (ofNat (List.length apps)).

Definition paidApps (apps : list normalizedApp) : list normalizedApp :=
  filter (fun a => negb (n_free a)) apps.

(** [(paidApps.length / totalApps) * 100] *)
Definition paidPercentage (apps : list normalizedApp) : number :=
  mul (div (ofNat (List.length (paidApps apps))) (ofNat (List.length apps))) (ofZ 100).

Definition topBrands (apps : list normalizedApp) : list string :=
  firstn 2 (sortedDevelopers apps).

(** [topBrands.reduce((count, brand) => count + developerCounts[brand], 0)]:
    a sum of counts, or [None] once a cell that holds a string was added;
    the sum is then a string with the text of a function or of an object in
    it, and [ToNumber] maps it to [NaN]. *)
Definition topBrandAppsCount (apps : list normalizedApp) : option nat :=
  fold_left (fun count brand =>
               match count, own (developerCounts apps) brand with
               | Some c, Some (VNum n) => Some (c + n)
               | _, _ => None
               end)
            (topBrands apps) (Some 0).

(** [topBrandAppsCount / totalApps] *)
Definition brandDominance (apps : list normalizedApp) : number :=
  match topBrandAppsCount apps with
  | Some c => div (ofNat c) (ofNat (List.length apps))
  | None => S754_nan
  end.

(** The Numbers that the literals [0.7] and [0.4] denote, the binary64
    values nearest to 7/10 and to 4/10:
    [6305039478318694 / 2^53] and [7205759403792794 / 2^54]. *)
Definition literal_0_7 : number := S754_finite false 6305039478318694 (-53).
Definition literal_0_4 : number := S754_finite false 7205759403792794 (-54).

Inductive competition :=
| Low      (* "Low - dominated by major brands" *)
| Medium   (* "Medium - mix of major brands and independents" *)
| High.    (* "High - diverse set of developers" *)

(** [if (brandDominance > 0.7) ... else if (brandDominance > 0.4) ... else
    ...] *)
Definition competitionLevel (apps : list normalizedApp) : competition :=
  if lessThan literal_0_7 (brandDominance apps) then Low
  else if lessThan literal_0_4 (brandDominance apps) then Medium
  else High.

(** [if (category) { categoryDistribution[category] =
    (categoryDistribution[category] || 0) + 1; }]: a missing and an empty
    category are skipped. *)
Definition categoryDistribution (apps : list normalizedApp) : jsobject value :=
  fold_left (fun o a =>
               match n_category a with
               | None | Some EmptyString => o
               | Some category => assign o category (bumpKey o category)
               end)
            apps [].

Record brandPresence := {
  b_topBrands : list string;
  b_brandDominance : number;
  b_competitionLevel : competition
}.

Record metrics := {
  m_totalApps : nat;
  m_averageRating : number;
  m_paidAppsPercentage : number;
  m_categoryDistribution : jsobject value
}.

Record keywordReport := {
  brandPresenceOf : brandPresence;
  metricsOf : metrics
}.

(** The handler of [analyze_top_keywords] from the search results on. *)
Definition analyzeTopKeywords (pf : platform) (results : list SearchResult.app)
  : keywordReport :=
  let normalizedApps := map (normalize pf) results in
  {| brandPresenceOf :=
       {| b_topBrands := topBrands normalizedApps;
          b_brandDominance := round2 (brandDominance normalizedApps);
          b_competitionLevel := competitionLevel normalizedApps |};
     metricsOf :=
       {| m_totalApps := List.length normalizedApps;
          m_averageRating := round2 (avgRating normalizedApps);
          m_paidAppsPercentage := round2 (paidPercentage normalizedApps);
          m_categoryDistribution := categoryDistribution normalizedApps |} |}.

Definition mkApp (dev : string) (paid : bool) (cat : string) : SearchResult.app :=
  {| SearchResult.developer := dev; SearchResult.score := Some (ofZ 4);
     SearchResult.free := negb paid; SearchResult.genre := Some cat;
     SearchResult.primaryGenre := Some cat |}.

(** The developers and the categories of the apps, and the number of apps of
    a developer. *)
Definition developers (apps : list normalizedApp) : list string :=
  map n_developer apps.

Definition categories (apps : list normalizedApp) : list string :=
  flat_map (fun a => match n_category a with
                     | None | Some EmptyString => []
                     | Some category => [category]
                     end) apps.

Definition appsOf (apps : list normalizedApp) (dev : string) : nat :=
  count_occ string_dec (developers apps) dev.

(** No name is a property name of [Object.prototype]. *)
Definition plainNames (names : list string) : Prop :=
  Forall (fun k => objectPrototypeText k = None) names.

(** Ten search results: four apps of one developer, three of another, and
    three developers with one app each. *)
Definition sampleResults : list SearchResult.app :=
  [mkApp "Acme" false "Games"; mkApp "Bolt" true "Tools"; mkApp "Acme" false "Games";
   mkApp "Core" false "Games"; mkApp "Bolt" false "Tools"; mkApp "Acme" true "Games";
   mkApp "Dune" false "Music"; mkApp "Bolt" false "Tools"; mkApp "Acme" false "Games";
   mkApp "Echo" false EmptyString].

(** The string of a sequence of word characters. *)
Fixpoint unitsToString (s : jsstring) : string :=
  match s with
  | [] => EmptyString
  | c :: s' => String (ascii_of_N c) (unitsToString s')
  end.

(** A code unit that stays one character which is no word character when the
    text is lower-cased. *)
Definition separator (c : codeunit) : bool :=
  negb (isWord c) && negb (c =? 8490)%N && negb (c =? 304)%N.

(** The sum of the counts of a table. *)
Definition totalCount (l : list (string * value)) : nat :=
  list_sum (map (fun kv => countOf (snd kv)) l).

(** The distinct elements of a list in the order of their first
    occurrences. *)
Definition firstOccurrences (xs : list string) : list string :=
  rev (nodup string_dec (rev xs)).

(** The entries of a table whose count is [c]. *)
Definition withCount (c : nat) (l : list (string * value)) : list (string * value) :=
  filter (fun kv => countOf (snd kv) =? c) l.

(** * Properties *)

(** ** The program on sample inputs *)

Example tokenize_ex :
  tokenize (ofString "Terrible app, keeps CRASHING; it's the_worst 2024!")
  = ["terrible"; "app"; "keeps"; "crashing"; "it"; "s"; "the_worst"; "2024"].
Proof. reflexivity. Qed.

Example analyzeSentiment_ex1 :
  analyzeSentiment (Some (ofString "This app is great, I love it, best ever")) = positive.
Proof. reflexivity. Qed.

Example analyzeSentiment_ex2 :
  analyzeSentiment (Some (ofString "Terrible app, keeps crashing, worst bug ever")) = negative.
Proof. reflexivity. Qed.

Example extractKeywords_ex :
  extractKeywords (Some (ofString "The app keeps crashing, crashing and crashing"))
  = ["keeps"; "crashing"; "crashing"; "crashing"].
Proof. reflexivity. Qed.

Example tally_ex :
  entries (tally [] ["zeta"; "2024"; "alpha"; "zeta"; "1999"; "__proto__"; "constructor"])
  = [("1999", VNum 1); ("2024", VNum 1); ("zeta", VNum 2); ("alpha", VNum 1);
     ("constructor", VText "function Object() { [native code] }1")].
Proof. reflexivity. Qed.

Example analyzeReviews_ex :
  analysisOf (analyzeReviews (utc 1000000000000) android
     [mkReview "Great great great design" 5 999999999999;
      mkReview "Crashes, terrible crash" 1 999999999999;
      mkReview "fine" 3 0])
  = {| a_sentimentBreakdown :=
         [("positive", parseHundredths 3333); ("somewhat positive", parseHundredths 0);
          ("neutral", parseHundredths 3333); ("somewhat negative", parseHundredths 0);
          ("negative", parseHundredths 3333)];
       a_keywordFrequency :=
         [("great", VNum 3); ("design", VNum 1); ("crashes", VNum 1);
          ("terrible", VNum 1); ("crash", VNum 1); ("fine", VNum 1)];
       a_ratingDistribution :=
         [("1", VNum 1); ("2", VNum 0); ("3", VNum 1); ("4", VNum 0); ("5", VNum 1)];
       a_commonThemes :=
         [{| theme := "Stability Issues";
             description := "Users are reporting crashes, bugs, or freezes" |};
          {| theme := "User Experience";
             description := "Users are commenting on the app's design or usability" |}];
       a_recentIssues := [("crashes", VNum 1); ("terrible", VNum 1); ("crash", VNum 1)];
       a_topPositiveKeywords := [("great", VNum 3); ("design", VNum 1)];
       a_topNegativeKeywords := [("crashes", VNum 1); ("terrible", VNum 1); ("crash", VNum 1)] |}.
Proof. vm_compute. reflexivity. Qed.


(** ** Sentiment classifier *)

Section Classifier.

Lemma includes_In (l : list string) (w : string) :
  includes l w = true <-> In w l.
Proof.
  unfold includes. rewrite existsb_exists. split.
  - intros [x [Hx Heq]]. apply String.eqb_eq in Heq. now subst.
  - intros H. exists w. split; [assumption | apply String.eqb_refl].
Qed.

Lemma includes_in_dec (l : list string) (w : string) :
  includes l w = if in_dec string_dec w l then true else false.
Proof.
  destruct (in_dec string_dec w l) as [Hin | Hout].
  - now apply includes_In.
  - destruct (includes l w) eqn:E; [| reflexivity].
    apply includes_In in E. contradiction.
Qed.

Lemma fold_countWord (ws : list string) (p n : nat) :
  fold_left countWord ws (p, n)
  = (p + hits positiveWords ws, n + hits negativeWords ws).
Proof.
  revert p n. induction ws as [| w ws IH]; intros p n.
  - unfold hits. simpl. now rewrite !Nat.add_0_r.
  - cbn [fold_left]. unfold countWord at 2. rewrite !includes_in_dec.
    unfold hits. cbn [filter].
    destruct (in_dec string_dec w positiveWords);
      destruct (in_dec string_dec w negativeWords);
      rewrite IH; unfold hits; cbn [List.length]; f_equal; lia.
Qed.

Lemma verdict_firstMatchingRule (p n : nat) (s : sentiment) :
  verdict p n = s <-> firstMatchingRule p n s.
Proof.
  unfold verdict. split.
  - intros <-.
    destruct (Nat.ltb_spec (n * 2) p); [constructor; lia |].
    destruct (Nat.ltb_spec (p * 2) n); [constructor; lia |].
    destruct (Nat.ltb_spec n p); [constructor; lia |].
    destruct (Nat.ltb_spec p n); constructor; lia.
  - intros H.
    destruct (Nat.ltb_spec (n * 2) p); [inversion H; subst; (reflexivity || lia) |].
    destruct (Nat.ltb_spec (p * 2) n); [inversion H; subst; (reflexivity || lia) |].
    destruct (Nat.ltb_spec n p); [inversion H; subst; (reflexivity || lia) |].
    destruct (Nat.ltb_spec p n); inversion H; subst; (reflexivity || lia).
Qed.

Lemma analyzeSentiment_counts (t : jsstring) :
  analyzeSentiment (Some t)
  = verdict (hits positiveWords (tokenize t)) (hits negativeWords (tokenize t)).
Proof.
  destruct t as [| c t']; [reflexivity |].
  unfold analyzeSentiment. now rewrite fold_countWord.
Qed.

End Classifier.

(** C1. For every text, the classifier's answer is the first rule that
    matches the two lexicon hit counts of the text's tokens (every occurrence
    of a member token counted, membership by equality of strings), in the
    order positive, negative, somewhat positive, somewhat negative, neutral;
    no other label satisfies the rule list. *)
Theorem analyzeSentiment_first_matching_rule (t : jsstring) (s : sentiment) :
  analyzeSentiment (Some t) = s
  <-> firstMatchingRule (hits positiveWords (tokenize t))
                        (hits negativeWords (tokenize t)) s.
Proof.
  rewrite analyzeSentiment_counts. apply verdict_firstMatchingRule.
Qed.

(** ** Keyword extractor *)

Section Extractor.

Lemma lowerUnit_not_capital (c : codeunit) :
  Forall (fun u => ((65 <=? u) && (u <=? 90))%N = false) (lowerUnit c).
Proof.
  unfold lowerUnit.
  destruct ((65 <=? c) && (c <=? 90))%N eqn:Hcap.
  - constructor; [| constructor].
    apply andb_true_iff in Hcap. destruct Hcap as [H1 H2].
    apply N.leb_le in H1. apply N.leb_le in H2.
    apply andb_false_iff. right. apply N.leb_gt. lia.
  - destruct (c =? 8490)%N; [repeat constructor |].
    destruct (c =? 304)%N; [repeat constructor |].
    constructor; [assumption | constructor].
Qed.

Lemma toLowerCase_not_capital (s : jsstring) :
  Forall (fun u => ((65 <=? u) && (u <=? 90))%N = false) (toLowerCase s).
Proof.
  induction s as [| c s IH]; [constructor |].
  unfold toLowerCase. cbn [flat_map]. apply Forall_app. split.
  - apply lowerUnit_not_capital.
  - exact IH.
Qed.

Lemma isWord_lowerChar (c : codeunit) :
  isWord c = true -> ((65 <=? c) && (c <=? 90))%N = false ->
  lowerChar (ascii_of_N c) = true.
Proof.
  unfold isWord, lowerChar. intros Hw Hcap.
  assert (Hlt : (c < 256)%N).
  { rewrite !orb_true_iff, !andb_true_iff, !N.leb_le, N.eqb_eq in Hw. lia. }
  cbv zeta. rewrite (N_ascii_embedding c Hlt).
  rewrite Hcap in Hw. rewrite orb_false_r in Hw. exact Hw.
Qed.

Lemma flush_Forall (P : string -> Prop) (run : string) (toks : list string) :
  P run -> Forall P toks -> Forall P (flush run toks).
Proof.
  intros Hr Ht. destruct run; cbn [flush]; [assumption | now constructor].
Qed.

Lemma runs_lower (s : jsstring) :
  Forall (fun u => ((65 <=? u) && (u <=? 90))%N = false) s ->
  lowerToken (fst (runs s)) = true
  /\ Forall (fun w => lowerToken w = true) (snd (runs s)).
Proof.
  induction s as [| c s IH]; intros Hs.
  - split; [reflexivity | constructor].
  - inversion Hs as [| ? ? Hc Hs']; subst.
    destruct (IH Hs') as [IHrun IHtoks].
    cbn [runs]. destruct (runs s) as [run toks]. cbn [fst snd] in *.
    destruct (isWord c) eqn:Hw; cbn [fst snd].
    + split; [| assumption].
      cbn [lowerToken]. now rewrite (isWord_lowerChar c Hw Hc).
    + split; [reflexivity |]. now apply flush_Forall.
Qed.

Lemma tokenize_lower (t : jsstring) :
  Forall (fun w => lowerToken w = true) (tokenize t).
Proof.
  unfold tokenize, matchWords.
  destruct (runs_lower (toLowerCase t) (toLowerCase_not_capital t)) as [Hrun Htoks].
  destruct (runs (toLowerCase t)) as [run toks]. cbn [fst snd] in *.
  now apply flush_Forall.
Qed.

Lemma keep_retained (w : string) :
  negb (includes stopWords w) && (3 <? String.length w) = retained w.
Proof.
  unfold retained. rewrite includes_in_dec.
  now destruct (in_dec string_dec w stopWords).
Qed.

Lemma extractKeywords_filter (t : jsstring) :
  extractKeywords (Some t) = filter retained (tokenize t).
Proof.
  destruct t as [| c t']; [reflexivity |].
  unfold extractKeywords. apply filter_ext. intros w. apply keep_retained.
Qed.

Lemma count_occ_filter (f : string -> bool) (l : list string) (w : string) :
  count_occ string_dec (filter f l) w
  = if f w then count_occ string_dec l w else 0.
Proof.
  induction l as [| x l IH]; cbn [filter count_occ].
  - now destruct (f w).
  - destruct (string_dec x w) as [-> | Hne].
    + destruct (f w) eqn:Hf; cbn [count_occ].
      * destruct (string_dec w w); [| contradiction]. now rewrite IH.
      * exact IH.
    + destruct (f x); cbn [count_occ].
      * destruct (string_dec x w); [contradiction |]. exact IH.
      * exact IH.
Qed.

End Extractor.

(** C2 as stated fails: a retained token that occurs twice in the text occurs
    twice among the keywords. *)
Lemma extractKeywords_repeats :
  ~ NoDup (extractKeywords (Some (ofString "Crash after crash"))).
Proof.
  change (~ NoDup ["crash"; "crash"]).
  intros H. inversion H as [| ? ? Hnin _]; subst. apply Hnin. now left.
Qed.

(** C2, amended. For every text, the keyword extractor returns the tokens
    of the text, in text order and with their repetitions, that are not stop
    words and are longer than 3 characters: every token is lower-case, and a
    retained token occurs among the keywords as many times as in the text. *)
Theorem extractKeywords_keeps_every_occurrence (t : jsstring) (w : string) :
  extractKeywords (Some t) = filter retained (tokenize t)
  /\ Forall (fun k => lowerToken k = true) (extractKeywords (Some t))
  /\ count_occ string_dec (extractKeywords (Some t)) w
     = if retained w then count_occ string_dec (tokenize t) w else 0.
Proof.
  rewrite extractKeywords_filter. split; [reflexivity | split].
  - apply Forall_forall. intros k Hk. apply filter_In in Hk.
    destruct Hk as [Hk _].
    exact (proj1 (Forall_forall _ _) (tokenize_lower t) k Hk).
  - apply count_occ_filter.
Qed.

(** ** Review processing *)

(** C9. The sentiment and the keywords of a processed review are determined
    by the text of the review: two reviews with the same text, at any
    positions of any two batches processed for any platforms, get the same
    sentiment and the same keywords, whatever their other fields and the
    other reviews are. *)
Theorem sentiment_keywords_depend_on_text_only
    (pf1 pf2 : platform) (batch1 batch2 : list review) (i j : nat)
    (r1 r2 : review) :
  nth_error batch1 i = Some r1 ->
  nth_error batch2 j = Some r2 ->
  text r1 = text r2 ->
  exists q1 q2,
    nth_error (processReviews pf1 batch1) i = Some q1
    /\ nth_error (processReviews pf2 batch2) j = Some q2
    /\ p_sentiment q1 = analyzeSentiment (text r1)
    /\ p_keywords q1 = extractKeywords (text r1)
    /\ p_sentiment q1 = p_sentiment q2
    /\ p_keywords q1 = p_keywords q2.
Proof.
  intros H1 H2 Htext.
  exists (processReview pf1 r1), (processReview pf2 r2).
  unfold processReviews.
  rewrite (map_nth_error (processReview pf1) i batch1 H1).
  rewrite (map_nth_error (processReview pf2) j batch2 H2).
  destruct pf1, pf2; cbn; rewrite Htext; repeat split; reflexivity.
Qed.

Lemma sentiment_keywords_depend_on_text_only_witness :
  exists q1 q2,
    nth_error (processReviews android
                 [mkReview "love it" 5 10; mkReview "crash" 1 20]) 1 = Some q1
    /\ nth_error (processReviews ios
                    [{| id := "b"; text := Some (ofString "crash"); score := ofZ 4;
                        date := None; updated := Some 7%Z |}]) 0 = Some q2
    /\ p_sentiment q1 = analyzeSentiment (Some (ofString "crash"))
    /\ p_keywords q1 = extractKeywords (Some (ofString "crash"))
    /\ p_sentiment q1 = p_sentiment q2
    /\ p_keywords q1 = p_keywords q2.
Proof.
  apply (sentiment_keywords_depend_on_text_only android ios
           [mkReview "love it" 5 10; mkReview "crash" 1 20]
           [{| id := "b"; text := Some (ofString "crash"); score := ofZ 4;
               date := None; updated := Some 7%Z |}]
           1 0 (mkReview "crash" 1 20)
           {| id := "b"; text := Some (ofString "crash"); score := ofZ 4;
              date := None; updated := Some 7%Z |});
    reflexivity.
Defined.

(** ** Rating distribution *)

Section Rating.

Lemma p_score_processReview (pf : platform) (r : review) :
  p_score (processReview pf r) = score r.
Proof. now destruct pf. Qed.

Lemma rate_fiveBuckets (n1 n2 n3 n4 n5 : nat) (r : processedReview) :
  rate (fiveBuckets n1 n2 n3 n4 n5) r
  = fiveBuckets (n1 + Nat.b2n (floorsTo 1 (p_score r)))
                (n2 + Nat.b2n (floorsTo 2 (p_score r)))
                (n3 + Nat.b2n (floorsTo 3 (p_score r)))
                (n4 + Nat.b2n (floorsTo 4 (p_score r)))
                (n5 + Nat.b2n (floorsTo 5 (p_score r))).
Proof.
  unfold rate, bucket, floorsTo.
  destruct (floor (p_score r)) as [z |]; cbn [Nat.b2n].
  - destruct ((1 <=? z) && (z <=? 5))%Z eqn:Hrange.
    + apply andb_true_iff in Hrange. destruct Hrange as [Hlo Hhi].
      apply Z.leb_le in Hlo. apply Z.leb_le in Hhi.
      assert (Hz : (z = 1 \/ z = 2 \/ z = 3 \/ z = 4 \/ z = 5)%Z) by lia.
      destruct Hz as [-> | [-> | [-> | [-> | ->]]]];
        cbn; now rewrite !Nat.add_0_r.
    + assert (H1 : (z =? 1)%Z = false) by (apply Z.eqb_neq; intros ->; discriminate).
      assert (H2 : (z =? 2)%Z = false) by (apply Z.eqb_neq; intros ->; discriminate).
      assert (H3 : (z =? 3)%Z = false) by (apply Z.eqb_neq; intros ->; discriminate).
      assert (H4 : (z =? 4)%Z = false) by (apply Z.eqb_neq; intros ->; discriminate).
      assert (H5 : (z =? 5)%Z = false) by (apply Z.eqb_neq; intros ->; discriminate).
      rewrite H1, H2, H3, H4, H5. cbn. now rewrite !Nat.add_0_r.
  - now rewrite !Nat.add_0_r.
Qed.

Lemma fold_rate (prs : list processedReview) (n1 n2 n3 n4 n5 : nat) :
  fold_left rate prs (fiveBuckets n1 n2 n3 n4 n5)
  = fiveBuckets (n1 + countIf (fun r => floorsTo 1 (p_score r)) prs)
                (n2 + countIf (fun r => floorsTo 2 (p_score r)) prs)
                (n3 + countIf (fun r => floorsTo 3 (p_score r)) prs)
                (n4 + countIf (fun r => floorsTo 4 (p_score r)) prs)
                (n5 + countIf (fun r => floorsTo 5 (p_score r)) prs).
Proof.
  revert n1 n2 n3 n4 n5. induction prs as [| r prs IH]; intros n1 n2 n3 n4 n5.
  - unfold countIf. cbn. now rewrite !Nat.add_0_r.
  - cbn [fold_left]. rewrite rate_fiveBuckets, IH. unfold countIf. cbn [filter].
    destruct (floorsTo 1 (p_score r)), (floorsTo 2 (p_score r)),
      (floorsTo 3 (p_score r)), (floorsTo 4 (p_score r)), (floorsTo 5 (p_score r));
      cbn [Nat.b2n List.length]; f_equal; lia.
Qed.

Lemma countIf_map {A B} (g : A -> B) (f : B -> bool) (l : list A) :
  countIf f (map g l) = countIf (fun a => f (g a)) l.
Proof.
  unfold countIf. induction l as [| a l IH]; [reflexivity |].
  cbn [map filter]. destruct (f (g a)); cbn [List.length]; now rewrite IH.
Qed.

Lemma countIf_ext {A} (f g : A -> bool) (l : list A) :
  (forall a, f a = g a) -> countIf f l = countIf g l.
Proof. intros H. unfold countIf. now rewrite (filter_ext f g H). Qed.

Lemma ratingDistribution_counts (pf : platform) (reviews : list review) :
  ratingDistribution (processReviews pf reviews)
  = fiveBuckets (countIf (fun r => floorsTo 1 (score r)) reviews)
                (countIf (fun r => floorsTo 2 (score r)) reviews)
                (countIf (fun r => floorsTo 3 (score r)) reviews)
                (countIf (fun r => floorsTo 4 (score r)) reviews)
                (countIf (fun r => floorsTo 5 (score r)) reviews).
Proof.
  unfold ratingDistribution, processReviews.
  change initialRatingDistribution with (fiveBuckets 0 0 0 0 0).
  rewrite fold_rate. cbn [Nat.add]. rewrite !countIf_map.
  f_equal; apply countIf_ext; intros r; now rewrite p_score_processReview.
Qed.

Lemma buckets_partition (reviews : list review) :
  countIf (fun r => floorsTo 1 (score r)) reviews
  + countIf (fun r => floorsTo 2 (score r)) reviews
  + countIf (fun r => floorsTo 3 (score r)) reviews
  + countIf (fun r => floorsTo 4 (score r)) reviews
  + countIf (fun r => floorsTo 5 (score r)) reviews
  + countIf (fun r => outsideBuckets (score r)) reviews
  = List.length reviews.
Proof.
  unfold countIf. induction reviews as [| r l IH]; [reflexivity |].
  cbn [filter List.length]. unfold floorsTo, outsideBuckets in *.
  destruct (floor (score r)) as [z |].
  - destruct (Z.eqb_spec z 1) as [-> |]; [cbn; lia |].
    destruct (Z.eqb_spec z 2) as [-> |]; [cbn; lia |].
    destruct (Z.eqb_spec z 3) as [-> |]; [cbn; lia |].
    destruct (Z.eqb_spec z 4) as [-> |]; [cbn; lia |].
    destruct (Z.eqb_spec z 5) as [-> |]; [cbn; lia |].
    assert (Hout : negb ((1 <=? z)%Z && (z <=? 5)%Z) = true).
    { apply negb_true_iff, andb_false_iff.
      destruct (Z.leb_spec 1 z); [right; apply Z.leb_gt; lia | now left]. }
    rewrite Hout. cbn [List.length]. lia.
  - cbn [List.length]. lia.
Qed.

Lemma countIf_pos {A} (f : A -> bool) (l : list A) :
  0 < countIf f l <-> exists a, In a l /\ f a = true.
Proof.
  unfold countIf. split.
  - intros H. destruct (filter f l) as [| a l'] eqn:E; [cbn in H; lia |].
    exists a. apply filter_In. rewrite E. now left.
  - intros [a Ha]. apply filter_In in Ha.
    destruct (filter f l); [contradiction | cbn; lia].
Qed.

End Rating.

(** C5. The rating distribution is the histogram of the floored scores over
    the buckets 1 to 5.  A review whose score goes to no bucket (its floor is
    outside 1..5, or the score is not finite) changes nothing; the bucket
    counts add up to the number of reviews minus those, hence to at most the
    number of reviews, and to strictly less exactly when there is such a
    review. *)
Theorem ratingDistribution_histogram (c : clock) (pf : platform) (reviews : list review) :
  let dist := a_ratingDistribution (analysisOf (analyzeReviews c pf reviews)) in
  let inBucket z := countIf (fun r => floorsTo z (score r)) reviews in
  let total := inBucket 1%Z + inBucket 2%Z + inBucket 3%Z + inBucket 4%Z + inBucket 5%Z in
  dist = fiveBuckets (inBucket 1%Z) (inBucket 2%Z) (inBucket 3%Z) (inBucket 4%Z)
                     (inBucket 5%Z)
  /\ total + countIf (fun r => outsideBuckets (score r)) reviews = List.length reviews
  /\ total <= List.length reviews
  /\ (total < List.length reviews
      <-> exists r, In r reviews /\ outsideBuckets (score r) = true).
Proof.
  cbv zeta. cbn [analyzeReviews analysisOf a_ratingDistribution].
  pose proof (buckets_partition reviews) as Hsum.
  split; [apply ratingDistribution_counts |].
  split; [exact Hsum |]. split; [lia |].
  rewrite <- countIf_pos. lia.
Qed.

(** C10. Whatever the reviews are, the rating distribution of the report has
    exactly the five keys 1 to 5, in this order, each with a count (a
    natural number, zero for a bucket no review falls into); it is never
    empty. *)
Theorem ratingDistribution_five_keys (c : clock) (pf : platform) (reviews : list review) :
  let dist := a_ratingDistribution (analysisOf (analyzeReviews c pf reviews)) in
  (exists n1 n2 n3 n4 n5, dist = fiveBuckets n1 n2 n3 n4 n5)
  /\ keys dist = ["1"; "2"; "3"; "4"; "5"]
  /\ dist <> []
  /\ a_ratingDistribution (analysisOf (analyzeReviews c pf []))
     = fiveBuckets 0 0 0 0 0.
Proof.
  cbv zeta. cbn [analyzeReviews analysisOf a_ratingDistribution].
  rewrite ratingDistribution_counts.
  split; [now eexists _, _, _, _, _ |].
  split; [reflexivity |]. split; [discriminate | reflexivity].
Qed.

(** ** Objects as tables *)

Section ObjectFacts.

Context {V : Type}.
Implicit Types (o : jsobject V) (k : string) (v : V).

Lemma own_put o k v k' :
  own (put o k v) k' = if String.eqb k' k then Some v else own o k'.
Proof.
  induction o as [| [k0 v0] o IH]; cbn [put own].
  - reflexivity.
  - destruct (String.eqb_spec k k0) as [-> | Hne]; cbn [own].
    + now destruct (String.eqb k' k0).
    + rewrite IH. destruct (String.eqb_spec k' k0) as [-> | Hne'].
      * destruct (String.eqb_spec k0 k); [congruence | reflexivity].
      * reflexivity.
Qed.

Lemma own_None o k : own o k = None <-> ~ In k (map fst o).
Proof.
  induction o as [| [k0 v0] o IH]; cbn [own map fst In].
  - tauto.
  - destruct (String.eqb_spec k k0) as [-> | Hne].
    + split; [discriminate | intros H; exfalso; apply H; now left].
    + rewrite IH. split; [intros H [E | I]; [congruence | tauto] | tauto].
Qed.

Lemma own_In o k v : NoDup (map fst o) -> own o k = Some v <-> In (k, v) o.
Proof.
  induction o as [| [k0 v0] o IH]; cbn [own map fst In]; intros Hnd.
  - split; [discriminate | tauto].
  - inversion Hnd as [| ? ? Hnin Hnd']; subst.
    destruct (String.eqb_spec k k0) as [-> | Hne].
    + split.
      * intros [= ->]. now left.
      * intros [[= ->] | Hin]; [reflexivity |].
        exfalso. apply Hnin. apply (in_map fst) in Hin. exact Hin.
    + rewrite (IH Hnd'). split; [tauto | intros [[= -> ->] | H]; [congruence | exact H]].
Qed.

Lemma keys_put_old o k v :
  In k (map fst o) -> map fst (put o k v) = map fst o.
Proof.
  induction o as [| [k0 v0] o IH]; cbn [put map fst In]; [tauto |].
  intros Hin. destruct (String.eqb_spec k k0) as [-> | Hne]; cbn [map fst].
  - reflexivity.
  - f_equal. apply IH. destruct Hin; [congruence | assumption].
Qed.

Lemma keys_put_new o k v :
  ~ In k (map fst o) -> map fst (put o k v) = map fst o ++ [k].
Proof.
  induction o as [| [k0 v0] o IH]; cbn [put map fst In app]; [reflexivity |].
  intros Hnin. destruct (String.eqb_spec k k0) as [-> | Hne]; cbn [map fst].
  - exfalso. apply Hnin. now left.
  - f_equal. apply IH. tauto.
Qed.

Lemma put_new o k v : ~ In k (map fst o) -> put o k v = o ++ [(k, v)].
Proof.
  induction o as [| [k0 v0] o IH]; cbn [put map fst In app]; [reflexivity |].
  intros Hnin. destruct (String.eqb_spec k k0) as [-> | Hne].
  - exfalso. apply Hnin. now left.
  - f_equal. apply IH. tauto.
Qed.

Lemma NoDup_put o k v : NoDup (map fst o) -> NoDup (map fst (put o k v)).
Proof.
  intros Hnd. destruct (in_dec string_dec k (map fst o)) as [Hin | Hnin].
  - now rewrite keys_put_old.
  - rewrite keys_put_new by assumption.
    apply NoDup_app; [assumption | repeat constructor; intros [] |].
    intros x Hx [<- | []]. contradiction.
Qed.

Lemma In_keys_put o k v k' :
  In k' (map fst (put o k v)) <-> k' = k \/ In k' (map fst o).
Proof.
  destruct (in_dec string_dec k (map fst o)) as [Hin | Hnin].
  - rewrite keys_put_old by assumption. split; [tauto | intros [-> | H]; assumption].
  - rewrite keys_put_new by assumption. rewrite in_app_iff. cbn [In].
    split; [intros [H | [<- | []]]; tauto | intros [-> | H]; tauto].
Qed.

Lemma own_assign o k v k' :
  own (assign o k v) k'
  = if String.eqb k "__proto__" then own o k'
    else if String.eqb k' k then Some v else own o k'.
Proof.
  unfold assign. destruct (String.eqb k "__proto__"); [reflexivity | apply own_put].
Qed.

Lemma NoDup_assign o k v : NoDup (map fst o) -> NoDup (map fst (assign o k v)).
Proof.
  unfold assign. destruct (String.eqb k "__proto__"); [tauto | apply NoDup_put].
Qed.

Lemma In_keys_assign o k v k' :
  In k' (map fst (assign o k v))
  <-> (k' = k /\ k <> "__proto__") \/ In k' (map fst o).
Proof.
  unfold assign. destruct (String.eqb_spec k "__proto__") as [-> | Hne].
  - split; [tauto | intros [[_ H] | H]; [congruence | assumption]].
  - rewrite In_keys_put. split; [intros [-> | H]; tauto | tauto].
Qed.

(** [Object.entries] is a rearrangement of the own properties. *)
Lemma insertIndex_perm (p : string * V) (l : list (string * V)) :
  Permutation (insertIndex p l) (p :: l).
Proof.
  induction l as [| q l IH]; cbn [insertIndex]; [reflexivity |].
  destruct (indexOf p <=? indexOf q)%N; [reflexivity |].
  rewrite IH. apply perm_swap.
Qed.

Lemma sortIndex_perm (l : list (string * V)) :
  Permutation (fold_right insertIndex [] l) l.
Proof.
  induction l as [| p l IH]; cbn [fold_right]; [reflexivity |].
  rewrite insertIndex_perm. now constructor.
Qed.

Lemma filter_split_perm {A} (f : A -> bool) (l : list A) :
  Permutation (filter f l ++ filter (fun a => negb (f a)) l) l.
Proof.
  induction l as [| a l IH]; cbn [filter]; [reflexivity |].
  destruct (f a); cbn [negb app].
  - now constructor.
  - rewrite <- Permutation_middle. now constructor.
Qed.

Lemma entries_perm o : Permutation (entries o) o.
Proof.
  unfold entries. rewrite sortIndex_perm. apply filter_split_perm.
Qed.

Lemma In_entries o kv : In kv (entries o) <-> In kv o.
Proof.
  split; apply Permutation_in; [| symmetry]; apply entries_perm.
Qed.

Lemma In_keys o k : In k (keys o) <-> In k (map fst o).
Proof.
  unfold keys. split; apply Permutation_in; apply Permutation_map;
    [| symmetry]; apply entries_perm.
Qed.

Lemma NoDup_entries o : NoDup (map fst o) -> NoDup (map fst (entries o)).
Proof.
  apply Permutation_NoDup. apply Permutation_map. symmetry. apply entries_perm.
Qed.

Lemma entries_no_index o :
  Forall (fun p => isIndex p = false) o -> entries o = o.
Proof.
  intros H. unfold entries.
  assert (Hboth : filter isIndex o = []
                  /\ filter (fun p => negb (isIndex p)) o = o).
  { induction H as [| p l Hp _ [IH1 IH2]]; cbn [filter]; [now split |].
    rewrite Hp. cbn [negb]. split; [exact IH1 | now f_equal]. }
  destruct Hboth as [Hidx Hrest]. now rewrite Hidx, Hrest.
Qed.

End ObjectFacts.

(** ** Frequency tables *)

Section Tally.

Lemma prototypeName_false (k : string) :
  prototypeName k = false <-> k <> "constructor" /\ k <> "__proto__".
Proof.
  unfold prototypeName. rewrite orb_false_iff.
  now rewrite !(String.eqb_neq).
Qed.

Lemma NoDup_tally (o : jsobject value) (xs : list string) :
  NoDup (map fst o) -> NoDup (map fst (tally o xs)).
Proof.
  unfold tally. revert o. induction xs as [| x xs IH]; intros o Hnd; cbn [fold_left].
  - exact Hnd.
  - apply IH. now apply NoDup_assign.
Qed.

Lemma In_keys_tally (o : jsobject value) (xs : list string) (k : string) :
  In k (map fst (tally o xs))
  <-> In k (map fst o) \/ (In k xs /\ k <> "__proto__").
Proof.
  unfold tally. revert o. induction xs as [| x xs IH]; intros o; cbn [fold_left In].
  - tauto.
  - rewrite IH, In_keys_assign. split.
    + intros [[[-> Hne] | H] | [H1 H2]]; tauto.
    + intros [H | [[-> | H1] H2]]; tauto.
Qed.

Lemma keys_tally_present (o : jsobject value) (xs : list string) :
  Forall (fun x => In x (map fst o)) xs -> map fst (tally o xs) = map fst o.
Proof.
  unfold tally. revert o. induction xs as [| x xs IH]; intros o Hxs; cbn [fold_left].
  - reflexivity.
  - inversion Hxs as [| ? ? Hx Hxs']; subst.
    assert (Hkeys : map fst (assign o x (bump o x)) = map fst o).
    { unfold assign. destruct (String.eqb x "__proto__"); [reflexivity |].
      now apply keys_put_old. }
    rewrite IH; [exact Hkeys |]. now rewrite Hkeys.
Qed.

Lemma own_tally_plain (o : jsobject value) (xs : list string) (k : string) :
  prototypeName k = false ->
  (forall s, own o k <> Some (VText s)) ->
  own (tally o xs) k = addCount (own o k) (count_occ string_dec xs k).
Proof.
  intros Hplain. apply prototypeName_false in Hplain. destruct Hplain as [Hc Hp].
  unfold tally. revert o. induction xs as [| x xs IH]; intros o Hcell.
  - cbn [fold_left count_occ]. destruct (own o k) as [[n | s] |]; cbn [addCount].
    + now rewrite Nat.add_0_r.
    + reflexivity.
    + reflexivity.
  - cbn [fold_left count_occ].
    assert (Hstep : own (assign o x (bump o x)) k
                    = if string_dec x k then Some (bump o k) else own o k).
    { rewrite own_assign. destruct (string_dec x k) as [-> | Hne].
      - apply String.eqb_neq in Hp. rewrite Hp. now rewrite String.eqb_refl.
      - destruct (String.eqb x "__proto__"); [reflexivity |].
        destruct (String.eqb_spec k x); [congruence | reflexivity]. }
    rewrite IH.
    + rewrite Hstep. destruct (string_dec x k) as [-> | Hne]; [| reflexivity].
      unfold bump. destruct (own o k) as [[n | s] |] eqn:Hown.
      * cbn [addCount]. do 2 f_equal. lia.
      * exfalso. now apply (Hcell s).
      * apply String.eqb_neq in Hc, Hp. rewrite Hc, Hp. cbn [addCount].
        destruct (count_occ string_dec xs k); do 2 f_equal; lia.
    + intros s. rewrite Hstep. destruct (string_dec x k) as [-> | Hne]; [| apply Hcell].
      unfold bump. destruct (own o k) as [[n | s'] |] eqn:Hown.
      * discriminate.
      * exfalso. now apply (Hcell s').
      * apply String.eqb_neq in Hc, Hp. rewrite Hc, Hp. discriminate.
Qed.

(** The entries of a table that counted [xs], when no element of [xs] is a
    property name of [Object.prototype]: one entry for each distinct element,
    with the number of its occurrences. *)
Lemma entries_tally (xs : list string) :
  Forall (fun x => prototypeName x = false) xs ->
  NoDup (map fst (entries (tally [] xs)))
  /\ (forall k v, In (k, v) (entries (tally [] xs))
                  <-> In k xs /\ v = VNum (count_occ string_dec xs k)).
Proof.
  intros Hplain.
  assert (Hnd : NoDup (map fst (tally [] xs))) by (apply NoDup_tally; constructor).
  split; [now apply NoDup_entries |].
  intros k v. rewrite In_entries, <- (own_In _ _ _ Hnd). split.
  - intros Hown.
    assert (Hin : In k xs).
    { assert (Hk : In k (map fst (tally [] xs))).
      { destruct (in_dec string_dec k (map fst (tally [] xs))) as [H | H]; [exact H |].
        apply own_None in H. congruence. }
      apply In_keys_tally in Hk. cbn [map In] in Hk. tauto. }
    split; [exact Hin |].
    rewrite own_tally_plain in Hown.
    + cbn [own addCount] in Hown.
      destruct (count_occ string_dec xs k); [discriminate | congruence].
    + exact (proj1 (Forall_forall _ _) Hplain k Hin).
    + discriminate.
  - intros [Hin ->]. rewrite own_tally_plain.
    + cbn [own addCount].
      apply (count_occ_In string_dec) in Hin.
      destruct (count_occ string_dec xs k); [lia | reflexivity].
    + exact (proj1 (Forall_forall _ _) Hplain k Hin).
    + discriminate.
Qed.

End Tally.

(** ** Sorting by count and cutting *)

Section Top.

Let descending (a b : string * value) : Prop := countOf (snd b) <= countOf (snd a).

Lemma Forall_perm {A} (P : A -> Prop) (l l' : list A) :
  Permutation l l' -> Forall P l -> Forall P l'.
Proof.
  intros Hperm H. apply Forall_forall. intros x Hx.
  apply (proj1 (Forall_forall _ _) H).
  exact (Permutation_in x (Permutation_sym Hperm) Hx).
Qed.

Lemma firstn_incl {A} (n : nat) (l : list A) (x : A) :
  In x (firstn n l) -> In x l.
Proof.
  intros H. rewrite <- (firstn_skipn n l). apply in_or_app. now left.
Qed.

Lemma insertSorted_perm (a : string * value) (l : list (string * value)) :
  Permutation (insertSorted a l) (a :: l).
Proof.
  induction l as [| b l IH]; cbn [insertSorted]; [reflexivity |].
  destruct (keepsOrder a b); [reflexivity |].
  rewrite IH. apply perm_swap.
Qed.

Lemma sortByCount_perm (l : list (string * value)) :
  Permutation (sortByCount l) l.
Proof.
  unfold sortByCount. induction l as [| a l IH]; cbn [fold_right]; [reflexivity |].
  rewrite insertSorted_perm. now constructor.
Qed.

Lemma keepsOrder_numeric (a b : string * value) :
  (exists n, snd a = VNum n) -> (exists n, snd b = VNum n) ->
  keepsOrder a b = true <-> descending a b.
Proof.
  intros [x Hx] [y Hy]. unfold keepsOrder, compareFn, descending.
  rewrite Hx, Hy. cbn [countOf]. rewrite Z.leb_le. lia.
Qed.

Lemma insertSorted_sorted (a : string * value) (l : list (string * value)) :
  numeric (a :: l) -> StronglySorted descending l ->
  StronglySorted descending (insertSorted a l).
Proof.
  intros Hnum Hs. induction Hs as [| b l Hs IH Hb]; cbn [insertSorted].
  - repeat constructor.
  - inversion Hnum as [| ? ? Ha Hbl]; subst.
    inversion Hbl as [| ? ? Hbn Hl]; subst.
    destruct (keepsOrder a b) eqn:Hk.
    + apply (keepsOrder_numeric a b Ha Hbn) in Hk.
      constructor; [now constructor |].
      constructor; [exact Hk |].
      eapply Forall_impl; [| exact Hb]. unfold descending in *. intros c Hc. lia.
    + assert (Hba : descending b a).
      { destruct (Nat.le_gt_cases (countOf (snd b)) (countOf (snd a))) as [Hle | Hgt].
        - apply (keepsOrder_numeric a b Ha Hbn) in Hle. congruence.
        - unfold descending. lia. }
      constructor.
      * apply IH. now constructor.
      * apply (Forall_perm _ (a :: l)); [symmetry; apply insertSorted_perm |].
        now constructor.
Qed.

Lemma sortByCount_sorted (l : list (string * value)) :
  numeric l -> StronglySorted descending (sortByCount l).
Proof.
  unfold sortByCount. induction l as [| a l IH]; intros Hnum; cbn [fold_right].
  - constructor.
  - inversion Hnum as [| ? ? Ha Hl]; subst.
    apply insertSorted_sorted; [| now apply IH].
    constructor; [exact Ha |].
    apply (Forall_perm _ l); [symmetry; apply sortByCount_perm | exact Hl].
Qed.

Lemma sorted_firstn {A} (R : A -> A -> Prop) (l : list A) (n : nat) :
  StronglySorted R l -> StronglySorted R (firstn n l).
Proof.
  intros Hs. revert n. induction Hs as [| a l Hs IH Ha]; intros [| n]; cbn [firstn];
    try constructor.
  - apply IH.
  - apply Forall_forall. intros x Hx. apply firstn_incl in Hx.
    exact (proj1 (Forall_forall _ _) Ha x Hx).
Qed.

Lemma sorted_firstn_skipn {A} (R : A -> A -> Prop) (l : list A) (n : nat) (x y : A) :
  StronglySorted R l -> In x (firstn n l) -> In y (skipn n l) -> R x y.
Proof.
  intros Hs. revert n. induction Hs as [| a l Hs IH Ha]; intros [| n];
    cbn [firstn skipn In]; try tauto.
  intros [<- | Hx] Hy.
  - apply (proj1 (Forall_forall _ _) Ha).
    rewrite <- (firstn_skipn n l). apply in_or_app. now right.
  - now apply (IH n).
Qed.

Lemma NoDup_firstn {A} (l : list A) (n : nat) : NoDup l -> NoDup (firstn n l).
Proof.
  intros Hnd. rewrite <- (firstn_skipn n l) in Hnd.
  now apply NoDup_app_remove_r in Hnd.
Qed.

Lemma fold_assign_fresh {V} (l acc : jsobject V) :
  NoDup (map fst (acc ++ l)) -> ~ In "__proto__" (map fst l) ->
  fold_left (fun obj kv => assign obj (fst kv) (snd kv)) l acc = acc ++ l.
Proof.
  revert acc. induction l as [| [k v] l IH]; intros acc Hnd Hproto; cbn [fold_left].
  - now rewrite app_nil_r.
  - cbn [fst snd]. cbn [map fst In] in Hproto.
    assert (Hfresh : ~ In k (map fst acc)).
    { rewrite map_app in Hnd. cbn [map fst] in Hnd.
      apply NoDup_remove_2 in Hnd. intros H. apply Hnd. apply in_or_app. now left. }
    unfold assign. destruct (String.eqb_spec k "__proto__") as [-> | Hne]; [tauto |].
    rewrite (put_new acc k v Hfresh). rewrite IH.
    + now rewrite <- app_assoc.
    + now rewrite <- app_assoc.
    + tauto.
Qed.

Lemma fromEntries_id (l : list (string * value)) :
  NoDup (map fst l) -> ~ In "__proto__" (map fst l) -> fromEntries l = l.
Proof.
  intros Hnd Hproto. unfold fromEntries. now rewrite fold_assign_fresh.
Qed.

(** Sorting by count, cutting at [n] and rebuilding an object gives the [n]
    entries with the largest counts, when every cell holds a count. *)
Lemma top_TopByCount (n : nat) (l : list (string * value)) :
  NoDup (map fst l) -> ~ In "__proto__" (map fst l) -> numeric l ->
  TopByCount n l (top n l).
Proof.
  intros Hnd Hproto Hnum.
  pose proof (sortByCount_perm l) as Hperm.
  assert (Hnds : NoDup (map fst (firstn n (sortByCount l)))).
  { rewrite <- firstn_map. apply NoDup_firstn.
    apply (Permutation_NoDup (l := map fst l)); [| exact Hnd].
    apply Permutation_map. now symmetry. }
  assert (Hsub : forall kv, In kv (firstn n (sortByCount l)) -> In kv l).
  { intros kv Hkv. apply firstn_incl in Hkv. now apply (Permutation_in _ Hperm). }
  assert (Htop : top n l = firstn n (sortByCount l)).
  { unfold top. apply fromEntries_id; [exact Hnds |].
    intros Hin. apply Hproto. apply in_map_iff in Hin. destruct Hin as [kv [Hk Hkv]].
    apply in_map_iff. exists kv. split; [exact Hk | now apply Hsub]. }
  rewrite Htop. constructor.
  - exact Hsub.
  - exact Hnds.
  - rewrite length_firstn. now rewrite (Permutation_length Hperm).
  - apply sorted_firstn. now apply sortByCount_sorted.
  - intros kv kv' Hin Hin' Hout.
    apply (sorted_firstn_skipn descending (sortByCount l) n kv kv');
      [now apply sortByCount_sorted | exact Hin |].
    apply (Permutation_in _ (Permutation_sym Hperm)) in Hin'.
    rewrite <- (firstn_skipn n (sortByCount l)) in Hin'.
    apply in_app_or in Hin'. tauto.
Qed.

End Top.

(** ** Themes *)

Section Themes.

Lemma prefix_spec (w s : string) :
  prefix w s = true <-> exists b, s = (w ++ b)%string.
Proof.
  revert s. induction w as [| a w IH]; intros s.
  - split; [intros _; now exists s | intros _; now destruct s].
  - destruct s as [| a' s]; cbn [prefix].
    + split; [discriminate | intros [b Hb]; discriminate].
    + destruct (ascii_dec a a') as [-> | Hne].
      * rewrite IH. split; intros [b Hb]; exists b.
        -- cbn. now rewrite Hb.
        -- cbn in Hb. now injection Hb.
      * split; [discriminate |]. intros [b Hb]. cbn in Hb. congruence.
Qed.

Lemma strIncludes_spec (s w : string) :
  strIncludes s w = true <-> Substring w s.
Proof.
  unfold Substring. induction s as [| a s IH]; cbn [strIncludes].
  - rewrite orb_false_r, prefix_spec. split.
    + intros [b Hb]. now exists EmptyString, b.
    + intros [x [b Hb]]. destruct x; [now exists b | discriminate].
  - rewrite orb_true_iff, prefix_spec, IH. split.
    + intros [[b Hb] | [x [b Hb]]].
      * now exists EmptyString, b.
      * exists (String a x), b. cbn. now rewrite Hb.
    + intros [x [b Hb]]. destruct x as [| a' x].
      * left. now exists b.
      * right. exists x, b. cbn in Hb. now injection Hb.
Qed.

Lemma hasTheme_spec (trigger : list string) (freq : jsobject value) :
  hasTheme trigger freq = true
  <-> exists kw w, In kw (keys freq) /\ In w trigger /\ Substring w kw.
Proof.
  unfold hasTheme. rewrite existsb_exists. split.
  - intros [w [Hw Hex]]. apply existsb_exists in Hex. destruct Hex as [kw [Hkw Hinc]].
    exists kw, w. now rewrite <- strIncludes_spec.
  - intros [kw [w [Hkw [Hw Hsub]]]]. exists w. split; [exact Hw |].
    apply existsb_exists. exists kw. now rewrite strIncludes_spec.
Qed.

Lemma commonThemes_names (freq : jsobject value) :
  (In "Stability Issues" (map theme (commonThemes freq))
   <-> hasTheme bugKeywords freq = true)
  /\ (In "Pricing Concerns" (map theme (commonThemes freq))
      <-> hasTheme pricingKeywords freq = true)
  /\ (In "User Experience" (map theme (commonThemes freq))
      <-> hasTheme uxKeywords freq = true).
Proof.
  unfold commonThemes.
  destruct (hasTheme bugKeywords freq), (hasTheme pricingKeywords freq),
    (hasTheme uxKeywords freq); cbn;
    repeat split; intros; try tauto; try discriminate;
    repeat match goal with
           | H : _ \/ _ |- _ => destruct H
           | H : False |- _ => destruct H
           | H : _ = _ |- _ => discriminate H
           end.
Qed.

Lemma In_allKeywords (pf : platform) (reviews : list review) (k : string) :
  In k (allKeywords (processReviews pf reviews))
  <-> exists r, In r reviews /\ In k (extractKeywords (text r)).
Proof.
  unfold allKeywords, processReviews. rewrite in_flat_map. split.
  - intros [q [Hq Hk]]. apply in_map_iff in Hq. destruct Hq as [r [<- Hr]].
    exists r. split; [exact Hr |]. now destruct pf.
  - intros [r [Hr Hk]]. exists (processReview pf r).
    split; [now apply in_map |]. now destruct pf.
Qed.

Lemma In_keys_keywordFrequency (pf : platform) (reviews : list review) (k : string) :
  In k (keys (keywordFrequency (processReviews pf reviews)))
  <-> k <> "__proto__" /\ exists r, In r reviews /\ In k (extractKeywords (text r)).
Proof.
  unfold keywordFrequency. rewrite In_keys, In_keys_tally, In_allKeywords.
  cbn [map In]. tauto.
Qed.

Lemma mentions_keyword (word : string) (r : review) :
  retained word = true -> mentions word r -> In word (extractKeywords (text r)).
Proof.
  intros Hret [t [Ht Hin]]. rewrite Ht, extractKeywords_filter.
  apply filter_In. now split.
Qed.

End Themes.

(** C8 as stated fails for the keyword frequency table of the report, which
    is the table cut to its 20 most frequent keywords: with 21 keywords of
    one occurrence each, "crash" the last of them, a review has the word
    "crash", the reported table does not hold "crash" and none of its keys
    contains a term of the trigger list, and "Stability Issues" is in the
    theme list all the same. *)
Lemma stability_theme_beyond_reported_table :
  let r := mkReview ("aaaa bbbb cccc dddd eeee ffff gggg hhhh iiii jjjj "
                     ++ "kkkk llll mmmm nnnn oooo pppp qqqq rrrr ssss tttt crash") 3 0 in
  let a := analysisOf (analyzeReviews (utc 0) android [r]) in
  mentions "crash" r
  /\ List.length (keys (a_keywordFrequency a)) = 20
  /\ ~ In "crash" (keys (a_keywordFrequency a))
  /\ ~ (exists kw w, In kw (keys (a_keywordFrequency a))
                     /\ In w bugKeywords /\ Substring w kw)
  /\ In "Stability Issues" (map theme (a_commonThemes a)).
Proof.
  cbv zeta. split; [| split; [| split; [| split]]].
  - eexists. split; [reflexivity |]. vm_compute. auto 30.
  - vm_compute. reflexivity.
  - vm_compute. intuition discriminate.
  - rewrite <- hasTheme_spec. vm_compute. discriminate.
  - vm_compute. auto.
Qed.

(** C8, amended. A theme is in the theme list exactly when some key of the
    full keyword frequency table, the table of all keywords that theme
    detection reads before the table is cut to its 20 most frequent keywords
    for the report, contains, as a substring, some term of the theme's
    trigger list; the keys of the full table are the keywords observed in
    the reviews (all but [__proto__], which never becomes a key).  In
    particular, when some review has the word "crash" among the tokens of
    its text, "crash" is a key of the full table and the theme list includes
    "Stability Issues", whether "crash" is in the reported table or not. *)
Theorem themes_fire_on_substring (c : clock) (pf : platform) (reviews : list review) :
  let freq := keywordFrequency (processReviews pf reviews) in
  let themes := map theme (a_commonThemes (analysisOf (analyzeReviews c pf reviews))) in
  let fires trigger :=
    exists kw w, In kw (keys freq) /\ In w trigger /\ Substring w kw in
  (In "Stability Issues" themes <-> fires bugKeywords)
  /\ (In "Pricing Concerns" themes <-> fires pricingKeywords)
  /\ (In "User Experience" themes <-> fires uxKeywords)
  /\ (forall kw, In kw (keys freq)
                 <-> kw <> "__proto__"
                     /\ exists r, In r reviews /\ In kw (extractKeywords (text r)))
  /\ ((exists r, In r reviews /\ mentions "crash" r) ->
      In "crash" (keys freq) /\ In "Stability Issues" themes).
Proof.
  cbv zeta. cbn [analyzeReviews analysisOf a_commonThemes].
  set (freq := keywordFrequency (processReviews pf reviews)).
  destruct (commonThemes_names freq) as [Hbug [Hprice Hux]].
  rewrite Hbug, Hprice, Hux, !hasTheme_spec.
  split; [reflexivity |]. split; [reflexivity |]. split; [reflexivity |].
  split; [intros kw; apply In_keys_keywordFrequency |].
  intros [r [Hr Hcrash]].
  assert (Hkey : In "crash" (keys freq)).
  { apply In_keys_keywordFrequency. split; [discriminate |].
    exists r. split; [exact Hr |]. now apply mentions_keyword. }
  split; [exact Hkey |].
  exists "crash", "crash". split; [exact Hkey |]. split; [cbn; tauto |].
  now exists EmptyString, EmptyString.
Qed.

Lemma themes_fire_on_substring_witness :
  In "crash" (keys (keywordFrequency
                      (processReviews ios [mkReview "It keeps on CRASH-ing" 2 5])))
  /\ In "Stability Issues"
        (map theme (a_commonThemes
                      (analysisOf (analyzeReviews (utc 9) ios
                                     [mkReview "It keeps on CRASH-ing" 2 5])))).
Proof.
  apply (themes_fire_on_substring (utc 9) ios [mkReview "It keeps on CRASH-ing" 2 5]).
  exists (mkReview "It keeps on CRASH-ing" 2 5). split; [now left |].
  exists (ofString "It keeps on CRASH-ing"). split; [reflexivity |].
  vm_compute. tauto.
Defined.

(** ** Top keyword tables *)

Section TopTables.

Lemma sentiment_eqb_eq (a b : sentiment) : sentiment_eqb a b = true <-> a = b.
Proof. destruct a, b; cbn; split; intros H; (reflexivity || discriminate H). Qed.

Lemma allKeywords_processReviews (pf : platform) (reviews : list review) :
  allKeywords (processReviews pf reviews)
  = flat_map (fun r => extractKeywords (text r)) reviews.
Proof.
  unfold allKeywords, processReviews.
  induction reviews as [| r l IH]; [reflexivity |].
  cbn [map flat_map]. rewrite IH. now destruct pf.
Qed.

Lemma plainKeywords_Forall (reviews : list review) :
  plainKeywords reviews = true ->
  Forall (fun x => prototypeName x = false)
         (flat_map (fun r => extractKeywords (text r)) reviews).
Proof.
  unfold plainKeywords. intros H. apply Forall_forall. intros k Hk.
  apply in_flat_map in Hk. destruct Hk as [r [Hr Hk]].
  rewrite forallb_forall in H. specialize (H r Hr).
  rewrite forallb_forall in H. specialize (H k Hk).
  now apply negb_true_iff in H.
Qed.

Lemma mentionedWith_spec (s : sentiment) (pf : platform) (reviews : list review)
    (kv : string * value) :
  mentionedWith s (processReviews pf reviews) kv = true
  <-> qualifies s reviews (fst kv).
Proof.
  unfold mentionedWith, qualifies, processReviews. rewrite existsb_exists. split.
  - intros [q [Hq Hboth]]. apply in_map_iff in Hq. destruct Hq as [r [<- Hr]].
    apply andb_true_iff in Hboth. destruct Hboth as [Hs Hk].
    apply sentiment_eqb_eq in Hs. apply includes_In in Hk.
    exists r. destruct pf; cbn in Hs, Hk; tauto.
  - intros [r [Hr [Hs Hk]]]. exists (processReview pf r).
    split; [now apply in_map |].
    apply andb_true_iff. rewrite sentiment_eqb_eq, includes_In.
    destruct pf; cbn; tauto.
Qed.

Lemma NoDup_keys_filter {V} (f : string * V -> bool) (l : list (string * V)) :
  NoDup (map fst l) -> NoDup (map fst (filter f l)).
Proof.
  induction l as [| kv l IH]; cbn [map filter]; intros Hnd; [constructor |].
  inversion Hnd as [| ? ? Hnin Hnd']; subst.
  destruct (f kv); cbn [map]; [| now apply IH].
  constructor; [| now apply IH].
  intros Hin. apply Hnin. apply in_map_iff in Hin. destruct Hin as [x [Hx Hin]].
  apply filter_In in Hin. apply in_map_iff. exists x. tauto.
Qed.

(** The top [n] of any selection of the entries of a frequency table. *)
Lemma top_of_counts (n : nat) (xs : list string) (l : list (string * value)) :
  Forall (fun x => prototypeName x = false) xs ->
  (forall kv, In kv l -> In kv (entries (tally [] xs))) ->
  NoDup (map fst l) ->
  TopByCount n l (top n l).
Proof.
  intros Hplain Hsub Hnd.
  destruct (entries_tally xs Hplain) as [_ Hentries].
  apply top_TopByCount; [exact Hnd | |].
  - intros Hin. apply in_map_iff in Hin. destruct Hin as [[k v] [Hk Hkv]].
    cbn [fst] in Hk. subst k. apply Hsub, Hentries in Hkv. destruct Hkv as [Hin _].
    pose proof (proj1 (Forall_forall _ _) Hplain _ Hin) as Hp. discriminate Hp.
  - apply Forall_forall. intros [k v] Hkv. apply Hsub, Hentries in Hkv.
    cbn [snd]. destruct Hkv as [_ ->]. now eexists.
Qed.

Lemma top_sentiment_table (s : sentiment) (pf : platform) (reviews : list review) :
  plainKeywords reviews = true ->
  exists candidates,
    (forall k v, In (k, v) candidates
                 <-> qualifies s reviews k /\ v = VNum (frequency reviews k))
    /\ NoDup (map fst candidates)
    /\ TopByCount 10 candidates (topSentimentKeywords s (processReviews pf reviews)).
Proof.
  intros Hplain. apply plainKeywords_Forall in Hplain.
  set (prs := processReviews pf reviews).
  exists (filter (mentionedWith s prs) (entries (keywordFrequency prs))).
  unfold keywordFrequency, prs. rewrite allKeywords_processReviews.
  destruct (entries_tally _ Hplain) as [Hnd Hentries].
  split; [| split].
  - intros k v. rewrite filter_In, Hentries, mentionedWith_spec. cbn [fst].
    unfold frequency. split; [tauto |]. intros [Hq ->]. split; [| exact Hq].
    split; [| reflexivity]. destruct Hq as [r [Hr [_ Hk]]].
    apply in_flat_map. now exists r.
  - now apply NoDup_keys_filter.
  - unfold topSentimentKeywords, keywordFrequency. rewrite allKeywords_processReviews.
    apply (top_of_counts 10 _ _ Hplain).
    + intros kv Hkv. now apply filter_In in Hkv.
    + now apply NoDup_keys_filter.
Qed.

End TopTables.

(** C3 as stated fails: a keyword of a positive and of a negative review is
    left out of the top positive table when ten keywords of positive reviews
    are more frequent. *)
Lemma top_positive_table_is_cut :
  let filler := mkReview "good aaaa bbbb cccc dddd eeee ffff gggg hhhh iiii jjjj" 5 0 in
  let reviews := [filler; filler; filler; mkReview "Great xxxx" 5 0;
                  mkReview "Terrible xxxx" 1 0] in
  let tables := analysisOf (analyzeReviews (utc 0) android reviews) in
  qualifies positive reviews "xxxx"
  /\ qualifies negative reviews "xxxx"
  /\ own (a_topNegativeKeywords tables) "xxxx" = Some (VNum 2)
  /\ own (a_topPositiveKeywords tables) "xxxx" = None.
Proof.
  cbv zeta. split; [| split; [| split; vm_compute; reflexivity]].
  - exists (mkReview "Great xxxx" 5 0). vm_compute. tauto.
  - exists (mkReview "Terrible xxxx" 1 0). vm_compute. tauto.
Qed.

(** C3, amended. When no keyword is a property name of [Object.prototype]
    ([constructor], [__proto__]): the top positive (resp. top negative) table
    holds the 10 entries with the largest counts, created in descending
    order of count, among the candidates; the candidates are the keywords
    that occur in at least one review classified exactly positive (resp.
    negative), each with its frequency over all reviews.  So a keyword of a
    positive and of a negative review is a candidate of both tables, and is
    in each table unless 10 other candidates of that table precede it; a
    review classified somewhat positive or somewhat negative makes no
    keyword a candidate. *)
Theorem top_sentiment_keywords_by_global_frequency
    (c : clock) (pf : platform) (reviews : list review) :
  plainKeywords reviews = true ->
  let tables := analysisOf (analyzeReviews c pf reviews) in
  exists candidatesPositive candidatesNegative,
    (forall k v, In (k, v) candidatesPositive
                 <-> qualifies positive reviews k /\ v = VNum (frequency reviews k))
    /\ (forall k v, In (k, v) candidatesNegative
                    <-> qualifies negative reviews k /\ v = VNum (frequency reviews k))
    /\ NoDup (map fst candidatesPositive)
    /\ NoDup (map fst candidatesNegative)
    /\ TopByCount 10 candidatesPositive (a_topPositiveKeywords tables)
    /\ TopByCount 10 candidatesNegative (a_topNegativeKeywords tables).
Proof.
  intros Hplain. cbv zeta.
  cbn [analyzeReviews analysisOf a_topPositiveKeywords a_topNegativeKeywords].
  destruct (top_sentiment_table positive pf reviews Hplain) as [cp [Hp1 [Hp2 Hp3]]].
  destruct (top_sentiment_table negative pf reviews Hplain) as [cn [Hn1 [Hn2 Hn3]]].
  exists cp, cn. exact (conj Hp1 (conj Hn1 (conj Hp2 (conj Hn2 (conj Hp3 Hn3))))).
Qed.

Lemma top_sentiment_keywords_by_global_frequency_witness :
  let reviews := [mkReview "Great design, love it" 5 0;
                  mkReview "Terrible design, crashes" 1 0] in
  let tables := analysisOf (analyzeReviews (utc 0) android reviews) in
  exists candidatesPositive candidatesNegative,
    (forall k v, In (k, v) candidatesPositive
                 <-> qualifies positive reviews k /\ v = VNum (frequency reviews k))
    /\ (forall k v, In (k, v) candidatesNegative
                    <-> qualifies negative reviews k /\ v = VNum (frequency reviews k))
    /\ NoDup (map fst candidatesPositive)
    /\ NoDup (map fst candidatesNegative)
    /\ TopByCount 10 candidatesPositive (a_topPositiveKeywords tables)
    /\ TopByCount 10 candidatesNegative (a_topNegativeKeywords tables).
Proof.
  apply (top_sentiment_keywords_by_global_frequency (utc 0) android
           [mkReview "Great design, love it" 5 0;
            mkReview "Terrible design, crashes" 1 0]).
  reflexivity.
Defined.

(** What the hypothesis [plainKeywords] of C3 and C7 keeps out: a table is a
    plain object, and the first read of the cell of the keyword
    [constructor] finds the function [Object] of the prototype, so the cell
    becomes a string and no count; the keyword [__proto__] never gets a
    cell. *)
Example keywordFrequency_prototype_names :
  let reviews := [mkReview "Great constructor game, great constructor" 5 0;
                  mkReview "Love the __proto__ level" 5 0] in
  frequency reviews "constructor" = 2
  /\ frequency reviews "__proto__" = 1
  /\ a_topPositiveKeywords (analysisOf (analyzeReviews (utc 0) android reviews))
     = [("great", VNum 2);
        ("constructor", VText "function Object() { [native code] }11");
        ("game", VNum 1); ("love", VNum 1); ("level", VNum 1)].
Proof. vm_compute. repeat split. Qed.

(** ** Recent issues *)

Section Recent.

Lemma In_recentNegativeReviews (c : clock) (prs : list processedReview)
    (q : processedReview) :
  In q (recentNegativeReviews c prs)
  <-> In q prs
      /\ (exists t, p_date q = Some t /\ (oneWeekAgo c <= t)%Z)
      /\ (p_sentiment q = negative \/ p_sentiment q = somewhat_negative).
Proof.
  unfold recentNegativeReviews. rewrite filter_In, andb_true_iff, orb_true_iff.
  rewrite !sentiment_eqb_eq. unfold notBefore.
  destruct (p_date q) as [t |].
  - rewrite Z.leb_le. split.
    + intros [Hin [Ht Hs]]. split; [exact Hin |]. split; [now exists t | exact Hs].
    + intros [Hin [[t' [[= <-] Ht]] Hs]]. tauto.
  - split; [intros [_ [H _]]; discriminate |].
    intros [_ [[t [H _]] _]]. discriminate.
Qed.

Lemma oneWeekAgo_offsets (c : clock) :
  (oneWeekAgo c
   = now c - 7 * msPerDay
     + (localTZA c (now c) true
        - localTZA c (now c + localTZA c (now c) true - 7 * msPerDay) false))%Z.
Proof. unfold oneWeekAgo. lia. Qed.

Lemma oneWeekAgo_bounds (c : clock) :
  (forall t b, - msPerDay < localTZA c t b < msPerDay)%Z ->
  (now c - 9 * msPerDay < oneWeekAgo c < now c - 5 * msPerDay)%Z.
Proof.
  intros Htz. rewrite oneWeekAgo_offsets.
  pose proof (Htz (now c) true) as H1.
  pose proof (Htz (now c + localTZA c (now c) true - 7 * msPerDay)%Z false) as H2.
  lia.
Qed.

Lemma kept_keywords_plain (c : clock) (pf : platform) (reviews : list review) :
  plainKeywords reviews = true ->
  Forall (fun x => prototypeName x = false)
         (flat_map p_keywords (recentNegativeReviews c (processReviews pf reviews))).
Proof.
  intros Hplain. apply plainKeywords_Forall in Hplain.
  rewrite <- (allKeywords_processReviews pf) in Hplain.
  apply Forall_forall. intros k Hk.
  apply (proj1 (Forall_forall _ _) Hplain).
  apply in_flat_map in Hk. destruct Hk as [q [Hq Hk]].
  apply in_flat_map. exists q. split; [| exact Hk].
  unfold recentNegativeReviews in Hq. now apply filter_In in Hq.
Qed.

End Recent.

(** C7 as stated fails: a negative review dated after the processing time is
    not within the 7 days before it, and is kept all the same. *)
Lemma recent_issues_keep_later_reviews :
  let c := utc 1000000000000 in
  let r := mkReview "Terrible crash" 1 (1000000000000 + msPerDay) in
  ~ (now c - 7 * msPerDay <= 1000000000000 + msPerDay <= now c)%Z
  /\ recentNegativeReviews c (processReviews android [r]) = processReviews android [r]
  /\ a_recentIssues (analysisOf (analyzeReviews c android [r]))
     = [("terrible", VNum 1); ("crash", VNum 1)].
Proof.
  cbv zeta. split; [cbn; unfold msPerDay; lia |].
  split; vm_compute; reflexivity.
Qed.

(** C7, amended. The reviews kept for the recent issues are exactly those
    whose date is valid and not earlier than [oneWeekAgo] (there is no upper
    limit) and whose sentiment is negative or somewhat negative;
    [oneWeekAgo] is the processing time moved back 7 calendar days of local
    time, that is 7 days of 24 hours corrected by the difference of the two
    offsets of local time, hence between 9 and 5 days back when an offset is
    less than a day.  When no keyword is a property name of
    [Object.prototype], the table holds the 10 entries with the largest
    counts, created in descending order of count, among the keywords of the
    kept reviews with their numbers of occurrences in the kept reviews.  A
    review dated 9 days or more before the processing time (so one dated 10
    days before) is not kept, and a negative or somewhat negative review
    dated at most 5 days before it (so one dated 2 days before) is kept. *)
Theorem recent_issues_from_last_week
    (c : clock) (pf : platform) (reviews : list review) :
  plainKeywords reviews = true ->
  (forall t b, - msPerDay < localTZA c t b < msPerDay)%Z ->
  let prs := processReviews pf reviews in
  let kept := recentNegativeReviews c prs in
  let issues := flat_map p_keywords kept in
  (forall q, In q kept
             <-> In q prs
                 /\ (exists t, p_date q = Some t /\ (oneWeekAgo c <= t)%Z)
                 /\ (p_sentiment q = negative \/ p_sentiment q = somewhat_negative))
  /\ (oneWeekAgo c
      = now c - 7 * msPerDay
        + (localTZA c (now c) true
           - localTZA c (now c + localTZA c (now c) true - 7 * msPerDay) false))%Z
  /\ (now c - 9 * msPerDay < oneWeekAgo c < now c - 5 * msPerDay)%Z
  /\ (exists candidates,
         (forall k v, In (k, v) candidates
                      <-> In k issues /\ v = VNum (count_occ string_dec issues k))
         /\ NoDup (map fst candidates)
         /\ TopByCount 10 candidates
              (a_recentIssues (analysisOf (analyzeReviews c pf reviews))))
  /\ (forall q t, In q prs -> p_date q = Some t ->
                  (t <= now c - 9 * msPerDay)%Z -> ~ In q kept)
  /\ (forall q t, In q prs -> p_date q = Some t ->
                  (now c - 5 * msPerDay <= t)%Z ->
                  p_sentiment q = negative \/ p_sentiment q = somewhat_negative ->
                  In q kept).
Proof.
  intros Hplain Htz. cbv zeta.
  pose proof (oneWeekAgo_bounds c Htz) as Hbounds.
  pose proof (kept_keywords_plain c pf reviews Hplain) as Hkw.
  split; [intros q; apply In_recentNegativeReviews |].
  split; [apply oneWeekAgo_offsets |]. split; [exact Hbounds |]. split; [| split].
  - exists (entries (recentIssuesFrequency c (processReviews pf reviews))).
    unfold recentIssuesFrequency.
    destruct (entries_tally _ Hkw) as [Hnd Hentries].
    split; [exact Hentries |]. split; [exact Hnd |].
    cbn [analyzeReviews analysisOf a_recentIssues].
    unfold topRecentIssues, recentIssuesFrequency.
    apply (top_of_counts 10 _ _ Hkw); [tauto | exact Hnd].
  - intros q t Hq Hdate Ht Hin. apply In_recentNegativeReviews in Hin.
    destruct Hin as [_ [[t' [Hdate' Ht']] _]]. rewrite Hdate in Hdate'.
    injection Hdate' as <-. lia.
  - intros q t Hq Hdate Ht Hs. apply In_recentNegativeReviews.
    split; [exact Hq |]. split; [| exact Hs]. exists t. split; [exact Hdate | lia].
Qed.

Lemma recent_issues_from_last_week_witness :
  let c := {| now := 1000000000000;
              localTZA := fun t _ => if (t <? 999800000000)%Z then 3600000%Z
                                     else 7200000%Z |} in
  let reviews := [mkReview "Terrible, keeps crashing" 1 (1000000000000 - 2 * msPerDay);
                  mkReview "Worst update ever" 1 (1000000000000 - 10 * msPerDay)] in
  a_recentIssues (analysisOf (analyzeReviews c android reviews))
  = [("terrible", VNum 1); ("keeps", VNum 1); ("crashing", VNum 1)]
  /\ (now c - 9 * msPerDay < oneWeekAgo c < now c - 5 * msPerDay)%Z.
Proof.
  cbv zeta. split; [vm_compute; reflexivity |].
  refine (proj1 (proj2 (proj2
    (recent_issues_from_last_week
       {| now := 1000000000000;
          localTZA := fun t _ => if (t <? 999800000000)%Z then 3600000%Z
                                 else 7200000%Z |}
       android
       [mkReview "Terrible, keeps crashing" 1 (1000000000000 - 2 * msPerDay);
        mkReview "Worst update ever" 1 (1000000000000 - 10 * msPerDay)]
       _ _)))).
  - reflexivity.
  - intros t b. cbn [localTZA]. unfold msPerDay.
    destruct (t <? 999800000000)%Z; lia.
Defined.

(** ** The empty collection *)

(** C4 as stated fails: the rating distribution of the empty collection is
    not an empty table. *)
Lemma empty_collection_rating_distribution :
  a_ratingDistribution (analysisOf (analyzeReviews (utc 0) android [])) <> []
  /\ keys (a_ratingDistribution (analysisOf (analyzeReviews (utc 0) android [])))
     = ["1"; "2"; "3"; "4"; "5"].
Proof. split; [discriminate | reflexivity]. Qed.

(** C4, amended. For the empty collection the aggregation produces the
    degenerate report: no review analyzed, the five sentiment percentages
    present and 0 (the Number zero, not [NaN]), an empty keyword frequency
    table, the five rating buckets present with count 0, an empty theme
    list, an empty recent issues table and empty top keyword tables. *)
Theorem analyzeReviews_empty (c : clock) (pf : platform) :
  analyzeReviews c pf []
  = {| totalReviewsAnalyzed := 0;
       analysisOf :=
         {| a_sentimentBreakdown :=
              [("positive", S754_zero false); ("somewhat positive", S754_zero false);
               ("neutral", S754_zero false); ("somewhat negative", S754_zero false);
               ("negative", S754_zero false)];
            a_keywordFrequency := [];
            a_ratingDistribution := fiveBuckets 0 0 0 0 0;
            a_commonThemes := [];
            a_recentIssues := [];
            a_topPositiveKeywords := [];
            a_topNegativeKeywords := [] |} |}.
Proof. reflexivity. Qed.

(** ** Binary64 arithmetic of the percentages *)

Section Binary64.

Local Open Scope Z_scope.

Lemma digits2_pos_bounds (p : BinNums.positive) :
  2 ^ (Zpos (digits2_pos p) - 1) <= Zpos p < 2 ^ Zpos (digits2_pos p).
Proof.
  induction p as [p IH | p IH |]; cbn [digits2_pos].
  - rewrite Pos2Z.inj_succ.
    replace (Z.succ (Zpos (digits2_pos p)) - 1) with (Z.succ (Zpos (digits2_pos p) - 1)) by lia.
    rewrite !Z.pow_succ_r by lia. lia.
  - rewrite Pos2Z.inj_succ.
    replace (Z.succ (Zpos (digits2_pos p)) - 1) with (Z.succ (Zpos (digits2_pos p) - 1)) by lia.
    rewrite !Z.pow_succ_r by lia. lia.
  - cbn. lia.
Qed.

Lemma Zdigits2_bounds (m : Z) :
  0 < m -> 2 ^ (Zdigits2 m - 1) <= m < 2 ^ Zdigits2 m.
Proof.
  destruct m as [| p | p]; try lia. intros _. apply digits2_pos_bounds.
Qed.

Lemma Zdigits2_pos (m : Z) : 0 < m -> 0 < Zdigits2 m.
Proof. destruct m; cbn; lia. Qed.

Lemma Zdigits2_unique (m d : Z) :
  0 < m -> 2 ^ (d - 1) <= m < 2 ^ d -> Zdigits2 m = d.
Proof.
  intros Hm [Hlo Hhi].
  pose proof (Zdigits2_bounds m Hm) as [Hlo' Hhi'].
  pose proof (Zdigits2_pos m Hm) as Hpos.
  assert (Hd : 0 < d).
  { destruct (Z.lt_ge_cases 0 d) as [H | H]; [exact H |].
    assert (2 ^ d <= 2 ^ 0) by (apply Z.pow_le_mono_r; lia). cbn in *. lia. }
  assert (H1 : Zdigits2 m - 1 < d).
  { apply (Z.pow_lt_mono_r_iff 2); lia. }
  assert (H2 : d - 1 < Zdigits2 m).
  { apply (Z.pow_lt_mono_r_iff 2); lia. }
  lia.
Qed.

Lemma loc_of_shr_record_of_loc (m : Z) (l : location) :
  loc_of_shr_record (shr_record_of_loc m l) = l /\ shr_m (shr_record_of_loc m l) = m.
Proof. destruct l as [| []]; now split. Qed.


Lemma shr_1_spec (m : Z) (r s : bool) :
  0 <= m ->
  shr_1 {| shr_m := m; shr_r := r; shr_s := s |}
  = {| shr_m := m / 2; shr_r := Z.odd m; shr_s := r || s |}.
Proof.
  intros Hm. rewrite <- Z.div2_div.
  destruct m as [| [p | p |] |]; try reflexivity. lia.
Qed.

Lemma position_exact (r D : Z) : position r D = loc_Exact <-> r = 0.
Proof.
  unfold position. destruct (Z.eqb_spec r 0); split; intros; congruence.
Qed.

Lemma sticky_exact (m : Z) (r s : bool) (l : location) :
  loc_of_shr_record {| shr_m := m; shr_r := r; shr_s := s |} = l ->
  (r || s = false <-> l = loc_Exact).
Proof. intros <-. destruct r, s; cbn; split; intros; congruence. Qed.

Lemma shr_1_located (mrs : shr_record) (N D : Z) :
  0 <= shr_m mrs ->
  located N D (shr_m mrs) (loc_of_shr_record mrs) ->
  located N (2 * D) (shr_m (shr_1 mrs)) (loc_of_shr_record (shr_1 mrs))
  /\ shr_m (shr_1 mrs) = shr_m mrs / 2.
Proof.
  destruct mrs as [m r s]. cbn [shr_m]. intros Hm [HD [Hrange Hloc]].
  rewrite (shr_1_spec m r s Hm). cbn [shr_m]. split; [| reflexivity].
  pose proof (sticky_exact m r s _ Hloc) as Hsticky.
  rewrite position_exact in Hsticky.
  pose proof (Z.div2_odd m) as Hodd. rewrite Z.div2_div in Hodd.
  set (h := m / 2) in *. set (b := Z.odd m) in *.
  assert (Hrem : N - h * (2 * D) = (N - m * D) + Z.b2z b * D) by (rewrite Hodd; ring).
  set (rho := N - m * D) in *.
  assert (Hrho : 0 <= rho < D) by (unfold rho; lia).
  unfold located. split; [lia |]. split.
  - destruct b; cbn [Z.b2z] in Hrem; lia.
  - rewrite Hrem. unfold position. cbn [loc_of_shr_record].
    destruct b; cbn [Z.b2z]; destruct (r || s).
    + destruct (Z.eqb_spec (rho + 1 * D) 0); [lia |].
      f_equal. symmetry. apply Z.compare_gt_iff.
      assert (rho <> 0) by (intros E; apply Hsticky in E; discriminate). lia.
    + assert (rho = 0) by (now apply Hsticky).
      destruct (Z.eqb_spec (rho + 1 * D) 0); [lia |].
      f_equal. symmetry. apply Z.compare_eq_iff. lia.
    + assert (rho <> 0) by (intros E; apply Hsticky in E; discriminate).
      destruct (Z.eqb_spec (rho + 0 * D) 0); [lia |].
      f_equal. symmetry. apply Z.compare_lt_iff. lia.
    + assert (rho = 0) by (now apply Hsticky).
      destruct (Z.eqb_spec (rho + 0 * D) 0); [reflexivity | lia].
Qed.

Lemma iter_pos_located (p : BinNums.positive) (mrs : shr_record) (N D : Z) :
  0 <= shr_m mrs ->
  located N D (shr_m mrs) (loc_of_shr_record mrs) ->
  located N (2 ^ Zpos p * D) (shr_m (iter_pos shr_1 p mrs))
          (loc_of_shr_record (iter_pos shr_1 p mrs))
  /\ shr_m (iter_pos shr_1 p mrs) = shr_m mrs / 2 ^ Zpos p.
Proof.
  revert mrs D. induction p as [p IH | p IH |]; intros mrs D Hm Hloc; cbn [iter_pos].
  - destruct (shr_1_located mrs N D Hm Hloc) as [H1 E1].
    assert (Hm1 : 0 <= shr_m (shr_1 mrs)) by (rewrite E1; apply Z.div_pos; lia).
    destruct (IH _ _ Hm1 H1) as [H2 E2].
    assert (Hm2 : 0 <= shr_m (iter_pos shr_1 p (shr_1 mrs))).
    { rewrite E2. apply Z.div_pos; [lia | apply Z.pow_pos_nonneg; lia]. }
    destruct (IH _ _ Hm2 H2) as [H3 E3].
    assert (Hpow : 2 ^ Z.pos p~1 = 2 ^ Z.pos p * (2 ^ Z.pos p * 2)).
    { replace (Z.pos p~1) with (Z.pos p + (Z.pos p + 1)) by lia.
      rewrite !Z.pow_add_r by lia. now rewrite Z.pow_1_r. }
    split.
    + rewrite Hpow. replace (2 ^ Z.pos p * (2 ^ Z.pos p * 2) * D)
        with (2 ^ Z.pos p * (2 ^ Z.pos p * (2 * D))) by ring. exact H3.
    + assert (Hp : 0 < 2 ^ Z.pos p) by (apply Z.pow_pos_nonneg; lia).
      rewrite E3, E2, E1, Hpow.
      rewrite !Z.div_div by lia. f_equal. ring.
  - destruct (IH _ _ Hm Hloc) as [H2 E2].
    assert (Hm2 : 0 <= shr_m (iter_pos shr_1 p mrs)).
    { rewrite E2. apply Z.div_pos; [lia | apply Z.pow_pos_nonneg; lia]. }
    destruct (IH _ _ Hm2 H2) as [H3 E3].
    assert (Hpow : 2 ^ Z.pos p~0 = 2 ^ Z.pos p * 2 ^ Z.pos p).
    { replace (Z.pos p~0) with (Z.pos p + Z.pos p) by lia.
      apply Z.pow_add_r; lia. }
    split.
    + rewrite Hpow. now rewrite <- Z.mul_assoc.
    + assert (Hp : 0 < 2 ^ Z.pos p) by (apply Z.pow_pos_nonneg; lia).
      rewrite E3, E2, Hpow. now rewrite Z.div_div by lia.
  - change (2 ^ 1) with 2. exact (shr_1_located mrs N D Hm Hloc).
Qed.

Lemma fexp_eq (e : Z) : fexp prec emax e = Z.max (e - 53) (-1074).
Proof. reflexivity. Qed.

Lemma Zdigits2_le (m d : Z) : 0 < m -> m < 2 ^ d -> Zdigits2 m <= d.
Proof.
  intros Hm Hlt. pose proof (Zdigits2_bounds m Hm) as [Hlo _].
  pose proof (Zdigits2_pos m Hm).
  destruct (Z.le_gt_cases (Zdigits2 m) d) as [H1 | H1]; [exact H1 |].
  destruct (Z.lt_ge_cases d 0) as [Hneg | Hnn].
  - rewrite (Z.pow_neg_r 2 d Hneg) in Hlt. lia.
  - assert (2 ^ d <= 2 ^ (Zdigits2 m - 1)) by (apply Z.pow_le_mono_r; lia). lia.
Qed.

Lemma Zdigits2_ge (m d : Z) : 0 < m -> 0 <= d -> 2 ^ d <= m -> d < Zdigits2 m.
Proof.
  intros Hm Hd Hle. pose proof (Zdigits2_bounds m Hm) as [_ Hhi].
  pose proof (Zdigits2_pos m Hm).
  apply (Z.pow_lt_mono_r_iff 2); lia.
Qed.

(** The first step of rounding: the mantissa is cut to the target exponent
    and the position of the exact value is kept. *)
Lemma shr_fexp_located (mx ex : Z) (lx : location) (N D : Z) :
  0 <= mx -> located N D mx lx ->
  let k := Z.max 0 (fexp prec emax (Zdigits2 mx + ex) - ex) in
  let mrs := fst (shr_fexp prec emax mx ex lx) in
  snd (shr_fexp prec emax mx ex lx) = ex + k
  /\ located N (2 ^ k * D) (shr_m mrs) (loc_of_shr_record mrs)
  /\ shr_m mrs = mx / 2 ^ k.
Proof.
  intros Hmx Hloc. cbv zeta. unfold shr_fexp, shr.
  destruct (loc_of_shr_record_of_loc mx lx) as [Hl Hm].
  destruct (fexp prec emax (Zdigits2 mx + ex) - ex) as [| p | p] eqn:Hk; cbn [fst snd].
  - rewrite Hl, Hm. cbn [Z.max]. change (2 ^ 0) with 1.
    rewrite Z.mul_1_l, Z.div_1_r, Z.add_0_r. tauto.
  - replace (Z.max 0 (Z.pos p)) with (Z.pos p) by lia.
    split; [reflexivity |].
    destruct (iter_pos_located p (shr_record_of_loc mx lx) N D) as [H1 H2].
    + now rewrite Hm.
    + now rewrite Hl, Hm.
    + rewrite Hm in H2. tauto.
  - rewrite Hl, Hm. replace (Z.max 0 (Z.neg p)) with 0 by lia. change (2 ^ 0) with 1.
    rewrite Z.mul_1_l, Z.div_1_r, Z.add_0_r. tauto.
Qed.

Lemma round_nearest_even_located (N D m : Z) (l : location) :
  located N D m l ->
  let m' := round_nearest_even m l in
  m <= m' <= m + 1 /\ Z.abs (2 * (m' * D - N)) <= D.
Proof.
  intros [HD [Hrange Hl]]. cbv zeta. unfold position in Hl.
  destruct (Z.eqb_spec (N - m * D) 0) as [E | E]; subst l; cbn [round_nearest_even].
  - split; [lia |]. replace (m * D - N) with 0 by lia. cbn. lia.
  - destruct (Z.compare_spec (2 * (N - m * D)) D) as [Hc | Hc | Hc].
    + destruct (Z.even m); (split; [lia |]).
      * replace (2 * (m * D - N)) with (- D) by lia. rewrite Z.abs_opp. lia.
      * replace (2 * ((m + 1) * D - N)) with D by lia. lia.
    + split; [lia |]. lia.
    + split; [lia |]. lia.
Qed.

Lemma located_exact (m : Z) : located m 1 m loc_Exact.
Proof.
  unfold located, position. split; [lia |]. split; [lia |].
  replace (m - m * 1) with 0 by lia. reflexivity.
Qed.

(** Rounding to nearest, ties to even, of a positive value located by
    [mx], [lx] in units of [2^ex]: the result is finite, within half a unit
    of its exponent, and has a full mantissa when [mx] has at least 53
    digits. *)
Lemma binary_round_aux_correct (mx ex : Z) (lx : location) (N D : Z) :
  1 <= mx -> located N D mx lx -> -1074 <= ex ->
  let e1 := Z.max ex (Zdigits2 mx + ex - 53) in
  e1 < 971 ->
  exists (m3 : BinNums.positive) (e3 : Z),
    binary_round_aux prec emax false mx ex lx = S754_finite false m3 e3
    /\ e1 <= e3 <= e1 + 1
    /\ Z.abs (2 * (Zpos m3 * 2 ^ (e3 - ex) * D - N)) <= 2 ^ (e1 - ex) * D
    /\ (53 <= Zdigits2 mx -> 2 ^ 52 <= Zpos m3 < 2 ^ 53).
Proof.
  intros Hmx Hloc Hex e1 He1.
  assert (Hmx0 : 0 < mx) by lia.
  pose proof (Zdigits2_bounds mx Hmx0) as [Hdlo Hdhi].
  pose proof (Zdigits2_pos mx Hmx0) as Hdpos.
  set (d := Zdigits2 mx) in *.
  unfold binary_round_aux.
  destruct (shr_fexp_located mx ex lx N D (Z.lt_le_incl _ _ Hmx0) Hloc)
    as [Hsnd [Hloc1 Hm1]].
  fold d in Hsnd, Hloc1, Hm1. rewrite fexp_eq in Hsnd, Hloc1, Hm1.
  set (k := Z.max 0 (Z.max (d + ex - 53) (-1074) - ex)) in *.
  assert (Hk : ex + k = e1) by (unfold k, e1; lia).
  assert (Hk0 : 0 <= k) by (unfold k; lia).
  destruct (shr_fexp prec emax mx ex lx) as [mrs1 e1']. cbn [fst snd] in *.
  rewrite Hk in Hsnd. subst e1'.
  set (m1 := shr_m mrs1) in *.
  assert (Hpk : 0 < 2 ^ k) by (apply Z.pow_pos_nonneg; lia).
  assert (Hm1b : 1 <= m1 < 2 ^ 53 /\ (53 <= d -> 2 ^ 52 <= m1)).
  { rewrite Hm1. destruct (Z.le_gt_cases d 53) as [Hd | Hd].
    - assert (k = 0) by (unfold k; lia). subst k.
      replace (Z.max 0 (Z.max (d + ex - 53) (-1074) - ex)) with 0 by lia.
      change (2 ^ 0) with 1. rewrite Z.div_1_r.
      assert (2 ^ d <= 2 ^ 53) by (apply Z.pow_le_mono_r; lia).
      split; [lia |]. intros Hd'. assert (d = 53) by lia.
      replace (d - 1) with 52 in Hdlo by lia. exact Hdlo.
    - assert (Hkd : k = d - 53) by (unfold k; lia).
      assert (Hp1 : 2 ^ d = 2 ^ 53 * 2 ^ k).
      { rewrite <- Z.pow_add_r by lia. f_equal. lia. }
      assert (Hp2 : 2 ^ (d - 1) = 2 ^ 52 * 2 ^ k).
      { rewrite <- Z.pow_add_r by lia. f_equal. lia. }
      assert (Hlow : 2 ^ 52 <= mx / 2 ^ k).
      { apply Z.div_le_lower_bound; [exact Hpk | lia]. }
      assert (Hup : mx / 2 ^ k < 2 ^ 53).
      { apply Z.div_lt_upper_bound; [exact Hpk | lia]. }
      split; [lia | intros _; exact Hlow]. }
  destruct Hm1b as [Hm1r Hm1c].
  destruct (round_nearest_even_located N (2 ^ k * D) m1 _ Hloc1) as [Hm2 Herr].
  set (m2 := round_nearest_even m1 (loc_of_shr_record mrs1)) in *.
  assert (Hm20 : 0 <= m2) by lia.
  destruct (shr_fexp_located m2 e1 loc_Exact m2 1 Hm20 (located_exact m2))
    as [Hsnd2 [_ Hm3]].
  rewrite fexp_eq in Hsnd2, Hm3.
  destruct (shr_fexp prec emax m2 e1 loc_Exact) as [mrs2 e2']. cbn [fst snd] in *.
  assert (He1ex : ex <= e1) by (unfold e1; lia).
  assert (Hm2pos : 0 < m2) by lia.
  destruct (Z.eq_dec m2 (2 ^ 53)) as [Hcarry | Hno].
  - assert (Hd2 : Zdigits2 m2 = 54) by (rewrite Hcarry; reflexivity).
    rewrite Hd2 in Hsnd2, Hm3.
    replace (Z.max 0 (Z.max (54 + e1 - 53) (-1074) - e1)) with 1 in Hsnd2, Hm3 by lia.
    rewrite Hcarry in Hm3. change (2 ^ 53 / 2 ^ 1) with (2 ^ 52) in Hm3.
    rewrite Hm3. subst e2'.
    exists (Z.to_pos (2 ^ 52)), (e1 + 1).
    replace (e1 + 1 <=? emax - prec) with true
      by (symmetry; apply Z.leb_le; unfold emax, prec; lia).
    split; [reflexivity |]. split; [lia |]. split; [| intros _; cbn; lia].
    change (Z.pos (Z.to_pos (2 ^ 52))) with (2 ^ 52).
    replace (e1 + 1 - ex) with (k + 1) by lia.
    replace (e1 - ex) with k by lia.
    rewrite Z.pow_add_r by lia.
    replace (2 ^ 52 * (2 ^ k * 2 ^ 1) * D) with (m2 * (2 ^ k * D))
      by (rewrite Hcarry; change (2 ^ 53) with (2 ^ 52 * 2 ^ 1); ring).
    exact Herr.
  - assert (Hlt : m2 < 2 ^ 53) by lia.
    pose proof (Zdigits2_le m2 53 Hm2pos Hlt) as Hd2.
    replace (Z.max 0 (Z.max (Zdigits2 m2 + e1 - 53) (-1074) - e1)) with 0
      in Hsnd2, Hm3 by lia.
    change (2 ^ 0) with 1 in Hm3. rewrite Z.div_1_r in Hm3. rewrite Z.add_0_r in Hsnd2.
    rewrite Hm3. subst e2'.
    destruct m2 as [| p2 | p2]; try lia.
    exists p2, e1.
    replace (e1 <=? emax - prec) with true
      by (symmetry; apply Z.leb_le; unfold emax, prec; lia).
    split; [reflexivity |]. split; [lia |]. split; [| intros Hd; specialize (Hm1c Hd); lia].
    replace (e1 - ex) with k by lia.
    replace (Z.pos p2 * 2 ^ k * D) with (Z.pos p2 * (2 ^ k * D)) by ring.
    exact Herr.
Qed.

Lemma binary_round_aux_scaled (mx ex : Z) (lx : location) (N D : Z) :
  1 <= mx -> located N D mx lx -> -200 <= ex ->
  let e1 := Z.max ex (Zdigits2 mx + ex - 53) in
  e1 < 971 ->
  exists (m3 : BinNums.positive) (e3 : Z),
    binary_round_aux prec emax false mx ex lx = S754_finite false m3 e3
    /\ e1 <= e3 <= e1 + 1
    /\ Z.abs (2 * (scaled m3 e3 * D - N * 2 ^ (ex + 200))) <= 2 ^ (e1 + 200) * D
    /\ (53 <= Zdigits2 mx -> 2 ^ 52 <= Zpos m3 < 2 ^ 53).
Proof.
  intros Hmx Hloc Hex e1 He1.
  destruct (binary_round_aux_correct mx ex lx N D Hmx Hloc ltac:(lia) He1)
    as [m3 [e3 [Heq [He3 [Herr Hcan]]]]].
  fold e1 in He3, Herr.
  exists m3, e3. split; [exact Heq |]. split; [exact He3 |]. split; [| exact Hcan].
  assert (He1ex : ex <= e1) by (unfold e1; lia).
  assert (Hs : 0 < 2 ^ (ex + 200)) by (apply Z.pow_pos_nonneg; lia).
  unfold scaled.
  replace (e3 + 200) with ((e3 - ex) + (ex + 200)) by lia.
  replace (e1 + 200) with ((e1 - ex) + (ex + 200)) by lia.
  rewrite (Z.pow_add_r 2 (e3 - ex) (ex + 200)) by lia.
  rewrite (Z.pow_add_r 2 (e1 - ex) (ex + 200)) by lia.
  replace (2 * (Z.pos m3 * (2 ^ (e3 - ex) * 2 ^ (ex + 200)) * D - N * 2 ^ (ex + 200)))
    with (2 * (Z.pos m3 * 2 ^ (e3 - ex) * D - N) * 2 ^ (ex + 200)) by ring.
  rewrite Z.abs_mul, (Z.abs_eq (2 ^ (ex + 200))) by lia.
  replace (2 ^ (e1 - ex) * 2 ^ (ex + 200) * D)
    with (2 ^ (e1 - ex) * D * 2 ^ (ex + 200)) by ring.
  apply Z.mul_le_mono_nonneg_r; [lia | exact Herr].
Qed.

(** An integer below [2^53] is held exactly, with a full mantissa. *)
Lemma ofZ_exact (z : Z) :
  1 <= z < 2 ^ 53 ->
  exists (m : BinNums.positive) (e : Z),
    ofZ z = S754_finite false m e
    /\ -52 <= e <= 0
    /\ Zpos m = z * 2 ^ (- e)
    /\ 2 ^ 52 <= Zpos m < 2 ^ 53
    /\ e = Zdigits2 z - 53.
Proof.
  intros [Hlo Hhi]. destruct z as [| p | p]; try lia.
  unfold ofZ, binary_normalize, binary_round.
  pose proof (Zdigits2_bounds (Zpos p) ltac:(lia)) as [Hdlo Hdhi].
  pose proof (Zdigits2_le (Zpos p) 53 ltac:(lia) Hhi) as Hd53.
  pose proof (Zdigits2_pos (Zpos p) ltac:(lia)) as Hdpos.
  cbn [Zdigits2] in Hdlo, Hdhi, Hd53, Hdpos.
  set (d := Z.pos (digits2_pos p)) in *.
  rewrite fexp_eq. replace (Z.max (d + 0 - 53) (-1074)) with (d - 53) by lia.
  assert (Hshl : exists mz, shl_align p 0 (d - 53) = (mz, d - 53)
                            /\ Zpos mz = Zpos p * 2 ^ (53 - d)).
  { unfold shl_align. destruct (d - 53 - 0) as [| q | q] eqn:Hq; try lia.
    - exists p. assert (d = 53) by lia. subst d.
      replace (53 - Z.pos (digits2_pos p)) with 0 by lia.
      replace (Z.pos (digits2_pos p) - 53) with 0 by lia.
      split; [reflexivity | cbn; lia].
    - exists (Pos.iter xO p q). split; [reflexivity |].
      change (Pos.iter xO p q) with (shift_pos q p).
      rewrite shift_pos_correct. replace (53 - d) with (Z.pos q) by lia.
      rewrite Zpower_pos_nat, Zpower_nat_Z, positive_nat_Z. ring. }
  destruct Hshl as [mz [Hshl Hmz]]. rewrite Hshl.
  assert (Hp1 : 2 ^ (d - 1) * 2 ^ (53 - d) = 2 ^ 52).
  { rewrite <- Z.pow_add_r by lia. f_equal. lia. }
  assert (Hp2 : 2 ^ d * 2 ^ (53 - d) = 2 ^ 53).
  { rewrite <- Z.pow_add_r by lia. f_equal. lia. }
  assert (Hpos : 0 < 2 ^ (53 - d)) by (apply Z.pow_pos_nonneg; lia).
  assert (Hcan : 2 ^ 52 <= Zpos mz < 2 ^ 53) by (rewrite Hmz; nia).
  assert (Hdz : Zdigits2 (Zpos mz) = 53) by (apply Zdigits2_unique; [lia | exact Hcan]).
  destruct (binary_round_aux_correct (Zpos mz) (d - 53) loc_Exact (Zpos mz) 1)
    as [m3 [e3 [Heq [He3 [Herr Hcan3]]]]];
    [lia | apply located_exact | lia | rewrite Hdz; lia |].
  rewrite Hdz in He3, Herr, Hcan3.
  replace (Z.max (d - 53) (53 + (d - 53) - 53)) with (d - 53) in He3, Herr by lia.
  replace (d - 53 - (d - 53)) with 0 in Herr by lia.
  specialize (Hcan3 ltac:(lia)).
  assert (He : e3 = d - 53).
  { destruct (Z.eq_dec e3 (d - 53)) as [E | E]; [exact E |].
    assert (E' : e3 - (d - 53) = 1) by lia. rewrite E' in Herr.
    change (2 ^ 1) with 2 in Herr. change (2 ^ 0) with 1 in Herr. lia. }
  subst e3. replace (d - 53 - (d - 53)) with 0 in Herr by lia.
  change (2 ^ 0) with 1 in Herr.
  assert (Hm : Zpos m3 = Zpos mz) by lia.
  exists m3, (d - 53). split; [exact Heq |]. split; [lia |].
  split; [| split; [exact Hcan3 | reflexivity]].
  rewrite Hm, Hmz. f_equal. f_equal. lia.
Qed.

Lemma new_location_position (D r : Z) :
  0 < D -> 0 <= r < D -> new_location D r = position r D.
Proof.
  intros HD Hr. unfold new_location, new_location_even, new_location_odd, position.
  destruct (Z.even D) eqn:Hev; [reflexivity |].
  destruct (Z.eqb_spec r 0) as [E | E]; [reflexivity |].
  assert (Hodd : Z.odd D = true) by (rewrite <- Z.negb_even, Hev; reflexivity).
  apply Z.odd_spec in Hodd. destruct Hodd as [h Hh].
  f_equal.
  destruct (Z.compare_spec (2 * r + 1) D) as [Hc | Hc | Hc]; symmetry.
  - apply Z.compare_lt_iff. lia.
  - apply Z.compare_lt_iff. lia.
  - apply Z.compare_gt_iff. lia.
Qed.

Lemma Zdigits2_mono (a b : Z) : 0 < a -> a <= b -> Zdigits2 a <= Zdigits2 b.
Proof.
  intros Ha Hab.
  pose proof (Zdigits2_bounds b ltac:(lia)) as [_ Hb].
  apply Zdigits2_le; lia.
Qed.

(** The quotient of two integers [c <= t] below [2^53]: within [2^-53] of
    [c / t]. *)
Lemma div_ofZ (c t : Z) :
  1 <= c <= t -> t < 2 ^ 53 ->
  exists (mq : BinNums.positive) (qe : Z),
    SFdiv prec emax (ofZ c) (ofZ t) = S754_finite false mq qe
    /\ -106 <= qe <= -51
    /\ 2 ^ 52 <= Zpos mq < 2 ^ 53
    /\ Z.abs (2 * (scaled mq qe * t - c * 2 ^ 200)) <= 2 ^ 148 * t.
Proof.
  intros Hc Ht.
  destruct (ofZ_exact c ltac:(lia)) as [m1 [e1 [Hc1 [He1 [Hm1 [Hcan1 Hd1]]]]]].
  destruct (ofZ_exact t ltac:(lia)) as [m2 [e2 [Hc2 [He2 [Hm2 [Hcan2 Hd2]]]]]].
  rewrite Hc1, Hc2.
  pose proof (Zdigits2_mono c t ltac:(lia) ltac:(lia)) as Hmono.
  assert (He12 : e1 <= e2) by lia.
  unfold SFdiv, SFdiv_core_binary.
  rewrite (Zdigits2_unique (Zpos m1) 53 ltac:(lia) Hcan1).
  rewrite (Zdigits2_unique (Zpos m2) 53 ltac:(lia) Hcan2).
  rewrite fexp_eq.
  replace (Z.min (Z.max (53 + e1 - (53 + e2) - 53) (-1074)) (e1 - e2))
    with (e1 - e2 - 53) by lia.
  replace (e1 - e2 - (e1 - e2 - 53)) with 53 by lia.
  rewrite Z.shiftl_mul_pow2 by lia.
  set (N := Z.pos m1 * 2 ^ 53). set (D := Z.pos m2).
  pose proof (Z_div_mod N D ltac:(unfold D; lia)) as Hdiv.
  destruct (Z.div_eucl N D) as [q r]. destruct Hdiv as [HN Hr].
  set (ex := e1 - e2 - 53).
  set (a := - e1) in *. set (b := - e2) in *.
  assert (Hpa : 0 < 2 ^ a) by (apply Z.pow_pos_nonneg; unfold a; lia).
  assert (Hpb : 0 < 2 ^ b) by (apply Z.pow_pos_nonneg; unfold b; lia).
  assert (Hq52 : 2 ^ 52 <= q).
  { assert (2 ^ 52 * D <= N) by (unfold N, D; nia). nia. }
  assert (Hpex : 2 ^ (- ex) * 2 ^ b = 2 ^ a * 2 ^ 53).
  { rewrite <- !Z.pow_add_r by (unfold ex, a, b; lia). f_equal. unfold ex, a, b. lia. }
  assert (Hqup : q <= 2 ^ (- ex)).
  { assert (Hpe : 0 < 2 ^ (- ex)) by (apply Z.pow_pos_nonneg; unfold ex; lia).
    assert (H1 : q * D <= N) by lia.
    assert (H2 : N <= 2 ^ (- ex) * D).
    { unfold N, D. rewrite Hm1, Hm2.
      replace (2 ^ (- ex) * (t * 2 ^ b)) with (t * (2 ^ (- ex) * 2 ^ b)) by ring.
      rewrite Hpex. nia. }
    assert (HD : 0 < D) by (unfold D; lia). nia. }
  assert (Hdq : 53 <= Zdigits2 q <= - ex + 1).
  { split.
    - pose proof (Zdigits2_ge q 52 ltac:(lia) ltac:(lia) Hq52). lia.
    - apply Zdigits2_le; [lia |].
      rewrite Z.pow_add_r by (unfold ex; lia). change (2 ^ 1) with 2.
      assert (0 < 2 ^ (- ex)) by (apply Z.pow_pos_nonneg; unfold ex; lia). lia. }
  assert (Hloc : located N D q (new_location D r)).
  { rewrite new_location_position by (unfold D; lia).
    unfold located. split; [unfold D; lia |]. split; [lia |]. f_equal. lia. }
  destruct (binary_round_aux_scaled q ex (new_location D r) N D
              ltac:(lia) Hloc ltac:(unfold ex; lia) ltac:(unfold ex in *; lia))
    as [mq [qe [Heq [Heq_r [Herr Hcan]]]]].
  exists mq, qe. cbn [xorb]. split; [exact Heq |].
  split; [unfold ex in *; lia |]. split; [apply Hcan; lia |].
  assert (Hbound : 2 ^ (Z.max ex (Zdigits2 q + ex - 53) + 200) <= 2 ^ 148).
  { apply Z.pow_le_mono_r; unfold ex in *; lia. }
  assert (HNs : N * 2 ^ (ex + 200) = c * 2 ^ 200 * 2 ^ b).
  { unfold N. rewrite Hm1.
    replace (c * 2 ^ a * 2 ^ 53 * 2 ^ (ex + 200))
      with (c * (2 ^ a * 2 ^ 53 * 2 ^ (ex + 200))) by ring.
    replace (c * 2 ^ 200 * 2 ^ b) with (c * (2 ^ 200 * 2 ^ b)) by ring.
    f_equal. rewrite <- !Z.pow_add_r by (unfold ex, a, b; lia).
    f_equal. unfold ex, a, b. lia. }
  rewrite HNs in Herr. unfold D in Herr. rewrite Hm2 in Herr.
  replace (2 * (scaled mq qe * (t * 2 ^ b) - c * 2 ^ 200 * 2 ^ b))
    with (2 * (scaled mq qe * t - c * 2 ^ 200) * 2 ^ b) in Herr by ring.
  rewrite Z.abs_mul, (Z.abs_eq (2 ^ b)) in Herr by lia.
  assert (Hfin : Z.abs (2 * (scaled mq qe * t - c * 2 ^ 200)) * 2 ^ b
                 <= 2 ^ 148 * t * 2 ^ b).
  { etransitivity; [exact Herr |].
    replace (2 ^ 148 * t * 2 ^ b) with (2 ^ 148 * (t * 2 ^ b)) by ring.
    apply Z.mul_le_mono_nonneg_r; [nia | exact Hbound]. }
  apply Z.mul_le_mono_pos_r in Hfin; [exact Hfin | exact Hpb].
Qed.

Lemma ofZ_100 : ofZ 100 = S754_finite false 7036874417766400 (-46).
Proof. reflexivity. Qed.

(** The product with 100 of a number not above [1 + 2^-53]: within [2^-47]
    of the exact product. *)
Lemma mul_100 (mq : BinNums.positive) (qe : Z) :
  2 ^ 52 <= Zpos mq < 2 ^ 53 -> -106 <= qe <= -51 ->
  scaled mq qe <= 2 ^ 200 + 2 ^ 147 ->
  exists (mp : BinNums.positive) (ep : Z),
    SFmul prec emax (S754_finite false mq qe) (ofZ 100) = S754_finite false mp ep
    /\ -152 <= ep < 0
    /\ Zpos mp < 2 ^ 53
    /\ Z.abs (2 * (scaled mp ep - 100 * scaled mq qe)) <= 2 ^ 154.
Proof.
  intros Hcan Heq Hval. rewrite ofZ_100. unfold SFmul. cbn [xorb].
  rewrite Pos2Z.inj_mul.
  set (mx := Z.pos mq * 7036874417766400). set (ex := qe + -46).
  assert (Hmx : 2 ^ 104 <= mx) by (unfold mx; lia).
  assert (HA : 0 < 2 ^ (qe + 200)) by (apply Z.pow_pos_nonneg; lia).
  assert (HB : 0 < 2 ^ (- qe)) by (apply Z.pow_pos_nonneg; lia).
  assert (HAB : 2 ^ (qe + 200) * 2 ^ (- qe) = 2 ^ 200).
  { rewrite <- Z.pow_add_r by lia. f_equal. lia. }
  assert (Hmq : 4 * Z.pos mq < 5 * 2 ^ (- qe)).
  { unfold scaled in Hval.
    assert (H1 : 4 * (Z.pos mq * 2 ^ (qe + 200)) < 5 * (2 ^ (qe + 200) * 2 ^ (- qe))).
    { rewrite HAB. lia. }
    nia. }
  assert (Hup : mx < 2 ^ (53 - qe)).
  { replace (53 - qe) with (53 + - qe) by lia. rewrite Z.pow_add_r by lia.
    unfold mx. lia. }
  assert (Hd : 105 <= Zdigits2 mx <= 53 - qe).
  { split.
    - pose proof (Zdigits2_ge mx 104 ltac:(lia) ltac:(lia) Hmx). lia.
    - apply Zdigits2_le; lia. }
  destruct (binary_round_aux_scaled mx ex loc_Exact mx 1
              ltac:(lia) (located_exact mx) ltac:(unfold ex; lia)
              ltac:(unfold ex in *; lia))
    as [mp [ep [Heqp [Hep [Herr Hcanp]]]]].
  exists mp, ep. split; [exact Heqp |]. split; [unfold ex in *; lia |].
  split; [apply Hcanp; lia |].
  assert (Hbound : 2 ^ (Z.max ex (Zdigits2 mx + ex - 53) + 200) <= 2 ^ 154).
  { apply Z.pow_le_mono_r; unfold ex in *; lia. }
  assert (Hprod : mx * 2 ^ (ex + 200) = 100 * scaled mq qe).
  { unfold mx, scaled, ex.
    replace (qe + 200) with (46 + (qe + -46 + 200)) by lia.
    rewrite (Z.pow_add_r 2 46 (qe + -46 + 200)) by lia.
    change (2 ^ 46) with 70368744177664. ring. }
  rewrite Hprod, Z.mul_1_r in Herr. rewrite Z.mul_1_r in Herr. lia.
Qed.

Lemma toFixed2_nearest (mp : BinNums.positive) (ep : Z) :
  -152 <= ep < 0 -> Zpos mp < 2 ^ 53 ->
  exists n : Z,
    toFixed2 (S754_finite false mp ep) = Some n
    /\ 0 <= n
    /\ Z.abs (2 * 2 ^ 200 * n - 200 * scaled mp ep) <= 2 ^ 200.
Proof.
  intros Hep Hmp. destruct ep as [| p | p]; try lia.
  unfold toFixed2. cbv zeta.
  set (P := 2 ^ Z.pos p).
  assert (HP : 0 < P) by (apply Z.pow_pos_nonneg; lia).
  replace (2 ^ (Z.pos p + 1)) with (2 * P)
    by (unfold P; rewrite Z.pow_add_r by lia; change (2 ^ 1) with 2; ring).
  set (n := (200 * Z.pos mp + P) / (2 * P)).
  pose proof (Z.div_mod (200 * Z.pos mp + P) (2 * P) ltac:(lia)) as Hdm.
  pose proof (Z.mod_pos_bound (200 * Z.pos mp + P) (2 * P) ltac:(lia)) as Hmod.
  fold n in Hdm.
  assert (Hn0 : 0 <= n) by (apply Z.div_pos; lia).
  assert (Hnup : n < 10 ^ 23).
  { apply Z.div_lt_upper_bound; [lia |].
    assert (200 * Z.pos mp < 200 * 2 ^ 53) by lia.
    change (10 ^ 23) with 100000000000000000000000. change (2 ^ 53) with 9007199254740992 in *.
    nia. }
  apply Z.ltb_lt in Hnup. rewrite Hnup. cbn [cond_Zopp].
  exists n. split; [reflexivity |]. split; [exact Hn0 |].
  assert (HS : 2 ^ 200 = P * 2 ^ (Z.neg p + 200)).
  { unfold P. rewrite <- Z.pow_add_r by lia. f_equal. lia. }
  assert (HR : 0 < 2 ^ (Z.neg p + 200)) by (apply Z.pow_pos_nonneg; lia).
  unfold scaled. rewrite HS.
  set (R := 2 ^ (Z.neg p + 200)) in *.
  replace (2 * (P * R) * n - 200 * (Z.pos mp * R))
    with ((2 * P * n - 200 * Z.pos mp) * R) by ring.
  rewrite Z.abs_mul, (Z.abs_eq R) by lia.
  apply Z.mul_le_mono_nonneg_r; [lia |]. lia.
Qed.

End Binary64.

(** ** Sentiment breakdown *)

Section Breakdown.

Local Open Scope Z_scope.

Lemma percentage_chain (T C Q P n : Z) :
  1 <= C <= T -> T < 2 ^ 32 ->
  Z.abs (2 * (Q * T - C * 2 ^ 200)) <= 2 ^ 148 * T ->
  Z.abs (2 * (P - 100 * Q)) <= 2 ^ 154 ->
  Z.abs (2 * 2 ^ 200 * n - 200 * P) <= 2 ^ 200 ->
  2 * Z.abs (T * n - 10000 * C) <= T.
Proof.
  intros HC HT Hq Hp Hn.
  set (u := 2 * 2 ^ 200 * n - 200 * P) in *.
  set (v := P - 100 * Q) in *.
  set (w := Q * T - C * 2 ^ 200) in *.
  assert (Hid : 2 * 2 ^ 200 * (T * n - 10000 * C) = T * u + 200 * (T * v) + 20000 * w)
    by (unfold u, v, w; ring).
  assert (Hu : - (T * 2 ^ 200) <= T * u <= T * 2 ^ 200) by nia.
  assert (Hv : - (T * 2 ^ 153) <= T * v <= T * 2 ^ 153) by nia.
  assert (Hw : - (2 ^ 147 * T) <= w <= 2 ^ 147 * T) by lia.
  lia.
Qed.

Lemma percentage_hundredths (c t : nat) :
  (c <= t)%nat -> Z.of_nat t < 2 ^ 32 ->
  exists n : Z,
    toFixed2 (percentage (ofNat c) t) = Some n
    /\ 0 <= n
    /\ (t = 0%nat -> n = 0)
    /\ 2 * Z.abs (Z.of_nat t * n - 10000 * Z.of_nat c) <= Z.of_nat t.
Proof.
  intros Hct Ht. destruct t as [| t'].
  - exists 0. assert (c = 0%nat) by lia. subst c. cbn. repeat split; lia.
  - unfold percentage, JsNumber.mul, JsNumber.div, ofNat.
    set (T := Z.of_nat (S t')) in *. assert (HT : 1 <= T) by (unfold T; lia).
    destruct c as [| c'].
    + destruct (ofZ_exact T ltac:(lia)) as [m2 [e2 [HT2 _]]]. rewrite HT2.
      change (ofZ (Z.of_nat 0)) with (S754_zero false).
      change (ofZ (Z.of_nat 100)) with (ofZ 100). rewrite ofZ_100. cbn.
      exists 0. repeat split; try lia. discriminate.
    + set (C := Z.of_nat (S c')) in *.
      destruct (div_ofZ C T ltac:(unfold C, T; lia) ltac:(lia))
        as [mq [qe [Hdiv [Hqe [Hcan Hq]]]]].
      rewrite Hdiv.
      assert (Hval : scaled mq qe <= 2 ^ 200 + 2 ^ 147).
      { assert (H1 : scaled mq qe * T <= (2 ^ 200 + 2 ^ 147) * T)
          by (assert (C <= T) by (unfold C, T; lia); nia).
        nia. }
      change (ofZ (Z.of_nat 100)) with (ofZ 100).
      destruct (mul_100 mq qe Hcan Hqe Hval) as [mp [ep [Hmul [Hep [Hmp Hp]]]]].
      rewrite Hmul.
      destruct (toFixed2_nearest mp ep Hep Hmp) as [n [Hn [Hn0 Hnear]]].
      exists n. split; [exact Hn |]. split; [exact Hn0 |]. split; [discriminate |].
      apply (percentage_chain T C (scaled mq qe) (scaled mp ep) n);
        try assumption; unfold C, T; lia.
Qed.

End Breakdown.

Section BreakdownShape.

Lemma label_inj (a b : sentiment) : label a = label b -> a = b.
Proof. destruct a, b; cbn; intros H; (reflexivity || discriminate H). Qed.

Lemma count_occ_labels (prs : list processedReview) (s : sentiment) :
  count_occ string_dec (map (fun r => label (p_sentiment r)) prs) (label s)
  = countIf (fun r => sentiment_eqb (p_sentiment r) s) prs.
Proof.
  unfold countIf. induction prs as [| r prs IH]; [reflexivity |].
  cbn [map count_occ filter].
  destruct (string_dec (label (p_sentiment r)) (label s)) as [E | E].
  - apply label_inj in E. rewrite (proj2 (sentiment_eqb_eq _ _) E).
    cbn [List.length]. now rewrite IH.
  - destruct (sentiment_eqb (p_sentiment r) s) eqn:Hs; [| exact IH].
    apply sentiment_eqb_eq in Hs. subst s. contradiction.
Qed.

Lemma sentimentCounts_own (prs : list processedReview) (s : sentiment) :
  own (sentimentCounts prs) (label s)
  = Some (VNum (countIf (fun r => sentiment_eqb (p_sentiment r) s) prs)).
Proof.
  unfold sentimentCounts. rewrite own_tally_plain.
  - rewrite count_occ_labels. now destruct s.
  - now destruct s.
  - intros t. now destruct s.
Qed.

Lemma sentimentCounts_keys (prs : list processedReview) :
  keys (sentimentCounts prs) = map label sentiments.
Proof.
  assert (Hk : map fst (sentimentCounts prs) = map label sentiments).
  { unfold sentimentCounts. rewrite keys_tally_present; [reflexivity |].
    apply Forall_forall. intros k Hk. apply in_map_iff in Hk.
    destruct Hk as [r [<- _]]. destruct (p_sentiment r); cbn; tauto. }
  unfold keys. rewrite entries_no_index; [exact Hk |].
  assert (Hidx : Forall (fun k => arrayIndex k = None) (map fst (sentimentCounts prs))).
  { rewrite Hk. repeat constructor. }
  apply Forall_forall. intros p Hp. unfold isIndex.
  rewrite (proj1 (Forall_forall _ _) Hidx (fst p) (in_map fst _ _ Hp)). reflexivity.
Qed.

Lemma fold_assign_labels {V} (f : string -> V) :
  fold_left (fun breakdown k => assign breakdown k (f k)) (map label sentiments) []
  = map (fun s => (label s, f (label s))) sentiments.
Proof. reflexivity. Qed.

Lemma sentimentBreakdown_cells (prs : list processedReview) :
  sentimentBreakdown prs
  = map (fun s =>
           (label s,
            round2 (percentage
                      (ofNat (countIf (fun r => sentiment_eqb (p_sentiment r) s) prs))
                      (List.length prs))))
        sentiments.
Proof.
  unfold sentimentBreakdown. rewrite sentimentCounts_keys, fold_assign_labels.
  apply map_ext. intros s. now rewrite sentimentCounts_own.
Qed.

Lemma sentiments_partition {A} (f : A -> sentiment) (l : list A) :
  countIf (fun r => sentiment_eqb (f r) positive) l
  + countIf (fun r => sentiment_eqb (f r) somewhat_positive) l
  + countIf (fun r => sentiment_eqb (f r) neutral) l
  + countIf (fun r => sentiment_eqb (f r) somewhat_negative) l
  + countIf (fun r => sentiment_eqb (f r) negative) l
  = List.length l.
Proof.
  unfold countIf. induction l as [| a l IH]; [reflexivity |].
  cbn [filter List.length]. destruct (f a); cbn [sentiment_eqb List.length]; lia.
Qed.

Lemma countIf_le {A} (f : A -> bool) (l : list A) : countIf f l <= List.length l.
Proof. apply filter_length_le. Qed.

End BreakdownShape.

(** C6. For a collection of [total] reviews (an array holds fewer than
    [2^32]), the breakdown has the five labels, in the order positive,
    somewhat positive, neutral, somewhat negative, negative, each present
    whatever its count.  The cell of a label is the Number written with two
    decimals [h / 100], where the integer [h] is nearest to
    [count / total * 100] in hundredths: it is off by at most half a
    hundredth.  With [total > 0] the five percentages add up to 100 within
    two hundredths; with [total = 0] the five are 0. *)
Theorem sentimentBreakdown_percentages
    (c : clock) (pf : platform) (reviews : list review) :
  (Z.of_nat (List.length reviews) < 2 ^ 32)%Z ->
  let total := Z.of_nat (List.length reviews) in
  let count s :=
    Z.of_nat (countIf (fun r => sentiment_eqb (analyzeSentiment (text r)) s) reviews) in
  exists h : sentiment -> Z,
    a_sentimentBreakdown (analysisOf (analyzeReviews c pf reviews))
    = map (fun s => (label s, parseHundredths (h s))) sentiments
    /\ (forall s, 0 <= h s /\ 2 * Z.abs (total * h s - 10000 * count s) <= total)%Z
    /\ ((total = 0 /\ forall s, h s = 0)
        \/ (0 < total
            /\ Z.abs (h positive + h somewhat_positive + h neutral
                      + h somewhat_negative + h negative - 10000) <= 2))%Z.
Proof.
  intros Hlen. cbv zeta.
  cbn [analyzeReviews analysisOf a_sentimentBreakdown].
  rewrite sentimentBreakdown_cells.
  assert (Hcount : forall s,
             countIf (fun r => sentiment_eqb (p_sentiment r) s) (processReviews pf reviews)
             = countIf (fun r => sentiment_eqb (analyzeSentiment (text r)) s) reviews).
  { intros s. unfold processReviews. rewrite countIf_map.
    apply countIf_ext. intros r. now destruct pf. }
  assert (Hlength : List.length (processReviews pf reviews) = List.length reviews)
    by apply length_map.
  set (cnt := fun s => countIf (fun r => sentiment_eqb (analyzeSentiment (text r)) s)
                               reviews).
  assert (Hcell : forall s, exists n : Z,
             toFixed2 (percentage (ofNat (cnt s)) (List.length reviews)) = Some n
             /\ (0 <= n)%Z
             /\ (List.length reviews = 0 -> n = 0%Z)
             /\ (2 * Z.abs (Z.of_nat (List.length reviews) * n
                            - 10000 * Z.of_nat (cnt s))
                 <= Z.of_nat (List.length reviews))%Z).
  { intros s. apply percentage_hundredths; [apply countIf_le | exact Hlen]. }
  destruct (Hcell positive) as [h1 [E1 [P1 [Z1 B1]]]].
  destruct (Hcell somewhat_positive) as [h2 [E2 [P2 [Z2 B2]]]].
  destruct (Hcell neutral) as [h3 [E3 [P3 [Z3 B3]]]].
  destruct (Hcell somewhat_negative) as [h4 [E4 [P4 [Z4 B4]]]].
  destruct (Hcell negative) as [h5 [E5 [P5 [Z5 B5]]]].
  exists (fun s => match s with
                   | positive => h1 | somewhat_positive => h2 | neutral => h3
                   | somewhat_negative => h4 | negative => h5
                   end).
  split; [| split].
  - unfold sentiments. cbn [map]. rewrite !Hcount, Hlength.
    unfold cnt in E1, E2, E3, E4, E5.
    unfold round2. now rewrite E1, E2, E3, E4, E5.
  - intros s. unfold cnt in B1, B2, B3, B4, B5. destruct s; split; assumption.
  - pose proof (sentiments_partition (fun r => analyzeSentiment (text r)) reviews) as Hsum.
    unfold cnt in B1, B2, B3, B4, B5.
    destruct (List.length reviews) as [| t'] eqn:Hn.
    + left. split; [reflexivity |]. intros s.
      destruct s; [apply Z1 | apply Z2 | apply Z3 | apply Z4 | apply Z5]; reflexivity.
    + right. split; [lia |].
      set (T := Z.of_nat (S t')) in *.
      assert (HT : (0 < T)%Z) by (unfold T; lia).
      set (c1 := Z.of_nat (countIf (fun r => sentiment_eqb (analyzeSentiment (text r)) positive) reviews)) in *.
      set (c2 := Z.of_nat (countIf (fun r => sentiment_eqb (analyzeSentiment (text r)) somewhat_positive) reviews)) in *.
      set (c3 := Z.of_nat (countIf (fun r => sentiment_eqb (analyzeSentiment (text r)) neutral) reviews)) in *.
      set (c4 := Z.of_nat (countIf (fun r => sentiment_eqb (analyzeSentiment (text r)) somewhat_negative) reviews)) in *.
      set (c5 := Z.of_nat (countIf (fun r => sentiment_eqb (analyzeSentiment (text r)) negative) reviews)) in *.
      assert (Hs : (c1 + c2 + c3 + c4 + c5 = T)%Z) by (unfold c1, c2, c3, c4, c5, T; lia).
      set (Y := (h1 + h2 + h3 + h4 + h5 - 10000)%Z).
      assert (Hid : (T * Y = (T * h1 - 10000 * c1) + (T * h2 - 10000 * c2)
                             + (T * h3 - 10000 * c3) + (T * h4 - 10000 * c4)
                             + (T * h5 - 10000 * c5))%Z)
        by (unfold Y; rewrite <- Hs; ring).
      set (y1 := (T * h1 - 10000 * c1)%Z) in *.
      set (y2 := (T * h2 - 10000 * c2)%Z) in *.
      set (y3 := (T * h3 - 10000 * c3)%Z) in *.
      set (y4 := (T * h4 - 10000 * c4)%Z) in *.
      set (y5 := (T * h5 - 10000 * c5)%Z) in *.
      assert (Hall : (2 * Z.abs (T * Y) <= 5 * T)%Z) by lia.
      rewrite Z.abs_mul, (Z.abs_eq T) in Hall by lia.
      assert (Hlt : (T * Z.abs Y < T * 3)%Z) by lia.
      apply Z.mul_lt_mono_pos_l in Hlt; [lia | exact HT].
Qed.

Lemma sentimentBreakdown_percentages_witness :
  a_sentimentBreakdown
    (analysisOf (analyzeReviews (utc 0) android
                   [mkReview "Great, love it" 5 0; mkReview "I love it" 5 0;
                    mkReview "Terrible crash" 1 0]))
  = [("positive", parseHundredths 6667); ("somewhat positive", parseHundredths 0);
     ("neutral", parseHundredths 0); ("somewhat negative", parseHundredths 0);
     ("negative", parseHundredths 3333)]
  /\ exists h : sentiment -> Z,
       (forall s, 0 <= h s)%Z
       /\ (Z.abs (h positive + h somewhat_positive + h neutral
                  + h somewhat_negative + h negative - 10000) <= 2)%Z.
Proof.
  split; [vm_compute; reflexivity |].
  destruct (sentimentBreakdown_percentages (utc 0) android
              [mkReview "Great, love it" 5 0; mkReview "I love it" 5 0;
               mkReview "Terrible crash" 1 0])
    as [h [_ [Hh Hsum]]].
  - vm_compute. reflexivity.
  - exists h. split; [intros s; apply Hh |].
    destruct Hsum as [[Hzero _] | [_ Hsum]]; [discriminate Hzero | exact Hsum].
Defined.

(** ** Tokens *)

Section Tokens.

Lemma flush_app (run : string) (l l' : list string) :
  flush run (l ++ l') = flush run l ++ l'.
Proof. now destruct run. Qed.

Lemma append_empty_r (s : string) : (s ++ EmptyString)%string = s.
Proof. induction s as [| a s IH]; [reflexivity |]. cbn. now rewrite IH. Qed.

Lemma flush_concat (run : string) (toks : list string) :
  String.concat EmptyString (flush run toks) = (run ++ String.concat EmptyString toks)%string.
Proof.
  destruct run as [| a run]; [reflexivity |].
  cbn [flush]. destruct toks as [| t toks].
  - cbn [String.concat]. now rewrite append_empty_r.
  - reflexivity.
Qed.

Lemma flush_nonempty (run : string) (toks : list string) :
  Forall (fun w => w <> EmptyString) toks ->
  Forall (fun w => w <> EmptyString) (flush run toks).
Proof.
  intros H. destruct run; cbn [flush]; [exact H |].
  constructor; [discriminate | exact H].
Qed.

Lemma runs_words (s : jsstring) :
  Forall (fun w => w <> EmptyString) (snd (runs s))
  /\ (fst (runs s) ++ String.concat EmptyString (snd (runs s)))%string
     = unitsToString (filter isWord s).
Proof.
  induction s as [| c s [IHne IHcat]]; [split; [constructor | reflexivity] |].
  cbn [runs filter]. destruct (runs s) as [run toks]. cbn [fst snd] in *.
  destruct (isWord c); cbn [fst snd].
  - split; [exact IHne |]. cbn [unitsToString String.append]. now rewrite IHcat.
  - split; [now apply flush_nonempty |]. now rewrite flush_concat.
Qed.

Lemma runs_separator (s1 s2 : jsstring) (c : codeunit) :
  isWord c = false ->
  runs (s1 ++ c :: s2) = (fst (runs s1), snd (runs s1) ++ matchWords s2).
Proof.
  intros Hc. induction s1 as [| a s1 IH].
  - cbn [app runs fst snd]. unfold matchWords.
    destruct (runs s2) as [run toks]. now rewrite Hc.
  - cbn [app runs]. rewrite IH. destruct (runs s1) as [run toks]. cbn [fst snd].
    destruct (isWord a); cbn [fst snd]; [reflexivity |]. now rewrite flush_app.
Qed.

Lemma matchWords_separator (s1 s2 : jsstring) (c : codeunit) :
  isWord c = false ->
  matchWords (s1 ++ c :: s2) = matchWords s1 ++ matchWords s2.
Proof.
  intros Hc. unfold matchWords at 1 2. rewrite (runs_separator s1 s2 c Hc).
  destruct (runs s1) as [run toks]. cbn [fst snd]. apply flush_app.
Qed.

Lemma lowerUnit_separator (c : codeunit) :
  separator c = true -> lowerUnit c = [c] /\ isWord c = false.
Proof.
  unfold separator, lowerUnit. intros H.
  apply andb_true_iff in H. destruct H as [H H304].
  apply andb_true_iff in H. destruct H as [Hw H8490].
  apply negb_true_iff in Hw, H8490, H304.
  rewrite H8490, H304. split; [| exact Hw].
  destruct ((65 <=? c) && (c <=? 90))%N eqn:Hcap; [| reflexivity].
  unfold isWord in Hw. rewrite Hcap in Hw.
  rewrite orb_true_r in Hw. cbn in Hw. discriminate.
Qed.

Lemma toLowerCase_app (a b : jsstring) :
  toLowerCase (a ++ b) = toLowerCase a ++ toLowerCase b.
Proof. unfold toLowerCase. apply flat_map_app. Qed.

Lemma tokenize_separator (a b : jsstring) (c : codeunit) :
  separator c = true ->
  tokenize (a ++ c :: b) = tokenize a ++ tokenize b.
Proof.
  intros Hc. destruct (lowerUnit_separator c Hc) as [Hlow Hw].
  unfold tokenize. rewrite toLowerCase_app.
  change (toLowerCase (c :: b)) with (lowerUnit c ++ toLowerCase b).
  rewrite Hlow. cbn [app]. now apply matchWords_separator.
Qed.

Lemma lowerUnit_fixed (c : codeunit) :
  Forall (fun u => lowerUnit u = [u]) (lowerUnit c).
Proof.
  unfold lowerUnit at 2.
  destruct ((65 <=? c) && (c <=? 90))%N eqn:Hcap.
  - constructor; [| constructor].
    apply andb_true_iff in Hcap. destruct Hcap as [H1 H2].
    apply N.leb_le in H1. apply N.leb_le in H2.
    unfold lowerUnit.
    replace ((65 <=? c + 32) && (c + 32 <=? 90))%N with false
      by (symmetry; apply andb_false_iff; right; apply N.leb_gt; lia).
    replace (c + 32 =? 8490)%N with false by (symmetry; apply N.eqb_neq; lia).
    replace (c + 32 =? 304)%N with false by (symmetry; apply N.eqb_neq; lia).
    reflexivity.
  - destruct (c =? 8490)%N eqn:H1; [repeat constructor |].
    destruct (c =? 304)%N eqn:H2; [repeat constructor |].
    constructor; [| constructor]. unfold lowerUnit. now rewrite Hcap, H1, H2.
Qed.

Lemma toLowerCase_idempotent (t : jsstring) :
  toLowerCase (toLowerCase t) = toLowerCase t.
Proof.
  induction t as [| c t IH]; [reflexivity |].
  change (toLowerCase (c :: t)) with (lowerUnit c ++ toLowerCase t).
  rewrite toLowerCase_app, IH. f_equal.
  pose proof (lowerUnit_fixed c) as H.
  induction H as [| u l Hu _ IHl]; [reflexivity |].
  change (toLowerCase (u :: l)) with (lowerUnit u ++ toLowerCase l).
  now rewrite Hu, IHl.
Qed.

Lemma toLowerCase_nil (t : jsstring) : toLowerCase t = [] -> t = [].
Proof.
  destruct t as [| c t]; [reflexivity |].
  change (toLowerCase (c :: t)) with (lowerUnit c ++ toLowerCase t).
  unfold lowerUnit. destruct ((65 <=? c) && (c <=? 90))%N; [discriminate |].
  destruct (c =? 8490)%N; [discriminate |].
  destruct (c =? 304)%N; discriminate.
Qed.

Lemma hits_app (lexicon a b : list string) :
  hits lexicon (a ++ b) = hits lexicon a + hits lexicon b.
Proof. unfold hits. now rewrite filter_app, length_app. Qed.

End Tokens.

(** X1. The tokens of a text are non-empty lower-case words, and put end to
    end they are exactly the word characters of the lower-cased text, in
    order: the tokenizer drops the other characters and nothing else. *)
Theorem tokenize_keeps_the_word_characters (t : jsstring) :
  Forall (fun w => w <> EmptyString /\ lowerToken w = true) (tokenize t)
  /\ String.concat EmptyString (tokenize t) = unitsToString (filter isWord (toLowerCase t)).
Proof.
  unfold tokenize, matchWords.
  destruct (runs_words (toLowerCase t)) as [Hne Hcat].
  pose proof (tokenize_lower t) as Hlow. unfold tokenize, matchWords in Hlow.
  destruct (runs (toLowerCase t)) as [run toks]. cbn [fst snd] in *.
  split.
  - apply Forall_forall. intros w Hw. split.
    + exact (proj1 (Forall_forall _ _) (flush_nonempty run toks Hne) w Hw).
    + exact (proj1 (Forall_forall _ _) Hlow w Hw).
  - now rewrite flush_concat.
Qed.

(** X2. Two texts joined by a separator (a character that is no word
    character, also after lower-casing) are analysed piece by piece: the
    tokens and the keywords of the whole are those of the first piece followed
    by those of the second, and the lexicon hit counts add up. *)
Theorem analysis_of_joined_texts (a b : jsstring) (c : codeunit) :
  separator c = true ->
  tokenize (a ++ c :: b) = tokenize a ++ tokenize b
  /\ extractKeywords (Some (a ++ c :: b))
     = extractKeywords (Some a) ++ extractKeywords (Some b)
  /\ hits positiveWords (tokenize (a ++ c :: b))
     = hits positiveWords (tokenize a) + hits positiveWords (tokenize b)
  /\ hits negativeWords (tokenize (a ++ c :: b))
     = hits negativeWords (tokenize a) + hits negativeWords (tokenize b).
Proof.
  intros Hc. pose proof (tokenize_separator a b c Hc) as Htok.
  split; [exact Htok |]. split; [| split].
  - rewrite !extractKeywords_filter, Htok. apply filter_app.
  - rewrite Htok. apply hits_app.
  - rewrite Htok. apply hits_app.
Qed.

Lemma analysis_of_joined_texts_witness :
  tokenize (ofString "Great app" ++ 46%N :: ofString "Keeps crashing")
  = tokenize (ofString "Great app") ++ tokenize (ofString "Keeps crashing")
  /\ extractKeywords (Some (ofString "Great app" ++ 46%N :: ofString "Keeps crashing"))
     = ["great"; "keeps"; "crashing"].
Proof.
  destruct (analysis_of_joined_texts (ofString "Great app") (ofString "Keeps crashing")
              46%N eq_refl) as [Htok [Hkw _]].
  split; [exact Htok |]. etransitivity; [exact Hkw | reflexivity].
Defined.

(** X3. Classification and keyword extraction do not look at the case of
    the letters: the lower-cased text gets the same sentiment and the same
    keywords as the text itself. *)
Theorem analysis_ignores_case (t : jsstring) :
  analyzeSentiment (Some (toLowerCase t)) = analyzeSentiment (Some t)
  /\ extractKeywords (Some (toLowerCase t)) = extractKeywords (Some t).
Proof.
  assert (Htok : tokenize (toLowerCase t) = tokenize t)
    by (unfold tokenize; now rewrite toLowerCase_idempotent).
  split.
  - now rewrite !analyzeSentiment_counts, Htok.
  - now rewrite !extractKeywords_filter, Htok.
Qed.

(** X4. The sentiment has the sign of the difference of the two hit counts:
    positive or somewhat positive exactly when the positive words outnumber
    the negative ones, negative or somewhat negative exactly when the
    negative words outnumber the positive ones, and neutral exactly when the
    counts are equal (so also for a text with no lexicon word at all). *)
Theorem sentiment_follows_the_majority (t : jsstring) :
  let p := hits positiveWords (tokenize t) in
  let n := hits negativeWords (tokenize t) in
  let s := analyzeSentiment (Some t) in
  (s = positive \/ s = somewhat_positive <-> n < p)
  /\ (s = negative \/ s = somewhat_negative <-> p < n)
  /\ (s = neutral <-> p = n).
Proof.
  cbv zeta. rewrite analyzeSentiment_counts. unfold verdict.
  set (p := hits positiveWords (tokenize t)). set (n := hits negativeWords (tokenize t)).
  destruct (Nat.ltb_spec (n * 2) p).
  { repeat split; intros; try lia; try tauto;
      repeat match goal with H : _ \/ _ |- _ => destruct H end; try discriminate; lia. }
  destruct (Nat.ltb_spec (p * 2) n).
  { repeat split; intros; try lia; try tauto;
      repeat match goal with H : _ \/ _ |- _ => destruct H end; try discriminate; lia. }
  destruct (Nat.ltb_spec n p).
  { repeat split; intros; try lia; try tauto;
      repeat match goal with H : _ \/ _ |- _ => destruct H end; try discriminate; lia. }
  destruct (Nat.ltb_spec p n).
  { repeat split; intros; try lia; try tauto;
      repeat match goal with H : _ \/ _ |- _ => destruct H end; try discriminate; lia. }
  repeat split; intros; try lia; try tauto;
    repeat match goal with H : _ \/ _ |- _ => destruct H end; try discriminate; lia.
Qed.

Section WordOrder.

Lemma filter_perm {A} (f : A -> bool) (l l' : list A) :
  Permutation l l' -> Permutation (filter f l) (filter f l').
Proof.
  intros H. induction H; cbn [filter].
  - constructor.
  - destruct (f x); [now constructor | assumption].
  - destruct (f x), (f y); try reflexivity. apply perm_swap.
  - etransitivity; eassumption.
Qed.

End WordOrder.

(** X5. The order of the words does not matter: two texts whose tokens are
    rearrangements of each other get the same sentiment, and keywords that
    are rearrangements of each other. *)
Theorem sentiment_ignores_word_order (a b : jsstring) :
  Permutation (tokenize a) (tokenize b) ->
  analyzeSentiment (Some a) = analyzeSentiment (Some b)
  /\ Permutation (extractKeywords (Some a)) (extractKeywords (Some b)).
Proof.
  intros Hperm. split.
  - rewrite !analyzeSentiment_counts. unfold hits.
    now rewrite !(Permutation_length (filter_perm _ _ _ Hperm)).
  - rewrite !extractKeywords_filter. now apply filter_perm.
Qed.

Lemma sentiment_ignores_word_order_witness :
  analyzeSentiment (Some (ofString "terrible, not great"))
  = analyzeSentiment (Some (ofString "not great, terrible")).
Proof.
  assert (Hperm : Permutation (tokenize (ofString "terrible, not great"))
                              (tokenize (ofString "not great, terrible"))).
  { vm_compute.
    apply (perm_trans (perm_swap _ _ _)). apply perm_skip. apply perm_swap. }
  exact (proj1 (sentiment_ignores_word_order _ _ Hperm)).
Defined.

(** ** More on frequency tables *)

Section TallyMore.

Lemma list_sum_perm (l l' : list nat) :
  Permutation l l' -> list_sum l = list_sum l'.
Proof.
  intros H. unfold list_sum. induction H; cbn [fold_right]; lia.
Qed.

Lemma totalCount_entries (o : jsobject value) : totalCount (entries o) = totalCount o.
Proof.
  unfold totalCount. apply list_sum_perm. apply Permutation_map. apply entries_perm.
Qed.

Lemma totalCount_put (o : jsobject value) (k : string) (v : value) :
  totalCount (put o k v) + match own o k with Some w => countOf w | None => 0 end
  = totalCount o + countOf v.
Proof.
  unfold totalCount, list_sum.
  induction o as [| [k0 v0] o IH]; cbn [put own map fold_right snd].
  - lia.
  - destruct (String.eqb k k0); cbn [map fold_right snd]; lia.
Qed.

Lemma numeric_put (o : jsobject value) (k : string) (n : nat) :
  numeric o -> numeric (put o k (VNum n)).
Proof.
  unfold numeric. induction o as [| [k0 v0] o IH]; cbn [put]; intros H.
  - constructor; [now exists n | constructor].
  - inversion H as [| ? ? Hv Ho]; subst.
    destruct (String.eqb k k0); constructor; try assumption.
    + now exists n.
    + now apply IH.
Qed.

Lemma numeric_own (o : jsobject value) (k : string) (v : value) :
  numeric o -> own o k = Some v -> exists n, v = VNum n.
Proof.
  unfold numeric. induction o as [| [k0 v0] o IH]; cbn [own]; intros H Hown.
  - discriminate.
  - inversion H as [| ? ? Hv Ho]; subst.
    destruct (String.eqb k k0); [injection Hown as <-; exact Hv | now apply IH].
Qed.

Lemma tally_step_plain (o : jsobject value) (x : string) :
  prototypeName x = false -> numeric o ->
  numeric (assign o x (bump o x))
  /\ totalCount (assign o x (bump o x)) = totalCount o + 1.
Proof.
  intros Hplain Hnum. apply prototypeName_false in Hplain. destruct Hplain as [Hc Hp].
  unfold assign. rewrite (proj2 (String.eqb_neq _ _) Hp).
  pose proof (totalCount_put o x (bump o x)) as Hput.
  unfold bump in *. destruct (own o x) as [v |] eqn:Hown.
  - destruct (numeric_own o x v Hnum Hown) as [n ->].
    split; [now apply numeric_put |]. cbn [countOf] in Hput. lia.
  - rewrite (proj2 (String.eqb_neq _ _) Hc), (proj2 (String.eqb_neq _ _) Hp) in *.
    split; [now apply numeric_put |]. cbn [countOf] in Hput. lia.
Qed.

Lemma tally_conserves (o : jsobject value) (xs : list string) :
  Forall (fun x => prototypeName x = false) xs -> numeric o ->
  numeric (tally o xs) /\ totalCount (tally o xs) = totalCount o + List.length xs.
Proof.
  unfold tally. intros Hxs. revert o.
  induction Hxs as [| x xs Hx _ IH]; intros o Hnum; cbn [fold_left List.length].
  - split; [exact Hnum | lia].
  - destruct (tally_step_plain o x Hx Hnum) as [Hnum' Hsum'].
    destruct (IH _ Hnum') as [Hn Hs]. split; [exact Hn | lia].
Qed.

Lemma keys_assign (o : jsobject value) (k : string) (v : value) :
  k <> "__proto__" ->
  map fst (assign o k v)
  = if in_dec string_dec k (map fst o) then map fst o else map fst o ++ [k].
Proof.
  intros Hp. unfold assign. rewrite (proj2 (String.eqb_neq _ _) Hp).
  destruct (in_dec string_dec k (map fst o)).
  - now apply keys_put_old.
  - now apply keys_put_new.
Qed.

Lemma keys_tally_first_occurrences (xs : list string) :
  ~ In "__proto__" xs -> map fst (tally [] xs) = firstOccurrences xs.
Proof.
  unfold firstOccurrences. induction xs as [| x ys IH] using rev_ind; intros Hp.
  - reflexivity.
  - unfold tally in *. rewrite fold_left_app. cbn [fold_left].
    assert (Hx : x <> "__proto__") by (intros ->; apply Hp, in_or_app; right; now left).
    assert (Hys : ~ In "__proto__" ys) by (intros H; apply Hp, in_or_app; now left).
    rewrite keys_assign by exact Hx. rewrite (IH Hys).
    rewrite rev_app_distr. cbn [rev app nodup].
    destruct (in_dec string_dec x (rev ys)) as [Hin | Hout];
      destruct (in_dec string_dec x (rev (nodup string_dec (rev ys)))) as [Hin' | Hout'].
    + reflexivity.
    + exfalso. apply Hout'. rewrite <- in_rev. now apply nodup_In.
    + exfalso. apply Hout. rewrite <- in_rev in Hin'. now apply nodup_In in Hin'.
    + reflexivity.
Qed.

Lemma count_occ_flat_map_filter (f : processedReview -> bool)
    (prs : list processedReview) (k : string) :
  count_occ string_dec (flat_map p_keywords (filter f prs)) k
  <= count_occ string_dec (flat_map p_keywords prs) k.
Proof.
  induction prs as [| r prs IH]; [reflexivity |].
  cbn [filter flat_map]. destruct (f r); cbn [flat_map]; rewrite ?count_occ_app; lia.
Qed.

End TallyMore.

Section Stable.

Lemma withCount_insertSorted (c : nat) (a : string * value) (l : list (string * value)) :
  numeric (a :: l) ->
  withCount c (insertSorted a l) = withCount c (a :: l).
Proof.
  unfold withCount. intros Hnum. induction l as [| b l IH]; [reflexivity |].
  inversion Hnum as [| ? ? Ha Hbl]; subst. inversion Hbl as [| ? ? Hb Hl]; subst.
  cbn [insertSorted]. destruct (keepsOrder a b) eqn:Hk; [reflexivity |].
  cbn [filter]. rewrite IH by now constructor. cbn [filter].
  assert (Hlt : countOf (snd a) < countOf (snd b)).
  { destruct (Nat.le_gt_cases (countOf (snd b)) (countOf (snd a))) as [Hle | Hgt];
      [| exact Hgt].
    apply (keepsOrder_numeric a b Ha Hb) in Hle. congruence. }
  destruct (Nat.eqb_spec (countOf (snd a)) c), (Nat.eqb_spec (countOf (snd b)) c);
    try reflexivity. lia.
Qed.

Lemma sortByCount_stable (c : nat) (l : list (string * value)) :
  numeric l -> withCount c (sortByCount l) = withCount c l.
Proof.
  unfold sortByCount. induction l as [| a l IH]; intros Hnum; [reflexivity |].
  inversion Hnum as [| ? ? Ha Hl]; subst. cbn [fold_right].
  rewrite withCount_insertSorted.
  - unfold withCount in *. cbn [filter]. now rewrite IH.
  - constructor; [exact Ha |].
    apply (Forall_perm _ l); [symmetry; apply sortByCount_perm | exact Hl].
Qed.

End Stable.

(** ** The keyword tables of the report *)

Section TopTwenty.

Lemma totalCount_firstn (n : nat) (l : list (string * value)) :
  totalCount (firstn n l) <= totalCount l.
Proof.
  unfold totalCount, list_sum. revert n.
  induction l as [| a l IH]; intros [| n]; cbn [firstn map fold_right]; try lia.
  specialize (IH n). lia.
Qed.

Lemma top_as_firstn (n : nat) (xs : list string) :
  Forall (fun x => prototypeName x = false) xs ->
  top n (entries (tally [] xs)) = firstn n (sortByCount (entries (tally [] xs))).
Proof.
  intros Hplain. destruct (entries_tally xs Hplain) as [Hnd Hentries].
  pose proof (sortByCount_perm (entries (tally [] xs))) as Hperm.
  unfold top. apply fromEntries_id.
  - rewrite <- firstn_map. apply NoDup_firstn.
    apply (Permutation_NoDup (l := map fst (entries (tally [] xs)))); [| exact Hnd].
    apply Permutation_map. now symmetry.
  - intros Hin. apply in_map_iff in Hin. destruct Hin as [[k v] [Hk Hkv]].
    cbn [fst] in Hk. subst k. apply firstn_incl in Hkv.
    apply (Permutation_in _ Hperm) in Hkv. apply Hentries in Hkv.
    destruct Hkv as [Hin _].
    pose proof (proj1 (Forall_forall _ _) Hplain _ Hin) as Hp. discriminate Hp.
Qed.

End TopTwenty.

(** X6. When no keyword is a property name of [Object.prototype], the
    counts of the full keyword frequency table add up to the number of
    keyword occurrences in all reviews; the table of the report, cut at 20
    keywords, accounts for at most that many, and for all of them when there
    are at most 20 distinct keywords. *)
Theorem keyword_counts_add_up (c : clock) (pf : platform) (reviews : list review) :
  plainKeywords reviews = true ->
  let occurrences := List.length (flat_map (fun r => extractKeywords (text r)) reviews) in
  let full := entries (keywordFrequency (processReviews pf reviews)) in
  let reported := a_keywordFrequency (analysisOf (analyzeReviews c pf reviews)) in
  totalCount full = occurrences
  /\ totalCount reported <= occurrences
  /\ (List.length full <= 20 -> totalCount reported = occurrences).
Proof.
  intros Hplain. cbv zeta. apply plainKeywords_Forall in Hplain.
  cbn [analyzeReviews analysisOf a_keywordFrequency].
  unfold topKeywords, keywordFrequency. rewrite allKeywords_processReviews.
  set (xs := flat_map (fun r => extractKeywords (text r)) reviews) in *.
  destruct (tally_conserves [] xs Hplain ltac:(constructor)) as [_ Hsum].
  rewrite totalCount_entries, Hsum. cbn [totalCount map list_sum Nat.add].
  split; [reflexivity |].
  rewrite (top_as_firstn 20 xs Hplain).
  assert (Hsorted : totalCount (sortByCount (entries (tally [] xs))) = List.length xs).
  { unfold totalCount. rewrite (list_sum_perm _ _
      (Permutation_map _ (sortByCount_perm (entries (tally [] xs))))).
    fold (totalCount (entries (tally [] xs))). now rewrite totalCount_entries. }
  split.
  - rewrite <- Hsorted. apply totalCount_firstn.
  - intros Hlen. rewrite firstn_all2; [exact Hsorted |].
    now rewrite (Permutation_length (sortByCount_perm _)).
Qed.

Lemma keyword_counts_add_up_witness :
  totalCount (a_keywordFrequency
                (analysisOf (analyzeReviews (utc 0) android
                               [mkReview "Great design, great colours" 5 0;
                                mkReview "Terrible design" 1 0])))
  = 6.
Proof.
  pose proof (keyword_counts_add_up (utc 0) android
                [mkReview "Great design, great colours" 5 0;
                 mkReview "Terrible design" 1 0] eq_refl) as H.
  cbv zeta in H. destruct H as [_ [_ H]].
  etransitivity; [apply H; vm_compute; lia | reflexivity].
Defined.

(** X7. The keys of the keyword frequency table come in the order in which
    the keywords are first met in the reviews, when no keyword is
    [__proto__] and none is an array index (a canonical decimal numeral,
    which [Object.entries] would move to the front). *)
Theorem keywords_in_discovery_order (pf : platform) (reviews : list review) :
  let kws := flat_map (fun r => extractKeywords (text r)) reviews in
  ~ In "__proto__" kws ->
  Forall (fun k => arrayIndex k = None) kws ->
  keys (keywordFrequency (processReviews pf reviews)) = firstOccurrences kws.
Proof.
  cbv zeta. intros Hp Hidx. unfold keywordFrequency.
  rewrite allKeywords_processReviews.
  set (xs := flat_map (fun r => extractKeywords (text r)) reviews) in *.
  unfold keys. rewrite entries_no_index; [now apply keys_tally_first_occurrences |].
  apply Forall_forall. intros kv Hkv. unfold isIndex.
  assert (Hk : In (fst kv) xs).
  { pose proof (in_map fst _ _ Hkv) as Hin. apply In_keys_tally in Hin.
    cbn [map In] in Hin. tauto. }
  now rewrite (proj1 (Forall_forall _ _) Hidx _ Hk).
Qed.

Lemma keywords_in_discovery_order_witness :
  keys (keywordFrequency
          (processReviews ios [mkReview "Zebra crossing, apple pie" 4 0;
                               mkReview "Apple crossing" 3 0]))
  = ["zebra"; "crossing"; "apple"].
Proof.
  assert (H1 : ~ In "__proto__"
                 (flat_map (fun r => extractKeywords (text r))
                    [mkReview "Zebra crossing, apple pie" 4 0;
                     mkReview "Apple crossing" 3 0])).
  { vm_compute. intros [H | [H | [H | [H | [H | []]]]]]; discriminate H. }
  assert (H2 : Forall (fun k => arrayIndex k = None)
                 (flat_map (fun r => extractKeywords (text r))
                    [mkReview "Zebra crossing, apple pie" 4 0;
                     mkReview "Apple crossing" 3 0])).
  { apply Forall_forall. intros k Hk. vm_compute in Hk.
    destruct Hk as [<- | [<- | [<- | [<- | [<- | []]]]]]; reflexivity. }
  pose proof (keywords_in_discovery_order ios
                [mkReview "Zebra crossing, apple pie" 4 0;
                 mkReview "Apple crossing" 3 0] H1 H2) as H.
  etransitivity; [exact H | vm_compute; reflexivity].
Defined.

Lemma filter_firstn {A} (f : A -> bool) (n : nat) (l : list A) :
  exists k, filter f (firstn n l) = firstn k (filter f l).
Proof.
  revert n. induction l as [| a l IH]; intros [| n]; cbn [firstn filter];
    try (now exists 0).
  destruct (IH n) as [k Hk]. destruct (f a).
  - exists (S k). cbn [firstn]. now rewrite Hk.
  - now exists k.
Qed.

(** X8. Ties are broken by the order of the table: among the keywords with
    one and the same count, the keyword frequency table of the report holds
    the first ones of the full table, in the order they have there (the sort
    is stable, and the cut at 20 takes a prefix), when no keyword is a
    property name of [Object.prototype]. *)
Theorem ties_keep_the_table_order
    (c : clock) (pf : platform) (reviews : list review) (count : nat) :
  plainKeywords reviews = true ->
  exists k,
    withCount count (a_keywordFrequency (analysisOf (analyzeReviews c pf reviews)))
    = firstn k (withCount count
                  (entries (keywordFrequency (processReviews pf reviews)))).
Proof.
  intros Hplain. apply plainKeywords_Forall in Hplain.
  cbn [analyzeReviews analysisOf a_keywordFrequency].
  unfold topKeywords, keywordFrequency. rewrite allKeywords_processReviews.
  rewrite (top_as_firstn 20 _ Hplain).
  destruct (entries_tally _ Hplain) as [_ Hentries].
  set (table := entries (tally [] (flat_map (fun r => extractKeywords (text r)) reviews)))
    in *.
  assert (Hnum : numeric table).
  { apply Forall_forall. intros [k v] Hkv. apply Hentries in Hkv.
    destruct Hkv as [_ ->]. now eexists. }
  destruct (filter_firstn (fun kv => countOf (snd kv) =? count) 20 (sortByCount table))
    as [k Hk].
  exists k. unfold withCount in *. rewrite Hk. f_equal.
  exact (sortByCount_stable count table Hnum).
Qed.

Lemma ties_keep_the_table_order_witness :
  exists k,
    withCount 1 (a_keywordFrequency
                   (analysisOf (analyzeReviews (utc 0) ios
                                  [mkReview "Slow login, slow sync" 2 0])))
    = firstn k (withCount 1
                  (entries (keywordFrequency
                              (processReviews ios
                                 [mkReview "Slow login, slow sync" 2 0])))).
Proof.
  assert (Hplain : plainKeywords [mkReview "Slow login, slow sync" 2 0] = true)
    by (vm_compute; reflexivity).
  exact (ties_keep_the_table_order (utc 0) ios [mkReview "Slow login, slow sync" 2 0]
           1 Hplain).
Defined.

(** X9. When no keyword is a property name of [Object.prototype], the
    keyword frequency table of the report holds the 20 keywords with the
    largest frequencies over all reviews (all of them when there are fewer),
    each with its frequency, created in descending order of frequency. *)
Theorem top_twenty_keywords (c : clock) (pf : platform) (reviews : list review) :
  plainKeywords reviews = true ->
  exists candidates,
    (forall k v, In (k, v) candidates
                 <-> (exists r, In r reviews /\ In k (extractKeywords (text r)))
                     /\ v = VNum (frequency reviews k))
    /\ NoDup (map fst candidates)
    /\ TopByCount 20 candidates
         (a_keywordFrequency (analysisOf (analyzeReviews c pf reviews))).
Proof.
  intros Hplain. apply plainKeywords_Forall in Hplain.
  exists (entries (keywordFrequency (processReviews pf reviews))).
  cbn [analyzeReviews analysisOf a_keywordFrequency].
  unfold topKeywords, keywordFrequency. rewrite allKeywords_processReviews.
  destruct (entries_tally _ Hplain) as [Hnd Hentries].
  split; [| split; [exact Hnd |]].
  - intros k v. rewrite Hentries, in_flat_map. unfold frequency. tauto.
  - apply (top_of_counts 20 _ _ Hplain); [tauto | exact Hnd].
Qed.

Lemma top_twenty_keywords_witness :
  exists candidates,
    NoDup (map fst candidates)
    /\ TopByCount 20 candidates
         (a_keywordFrequency
            (analysisOf (analyzeReviews (utc 0) ios [mkReview "Great design" 5 0]))).
Proof.
  destruct (top_twenty_keywords (utc 0) ios [mkReview "Great design" 5 0] eq_refl)
    as [candidates [_ H]].
  exists candidates. exact H.
Defined.

(** X10. When no keyword is a property name of [Object.prototype], every
    entry of the recent issues table is a count, its keyword is a key of the
    full keyword frequency table, and its count is at most the frequency of
    the keyword over all reviews. *)
Theorem recent_issues_within_frequencies
    (c : clock) (pf : platform) (reviews : list review) (k : string) (v : value) :
  plainKeywords reviews = true ->
  In (k, v) (a_recentIssues (analysisOf (analyzeReviews c pf reviews))) ->
  exists n,
    v = VNum n
    /\ 1 <= n <= frequency reviews k
    /\ own (keywordFrequency (processReviews pf reviews)) k
       = Some (VNum (frequency reviews k)).
Proof.
  intros Hplain Hin.
  pose proof (kept_keywords_plain c pf reviews Hplain) as Hkept.
  apply plainKeywords_Forall in Hplain.
  cbn [analyzeReviews analysisOf a_recentIssues] in Hin.
  unfold topRecentIssues, recentIssuesFrequency in Hin.
  rewrite (top_as_firstn 10 _ Hkept) in Hin. apply firstn_incl in Hin.
  apply (Permutation_in _ (sortByCount_perm _)) in Hin.
  destruct (entries_tally _ Hkept) as [_ Hentries].
  apply Hentries in Hin. destruct Hin as [Hk ->].
  exists (count_occ string_dec
            (flat_map p_keywords (recentNegativeReviews c (processReviews pf reviews))) k).
  split; [reflexivity |].
  assert (Hle : count_occ string_dec
                  (flat_map p_keywords
                     (recentNegativeReviews c (processReviews pf reviews))) k
                <= frequency reviews k).
  { unfold frequency. rewrite <- (allKeywords_processReviews pf reviews).
    apply count_occ_flat_map_filter. }
  pose proof (proj1 (count_occ_In string_dec _ k) Hk) as Hpos.
  split; [lia |].
  unfold keywordFrequency. rewrite own_tally_plain.
  - rewrite (allKeywords_processReviews pf reviews). fold (frequency reviews k).
    cbn [own addCount]. destruct (frequency reviews k) eqn:E; [lia | reflexivity].
  - apply (proj1 (Forall_forall _ _) Hkept _ Hk).
  - discriminate.
Qed.

Lemma recent_issues_within_frequencies_witness :
  exists n,
    VNum 1 = VNum n
    /\ 1 <= n <= frequency [mkReview "Terrible crash" 1 90; mkReview "Great, crash fixed" 4 0]
                           "crash".
Proof.
  assert (Hin : In ("crash", VNum 1)
                  (a_recentIssues
                     (analysisOf
                        (analyzeReviews (utc 100) android
                           [mkReview "Terrible crash" 1 90;
                            mkReview "Great, crash fixed" 4 0])))).
  { vm_compute. auto 10. }
  assert (Hplain : plainKeywords [mkReview "Terrible crash" 1 90;
                                  mkReview "Great, crash fixed" 4 0] = true).
  { vm_compute. reflexivity. }
  destruct (recent_issues_within_frequencies (utc 100) android
              [mkReview "Terrible crash" 1 90; mkReview "Great, crash fixed" 4 0]
              "crash" (VNum 1) Hplain Hin) as [n [Hv [Hn _]]].
  exists n. exact (conj Hv Hn).
Defined.

(** X11. Themes are never lost by adding reviews: a theme detected for a
    collection is detected for every collection that contains its
    reviews. *)
Theorem themes_grow_with_the_reviews
    (c : clock) (pf : platform) (reviews more : list review) (name : string) :
  incl reviews more ->
  In name (map theme (a_commonThemes (analysisOf (analyzeReviews c pf reviews)))) ->
  In name (map theme (a_commonThemes (analysisOf (analyzeReviews c pf more)))).
Proof.
  intros Hincl. cbn [analyzeReviews analysisOf a_commonThemes].
  assert (Hmono : forall trigger,
             hasTheme trigger (keywordFrequency (processReviews pf reviews)) = true ->
             hasTheme trigger (keywordFrequency (processReviews pf more)) = true).
  { intros trigger. rewrite !hasTheme_spec. intros [kw [w [Hkw H]]].
    exists kw, w. split; [| exact H].
    apply In_keys_keywordFrequency in Hkw. apply In_keys_keywordFrequency.
    destruct Hkw as [Hp [r [Hr Hk]]]. split; [exact Hp |].
    exists r. split; [now apply Hincl | exact Hk]. }
  destruct (commonThemes_names (keywordFrequency (processReviews pf reviews)))
    as [Hb [Hp Hu]].
  destruct (commonThemes_names (keywordFrequency (processReviews pf more)))
    as [Hb' [Hp' Hu']].
  intros Hin.
  assert (Hname : name = "Stability Issues" \/ name = "Pricing Concerns"
                  \/ name = "User Experience").
  { unfold commonThemes in Hin.
    destruct (hasTheme bugKeywords _), (hasTheme pricingKeywords _),
      (hasTheme uxKeywords _); cbn in Hin; intuition auto. }
  destruct Hname as [-> | [-> | ->]].
  - apply Hb', Hmono, Hb, Hin.
  - apply Hp', Hmono, Hp, Hin.
  - apply Hu', Hmono, Hu, Hin.
Qed.

Lemma themes_grow_with_the_reviews_witness :
  In "Pricing Concerns"
     (map theme (a_commonThemes
                   (analysisOf (analyzeReviews (utc 0) ios
                                  [mkReview "Nice" 5 0; mkReview "Too expensive" 2 0])))).
Proof.
  apply (themes_grow_with_the_reviews (utc 0) ios [mkReview "Too expensive" 2 0]
           [mkReview "Nice" 5 0; mkReview "Too expensive" 2 0]).
  - intros r [<- | []]. right. now left.
  - vm_compute. auto 10.
Defined.

Section Reordering.

Lemma countIf_perm {A} (f : A -> bool) (l l' : list A) :
  Permutation l l' -> countIf f l = countIf f l'.
Proof.
  unfold countIf. intros H. induction H; cbn [filter].
  - reflexivity.
  - destruct (f x); cbn [List.length]; lia.
  - destruct (f x), (f y); reflexivity.
  - lia.
Qed.

Lemma hasTheme_perm (trigger : list string) (pf : platform) (l l' : list review) :
  Permutation l l' ->
  hasTheme trigger (keywordFrequency (processReviews pf l))
  = hasTheme trigger (keywordFrequency (processReviews pf l')).
Proof.
  intros H. apply eq_true_iff_eq. rewrite !hasTheme_spec.
  split; intros [kw [w [Hkw Hw]]]; exists kw, w; (split; [| exact Hw]);
    apply In_keys_keywordFrequency in Hkw; apply In_keys_keywordFrequency;
    destruct Hkw as [Hp [r [Hr Hk]]]; (split; [exact Hp |]); exists r;
    (split; [| exact Hk]).
  - exact (Permutation_in r H Hr).
  - exact (Permutation_in r (Permutation_sym H) Hr).
Qed.

End Reordering.

(** X12. The order of the reviews does not matter for the sentiment
    breakdown, the rating distribution, the themes and the number of reviews
    analyzed: two collections with the same reviews in another order get the
    same values.  (The keyword tables do depend on the order, through the
    order of equally frequent keywords.) *)
Theorem aggregates_ignore_the_order
    (c : clock) (pf : platform) (reviews reviews' : list review) :
  Permutation reviews reviews' ->
  let a := analyzeReviews c pf reviews in
  let a' := analyzeReviews c pf reviews' in
  totalReviewsAnalyzed a = totalReviewsAnalyzed a'
  /\ a_sentimentBreakdown (analysisOf a) = a_sentimentBreakdown (analysisOf a')
  /\ a_ratingDistribution (analysisOf a) = a_ratingDistribution (analysisOf a')
  /\ a_commonThemes (analysisOf a) = a_commonThemes (analysisOf a').
Proof.
  intros Hperm. cbv zeta. cbn [analyzeReviews analysisOf totalReviewsAnalyzed
    a_sentimentBreakdown a_ratingDistribution a_commonThemes].
  assert (Hlen : List.length (processReviews pf reviews)
                 = List.length (processReviews pf reviews')).
  { unfold processReviews. rewrite !length_map. now apply Permutation_length. }
  assert (Hpp : Permutation (processReviews pf reviews) (processReviews pf reviews'))
    by now apply Permutation_map.
  split; [exact Hlen |]. split; [| split].
  - rewrite !sentimentBreakdown_cells, Hlen. apply map_ext. intros s.
    now rewrite (countIf_perm _ _ _ Hpp).
  - rewrite !ratingDistribution_counts. f_equal; now apply countIf_perm.
  - unfold commonThemes.
    now rewrite !(hasTheme_perm _ pf reviews reviews' Hperm).
Qed.

Lemma aggregates_ignore_the_order_witness :
  a_ratingDistribution
    (analysisOf (analyzeReviews (utc 0) ios [mkReview "Nice" 5 0; mkReview "Bad" 1 0]))
  = a_ratingDistribution
      (analysisOf (analyzeReviews (utc 0) ios [mkReview "Bad" 1 0; mkReview "Nice" 5 0])).
Proof.
  pose proof (aggregates_ignore_the_order (utc 0) ios
                [mkReview "Nice" 5 0; mkReview "Bad" 1 0]
                [mkReview "Bad" 1 0; mkReview "Nice" 5 0]
                (perm_swap _ _ _)) as H.
  cbv zeta in H. exact (proj1 (proj2 (proj2 H))).
Defined.

Section TableKeys.

Lemma In_keys_fold_assign {V} (l acc : jsobject V) (k : string) :
  In k (map fst (fold_left (fun obj kv => assign obj (fst kv) (snd kv)) l acc)) ->
  In k (map fst acc) \/ In k (map fst l).
Proof.
  revert acc. induction l as [| [k' v'] l IH]; intros acc; cbn [fold_left map In fst snd].
  - tauto.
  - intros H. apply IH in H. rewrite In_keys_assign in H.
    destruct H as [[[-> _] | H] | H]; auto.
Qed.

Lemma In_top (n : nat) (l : list (string * value)) (kv : string * value) :
  In kv (top n l) -> In (fst kv) (map fst l).
Proof.
  intros H. apply (in_map fst) in H. unfold top, fromEntries in H.
  apply In_keys_fold_assign in H. destruct H as [[] | H].
  rewrite <- firstn_map in H. apply firstn_incl in H.
  revert H. apply Permutation_in. apply Permutation_map. apply sortByCount_perm.
Qed.

Lemma keyword_retained (r : review) (k : string) :
  In k (extractKeywords (text r)) -> retained k = true /\ lowerToken k = true.
Proof.
  destruct (text r) as [t |]; [| intros []].
  rewrite extractKeywords_filter, filter_In. intros [Hk Hr]. split; [exact Hr |].
  exact (proj1 (Forall_forall _ _) (tokenize_lower t) k Hk).
Qed.

End TableKeys.

(** X13. The four keyword tables of the report hold nothing but keywords:
    every key of the keyword frequency table, of the recent issues and of
    the top positive and top negative keywords is a keyword of some review,
    hence a word of lower-case letters, digits and underscores that is
    longer than three characters and is no stop word; [__proto__] is never a
    key. *)
Theorem report_tables_hold_keywords
    (c : clock) (pf : platform) (reviews : list review) (k : string) (v : value) :
  let a := analysisOf (analyzeReviews c pf reviews) in
  In (k, v) (a_keywordFrequency a) \/ In (k, v) (a_recentIssues a)
  \/ In (k, v) (a_topPositiveKeywords a) \/ In (k, v) (a_topNegativeKeywords a) ->
  (exists r, In r reviews /\ In k (extractKeywords (text r)))
  /\ retained k = true
  /\ lowerToken k = true
  /\ k <> "__proto__".
Proof.
  cbv zeta. cbn [analyzeReviews analysisOf a_keywordFrequency a_recentIssues
                   a_topPositiveKeywords a_topNegativeKeywords].
  intros Hin.
  assert (Hkey : k <> "__proto__"
                 /\ exists r, In r reviews /\ In k (extractKeywords (text r))).
  { destruct Hin as [H | [H | [H | H]]]; apply In_top in H; cbn [fst] in H.
    - apply (proj1 (In_keys_keywordFrequency pf reviews k)). exact H.
    - unfold recentIssuesFrequency in H. apply In_keys, In_keys_tally in H.
      destruct H as [[] | [H Hne]]. split; [exact Hne |].
      apply in_flat_map in H. destruct H as [q [Hq Hk]].
      apply In_recentNegativeReviews in Hq. destruct Hq as [Hq _].
      unfold processReviews in Hq. apply in_map_iff in Hq.
      destruct Hq as [r [<- Hr]]. exists r. split; [exact Hr |]. now destruct pf.
    - apply in_map_iff in H. destruct H as [kv [Hk Hkv]].
      apply filter_In in Hkv. destruct Hkv as [Hkv _].
      apply (proj1 (In_keys_keywordFrequency pf reviews k)).
      unfold keys. rewrite <- Hk. now apply in_map.
    - apply in_map_iff in H. destruct H as [kv [Hk Hkv]].
      apply filter_In in Hkv. destruct Hkv as [Hkv _].
      apply (proj1 (In_keys_keywordFrequency pf reviews k)).
      unfold keys. rewrite <- Hk. now apply in_map. }
  destruct Hkey as [Hne [r [Hr Hk]]].
  destruct (keyword_retained r k Hk) as [Hret Hlow].
  split; [now exists r |]. now repeat split.
Qed.

Lemma report_tables_hold_keywords_witness :
  retained "crash" = true /\ lowerToken "crash" = true.
Proof.
  assert (H : In ("crash", VNum 1)
                 (a_recentIssues
                    (analysisOf (analyzeReviews (utc 100) android
                                   [mkReview "Terrible crash" 1 90])))).
  { vm_compute. auto 10. }
  destruct (report_tables_hold_keywords (utc 100) android
              [mkReview "Terrible crash" 1 90] "crash" (VNum 1)
              (or_intror (or_introl H))) as [_ [Hret [Hlow _]]].
  exact (conj Hret Hlow).
Defined.

(** ** Fetching the reviews *)

Section Comparison.

Local Open Scope Z_scope.

Lemma ofZ_0 : ofZ 0 = S754_zero false.
Proof. reflexivity. Qed.

(** Whole numbers below [2^53] compare as Numbers the way they compare as
    integers. *)
Lemma lessThan_ofZ (a b : Z) :
  0 <= a < 2 ^ 53 -> 0 <= b < 2 ^ 53 -> lessThan (ofZ a) (ofZ b) = (a <? b).
Proof.
  intros Ha Hb. unfold lessThan, SFltb.
  destruct (Z.eq_dec a 0) as [-> | Ha0]; destruct (Z.eq_dec b 0) as [-> | Hb0].
  - reflexivity.
  - destruct (ofZ_exact b ltac:(lia)) as [m [e [-> _]]]. rewrite ofZ_0.
    cbn. symmetry. apply Z.ltb_lt. lia.
  - destruct (ofZ_exact a ltac:(lia)) as [m [e [-> _]]]. rewrite ofZ_0.
    cbn. symmetry. apply Z.ltb_ge. lia.
  - destruct (ofZ_exact a ltac:(lia)) as [m1 [e1 [-> [He1 [Hm1 [Hc1 Hd1]]]]]].
    destruct (ofZ_exact b ltac:(lia)) as [m2 [e2 [-> [He2 [Hm2 [Hc2 Hd2]]]]]].
    pose proof (Zdigits2_bounds a ltac:(lia)) as [Hal Hah].
    pose proof (Zdigits2_bounds b ltac:(lia)) as [Hbl Hbh].
    cbn [SFcompare]. destruct (Z.compare_spec e1 e2) as [Heq | Hlt | Hgt].
    + rewrite <- Heq in Hm2.
      assert (HP : 0 < 2 ^ (- e1)) by (apply Z.pow_pos_nonneg; lia).
      set (P := 2 ^ (- e1)) in *.
      rewrite Pos.compare_cont_spec.
      destruct (Pos.compare_spec m1 m2) as [H | H | H]; cbn [Pos.switch_Eq];
        symmetry; [apply Z.ltb_ge | apply Z.ltb_lt | apply Z.ltb_ge].
      * assert (a * P = b * P) by (rewrite <- Hm1, <- Hm2; now subst m2). nia.
      * assert (a * P < b * P) by (rewrite <- Hm1, <- Hm2; lia). nia.
      * assert (b * P < a * P) by (rewrite <- Hm1, <- Hm2; lia). nia.
    + symmetry. apply Z.ltb_lt.
      assert (2 ^ Zdigits2 a <= 2 ^ (Zdigits2 b - 1)) by (apply Z.pow_le_mono_r; lia).
      lia.
    + symmetry. apply Z.ltb_ge.
      assert (2 ^ Zdigits2 b <= 2 ^ (Zdigits2 a - 1)) by (apply Z.pow_le_mono_r; lia).
      lia.
Qed.

(** Nothing is below a Number that is [NaN], a zero or negative. *)
Lemma lessThan_ofNat_positive (n : nat) (x : number) :
  Z.of_nat n < 2 ^ 53 -> lessThan (ofNat n) x = true -> lessThan (ofZ 0) x = true.
Proof.
  intros Hn. unfold ofNat. destruct (Z.eq_dec (Z.of_nat n) 0) as [-> | H0];
    [trivial |].
  destruct (ofZ_exact (Z.of_nat n) ltac:(lia)) as [m [e [-> _]]]. rewrite ofZ_0.
  unfold lessThan, SFltb. destruct x as [s | s | | s m' e']; cbn; try congruence;
    destruct s; congruence.
Qed.

Lemma sliceTo_ofNat {A} (l : list A) (n : nat) :
  Z.of_nat n < 2 ^ 53 -> sliceTo l (ofNat n) = firstn n l.
Proof.
  intros Hn. unfold ofNat. destruct n as [| n']; [reflexivity |].
  destruct (ofZ_exact (Z.of_nat (S n')) ltac:(lia)) as [m [e [-> [He [Hm _]]]]].
  unfold sliceTo.
  assert (Hk : Z.shiftl (Zpos m) e = Z.of_nat (S n')).
  { rewrite <- (Z.opp_involutive e) at 1. rewrite Z.shiftl_opp_r.
    rewrite Z.shiftr_div_pow2 by lia. rewrite Hm.
    apply Z.div_mul. apply Z.pow_nonzero; lia. }
  rewrite Hk, Nat2Z.id. reflexivity.
Qed.

Lemma sliceTo_nil {A} (x : number) : sliceTo (@nil A) x = [].
Proof.
  destruct x as [s | s | | s m e]; try reflexivity; [now destruct s |].
  unfold sliceTo. destruct (Z.to_nat _); [reflexivity |].
  destruct s; now rewrite firstn_nil.
Qed.

Lemma sliceTo_length {A} (l : list A) (x : number) (k : Z) :
  floor x = Some k ->
  lessThan (ofZ 0) x = true \/ l = [] ->
  Z.of_nat (List.length (sliceTo l x)) <= Z.max 0 k.
Proof.
  intros Hk [Hpos | ->]; [| rewrite sliceTo_nil; cbn; lia].
  destruct x as [s | s | | s m e]; try discriminate.
  destruct s; [discriminate |].
  cbn [floor cond_Zopp] in Hk. injection Hk as <-. unfold sliceTo.
  destruct (Z.to_nat (Z.shiftl (Z.pos m) e)) as [| k'] eqn:Ek; [cbn; lia |].
  rewrite length_firstn. lia.
Qed.

End Comparison.

Section FetchFacts.

Context {World : Type} (scraper : scrapers World).
Context (appId : jsstring) (num : number) (country : jsstring) (sort : sortParam).

Lemma reviewsRequests_app (l l' : list event) :
  reviewsRequests (l ++ l') = reviewsRequests l ++ reviewsRequests l'.
Proof. apply flat_map_app. Qed.

Lemma appRequests_app (l l' : list event) :
  appRequests (l ++ l') = appRequests l ++ appRequests l'.
Proof. apply flat_map_app. Qed.

Lemma received_app (l l' : list event) :
  received (l ++ l') = received l ++ received l'.
Proof. apply flat_map_app. Qed.


Lemma fetchPage_spec (s : fetchState) (w : World) (calls : list event)
    (p : AppStore.reviewsParams) :
  1 <= page s <= 10 ->
  pagesInOrder appId country sort calls (page s - 1) ->
  allReviews s = received calls ->
  AppStore.page p = page s ->
  AppStore.sort p = appStoreSortType sort ->
  AppStore.reviews_country p = country ->
  (isNumericId appId = true -> AppStore.reviews_id p = appId) ->
  match fetchPage scraper s w calls p with
  | continues s' => loopInvariant appId country sort s' /\ page s' = S (page s)
  | breaks s' => loopResult appId country sort s'
  end.
Proof.
  intros Hpage [Hseq [Hreq [Happ [Hno Hnum]]]] Hall Hp Hs Hc Hid. unfold fetchPage.
  destruct (appStore_reviews scraper p w) as [o w'].
  assert (Horder : pagesInOrder appId country sort (calls ++ [reviewsCall p o]) (page s)).
  { unfold pagesInOrder.
    rewrite reviewsRequests_app, appRequests_app, map_app. cbn [reviewsRequests
      appRequests flat_map map app]. rewrite app_nil_r.
    split; [| split; [| split; [| split]]].
    - rewrite Hseq, Hp. destruct (page s) as [| n]; [lia |].
      rewrite Nat.sub_succ, Nat.sub_0_r, seq_S. reflexivity.
    - apply Forall_app. split; [exact Hreq |]. now repeat constructor.
    - exact Happ.
    - apply Forall_app. split; [exact Hno |]. now repeat constructor.
    - intros Hn. destruct (Hnum Hn) as [Hnone Hids]. split; [exact Hnone |].
      apply Forall_app. split; [exact Hids |]. repeat constructor. now apply Hid. }
  assert (Hstop : received (calls ++ [reviewsCall p o]) = received calls ->
                  loopResult appId country sort
                    {| page := page s; allReviews := allReviews s;
                       world := w'; trace := calls ++ [reviewsCall p o] |}).
  { intros Hrec. exists (page s). cbn [trace allReviews].
    split; [lia |]. split; [exact Horder |]. now rewrite Hrec. }
  destruct o as [[[| r rest] |] | e].
  - apply Hstop. rewrite received_app. cbn. now rewrite app_nil_r.
  - split; [| reflexivity]. unfold loopInvariant. cbn [page trace allReviews].
    split; [lia |]. split.
    + replace (S (page s) - 1) with (page s) by lia. exact Horder.
    + rewrite received_app, Hall. cbn. now rewrite app_nil_r.
  - apply Hstop. rewrite received_app. cbn. now rewrite app_nil_r.
  - apply Hstop. rewrite received_app. cbn. now rewrite app_nil_r.
Qed.

Lemma loopBody_spec (s : fetchState) :
  loopInvariant appId country sort s -> page s <= 10 ->
  match loopBody scraper appId country sort s with
  | continues s' => loopInvariant appId country sort s' /\ page s' = S (page s)
  | breaks s' => loopResult appId country sort s'
  end.
Proof.
  intros [Hpage [Horder Hall]] Hle. unfold loopBody.
  destruct (isNumericId appId) eqn:Hnumeric.
  - apply fetchPage_spec; trivial. lia.
  - destruct (appStore_app scraper _ (world s)) as [o w'].
    set (ev := appCall _ o).
    assert (Horder' : pagesInOrder appId country sort (trace s ++ [ev]) (page s - 1)).
    { destruct Horder as [Hseq [Hreq [Happ [Hno _]]]]. unfold pagesInOrder.
      rewrite reviewsRequests_app, appRequests_app. cbn [reviewsRequests appRequests
        flat_map ev app]. rewrite !app_nil_r.
      split; [| split; [| split; [| split]]]; trivial.
      - apply Forall_app. split; [exact Happ |]. now repeat constructor.
      - apply Forall_app. split; [exact Hno |]. now repeat constructor.
      - intros Hn. congruence. }
    assert (Hrec : received (trace s ++ [ev]) = received (trace s)).
    { rewrite received_app. cbn. now rewrite app_nil_r. }
    destruct o as [details | e].
    + apply fetchPage_spec; trivial; [lia | now rewrite Hrec | congruence].
    + exists (page s - 1). cbn [trace allReviews]. split; [lia |].
      split; [exact Horder' | now rewrite Hrec].
Qed.

(** The loop ends before its condition has been evaluated 12 times. *)
Lemma while_spec (fuel : nat) (s : fetchState) :
  loopInvariant appId country sort s -> 11 - page s < fuel ->
  exists s', while scraper appId num country sort fuel s = Some s' /\ loopResult appId country sort s'.
Proof.
  revert s. induction fuel as [| fuel IH]; intros s Hinv Hfuel; [lia |].
  cbn [while]. destruct (loopCondition num s) eqn:Hcond.
  - apply andb_prop in Hcond. destruct Hcond as [_ Hle]. apply Nat.leb_le in Hle.
    pose proof (loopBody_spec s Hinv Hle) as Hbody.
    destruct (loopBody scraper appId country sort s) as [s' | s'].
    + destruct Hbody as [Hinv' Hpage]. apply IH; [exact Hinv' | lia].
    + now exists s'.
  - exists s. split; [reflexivity |]. destruct Hinv as [Hpage [Horder Hall]].
    exists (page s - 1). split; [lia |]. now split.
Qed.

Lemma initial_invariant (w : World) :
  loopInvariant appId country sort {| page := 1; allReviews := []; world := w; trace := [] |}.
Proof.
  unfold loopInvariant, pagesInOrder. cbn. repeat split; auto; lia.
Qed.

End FetchFacts.

Section WholeNumber.

Context {World : Type} (scraper : scrapers World).
Context (appId : jsstring) (n : nat) (country : jsstring) (sort : sortParam).

Hypothesis n_small : (Z.of_nat n < 2 ^ 53)%Z.
Hypothesis pages_small :
  forall p w l w',
    appStore_reviews scraper p w = (fulfilled (Some l), w') ->
    (Z.of_nat (List.length l) < 2 ^ 28)%Z.

Lemma calledWhileShort_snoc (calls : list event) (ev : event) :
  calledWhileShort n calls -> List.length (received calls) < n ->
  calledWhileShort n (calls ++ [ev]).
Proof.
  intros Hcalls Hlen i Hi. rewrite length_app in Hi. cbn [List.length] in Hi.
  rewrite firstn_app.
  destruct (Nat.lt_ge_cases i (List.length calls)) as [Hlt | Hge].
  - replace (i - List.length calls) with 0 by lia. cbn [firstn].
    rewrite app_nil_r. now apply Hcalls.
  - replace (i - List.length calls) with 0 by lia. cbn [firstn].
    rewrite app_nil_r, firstn_all2 by lia. exact Hlen.
Qed.

Lemma fetchPage_whole (s : fetchState) (w : World) (calls : list event)
    (p : AppStore.reviewsParams) :
  1 <= page s <= 10 ->
  page s - 1 <= List.length (allReviews s) ->
  List.length (allReviews s) < n ->
  (Z.of_nat (List.length (allReviews s)) <= Z.of_nat (page s - 1) * 2 ^ 28)%Z ->
  List.length (reviewsRequests calls) = page s - 1 ->
  allReviews s = received calls ->
  calledWhileShort n calls ->
  match fetchPage scraper s w calls p with
  | continues s' => wholeInvariant n s'
  | breaks s' => wholeResult n s'
  end.
Proof.
  intros Hpage Hlo Hlt Hhi Hreq Hall Hshort. unfold fetchPage.
  destruct (appStore_reviews scraper p w) as [o w'] eqn:Hcall.
  assert (Hlen : List.length (reviewsRequests (calls ++ [reviewsCall p o])) = page s).
  { rewrite reviewsRequests_app, length_app, Hreq. cbn. lia. }
  assert (Hshort' : calledWhileShort n (calls ++ [reviewsCall p o])).
  { apply calledWhileShort_snoc; [exact Hshort | now rewrite <- Hall]. }
  assert (Hstop : received [reviewsCall p o] = [] ->
                  wholeResult n {| page := page s; allReviews := allReviews s;
                                   world := w'; trace := calls ++ [reviewsCall p o] |}).
  { intros Hnone. unfold wholeResult. cbn [trace].
    split; [lia |]. split; [exact Hshort' |].
    right. right. now exists calls, (reviewsCall p o). }
  destruct o as [[[| r rest] |] | e]; try (apply Hstop; reflexivity).
  pose proof (pages_small _ _ _ _ Hcall) as Hsmall.
  unfold wholeInvariant. cbn [page allReviews trace].
  rewrite length_app. cbn [List.length] in *.
  split; [lia |]. split; [lia |]. split; [lia |]. split.
  - replace (S (page s) - 1) with (S (page s - 1)) by lia. lia.
  - split; [lia |]. split; [| exact Hshort'].
    rewrite received_app, Hall. cbn. now rewrite app_nil_r.
Qed.

Lemma while_whole (fuel : nat) (s s' : fetchState) :
  wholeInvariant n s ->
  while scraper appId (ofNat n) country sort fuel s = Some s' ->
  wholeResult n s'.
Proof.
  revert s. induction fuel as [| fuel IH];
    intros s [Hpage [Hn [Hlo [Hhi [Hreq [Hall Hshort]]]]]]; [discriminate |].
  cbn [while]. destruct (loopCondition (ofNat n) s) eqn:Hcond.
  - apply andb_prop in Hcond. destruct Hcond as [Hlt Hle]. apply Nat.leb_le in Hle.
    unfold ofNat in Hlt. rewrite lessThan_ofZ in Hlt by lia.
    apply Z.ltb_lt in Hlt.
    assert (Hlt' : List.length (allReviews s) < n) by lia.
    unfold loopBody. destruct (isNumericId appId).
    + pose proof (fetchPage_whole s (world s) (trace s)
                    {| AppStore.reviews_id := appId; AppStore.page := page s;
                       AppStore.sort := appStoreSortType sort;
                       AppStore.reviews_country := country |}
                    ltac:(lia) Hlo Hlt' Hhi Hreq Hall Hshort) as Hbody.
      destruct (fetchPage _ _ _ _ _) as [s1 | s1].
      * now apply IH.
      * now intros [= <-].
    + destruct (appStore_app scraper _ (world s)) as [o w'].
      set (ev := appCall _ o).
      assert (Hrec : received (trace s ++ [ev]) = received (trace s)).
      { rewrite received_app. cbn. now rewrite app_nil_r. }
      assert (Hshort' : calledWhileShort n (trace s ++ [ev])).
      { apply calledWhileShort_snoc; [exact Hshort | now rewrite <- Hall]. }
      assert (Hreq' : List.length (reviewsRequests (trace s ++ [ev])) = page s - 1).
      { rewrite reviewsRequests_app, length_app, Hreq. cbn. lia. }
      destruct o as [details | e].
      * match goal with
        | |- context [fetchPage scraper s w' ?calls ?p] =>
            pose proof (fetchPage_whole s w' calls p ltac:(lia) Hlo Hlt' Hhi Hreq'
                          ltac:(now rewrite Hrec) Hshort') as Hbody
        end.
        destruct (fetchPage _ _ _ _ _) as [s1 | s1].
        -- now apply IH.
        -- now intros [= <-].
      * intros [= <-]. unfold wholeResult. cbn [trace].
        split; [lia |]. split; [exact Hshort' |].
        right. right. now exists (trace s), ev.
  - intros [= <-]. unfold wholeResult. split; [lia |]. split; [exact Hshort |].
    apply andb_false_iff in Hcond. destruct Hcond as [Hge | Hpast].
    + left. unfold ofNat in Hge. rewrite lessThan_ofZ in Hge by lia.
      apply Z.ltb_ge in Hge. rewrite <- Hall. lia.
    + right. left. apply Nat.leb_gt in Hpast. lia.
Qed.

End WholeNumber.

(** X14. On iOS the tool always answers, and never with the error object,
    whatever the scrapers do: its result is the analysis of the reviews of
    the pages it received, in the order of the pages, cut by
    [slice(0, num)].  The number of reviews analysed is at most [num] rounded
    down, and no call is made when [num] is not above zero. *)
Theorem ios_analysis_always_answers {World} (scraper : scrapers World)
    (appId : jsstring) (num : number) (country lang : jsstring) (sort : sortParam)
    (c : clock) (w : World) :
  exists w' calls,
    analyze_reviews scraper appId num country lang sort c ios w
    = Some (content appId ios (analyzeReviews c ios (sliceTo (received calls) num)),
            w', calls)
    /\ (forall k, floor num = Some k ->
                  (Z.of_nat (totalReviewsAnalyzed
                               (analyzeReviews c ios (sliceTo (received calls) num)))
                   <= Z.max 0 k)%Z)
    /\ (lessThan (ofZ 0) num = false -> calls = []).
Proof.
  assert (Htotal : forall l, totalReviewsAnalyzed (analyzeReviews c ios l) = List.length l).
  { intros l. cbn [analyzeReviews totalReviewsAnalyzed]. unfold processReviews.
    apply length_map. }
  unfold analyze_reviews.
  destruct (lessThan (ofZ 0) num) eqn:Hpos.
  - destruct (while_spec scraper appId num country sort 11 _ (initial_invariant appId country sort w))
      as [s [Hs [k [_ [_ Hall]]]]]; [cbn; lia |].
    rewrite Hs, Hall. exists (world s), (trace s).
    split; [reflexivity |]. split; [| discriminate].
    intros k' Hk'. rewrite Htotal. apply sliceTo_length; [exact Hk' | now left].
  - cbn [while]. unfold loopCondition. cbn [allReviews List.length].
    change (ofNat 0) with (ofZ 0). rewrite Hpos. cbn [andb allReviews world trace].
    exists w, []. split; [reflexivity |]. split; [| reflexivity].
    intros k' Hk'. rewrite Htotal. apply sliceTo_length; [exact Hk' | now right].
Qed.

(** X15. The calls of the iOS branch: at most ten pages of reviews are
    requested, the pages 1, 2, ... in this order, each with the country of
    the request and the sort order [HELPFUL] for [helpfulness] and [RECENT]
    for [newest] and for [rating] alike; the app is looked up under the
    [appId] and the country of the request, and only when the [appId] is not
    numeric; the other store is never called. *)
Theorem ios_requests_pages_in_order {World} (scraper : scrapers World)
    (appId : jsstring) (num : number) (country lang : jsstring) (sort : sortParam)
    (c : clock) (w w' : World) (r : toolResult) (calls : list event) :
  analyze_reviews scraper appId num country lang sort c ios w = Some (r, w', calls) ->
  exists k,
    k <= 10
    /\ map AppStore.page (reviewsRequests calls) = seq 1 k
    /\ Forall (fun p => AppStore.sort p = match sort with
                                          | helpfulness => AppStore.HELPFUL
                                          | _ => AppStore.RECENT
                                          end
                        /\ AppStore.reviews_country p = country)
              (reviewsRequests calls)
    /\ Forall (fun p => p = {| AppStore.appId := appId; AppStore.country := country |})
              (appRequests calls)
    /\ Forall (fun ev => match ev with gplayReviewsCall _ _ => False | _ => True end)
              calls
    /\ (isNumericId appId = true ->
        appRequests calls = []
        /\ Forall (fun p => AppStore.reviews_id p = appId) (reviewsRequests calls)).
Proof.
  unfold analyze_reviews.
  destruct (while_spec scraper appId num country sort 11 _ (initial_invariant appId country sort w))
    as [s [Hs [k [Hk [Horder _]]]]]; [cbn; lia |].
  rewrite Hs. intros [= _ _ <-]. exists k. split; [exact Hk |].
  destruct Horder as [Hseq [Hreq [Happ [Hno Hnum]]]].
  split; [exact Hseq |]. split; [| now split].
  revert Hreq. apply Forall_impl. intros p [Hsort Hcountry]. split; [| exact Hcountry].
  rewrite Hsort. now destruct sort.
Qed.

Lemma ios_requests_pages_in_order_witness :
  match analyze_reviews sampleStore (ofString "com.example.app") (ofZ 3)
          (ofString "us") (ofString "en") rating (utc 0) ios 0 with
  | Some (_, _, calls) =>
      exists k, k <= 10 /\ map AppStore.page (reviewsRequests calls) = seq 1 k
  | None => False
  end.
Proof.
  destruct (analyze_reviews sampleStore (ofString "com.example.app") (ofZ 3)
              (ofString "us") (ofString "en") rating (utc 0) ios 0)
    as [[[r w'] calls] |] eqn:E.
  - destruct (ios_requests_pages_in_order _ _ _ _ _ _ _ _ _ _ _ E) as [k [Hk [Hseq _]]].
    exists k. exact (conj Hk Hseq).
  - vm_compute in E. discriminate E.
Defined.

(** X16. When the scrapers fail every call, the tool returns the error
    object with the message of the failure on Android, and on iOS the report
    of the empty collection: the failure is caught in the loop and is not
    reported.  At most one call is made. *)
Theorem failing_scrapers {World} (scraper : scrapers World)
    (appId : jsstring) (num : number) (country lang : jsstring) (sort : sortParam)
    (c : clock) (pf : platform) (w : World) (e : error) :
  (forall p w0, fst (gplay_reviews scraper p w0) = rejected e) ->
  (forall p w0, fst (appStore_app scraper p w0) = rejected e) ->
  (forall p w0, fst (appStore_reviews scraper p w0) = rejected e) ->
  exists w' calls,
    analyze_reviews scraper appId num country lang sort c pf w
    = Some (match pf with
            | android => isError (message e) appId android
            | ios => content appId ios (analyzeReviews c ios [])
            end, w', calls)
    /\ List.length calls <= 1.
Proof.
  intros Hg Ha Hr. unfold analyze_reviews. destruct pf.
  - match goal with
    | |- context [gplay_reviews scraper ?p w] =>
        pose proof (Hg p w) as H; destruct (gplay_reviews scraper p w) as [o w']
    end.
    cbn [fst] in H. subst o. eexists _, _. split; [reflexivity |]. cbn. lia.
  - cbn [while]. destruct (loopCondition num _).
    + unfold loopBody. cbn [page allReviews world trace].
      destruct (isNumericId appId).
      * unfold fetchPage.
        match goal with
        | |- context [appStore_reviews scraper ?p w] =>
            pose proof (Hr p w) as H; destruct (appStore_reviews scraper p w) as [o w']
        end.
        cbn [fst] in H. subst o. cbn [allReviews world trace].
        rewrite sliceTo_nil. eexists _, _. split; [reflexivity |]. cbn. lia.
      * match goal with
        | |- context [appStore_app scraper ?p w] =>
            pose proof (Ha p w) as H; destruct (appStore_app scraper p w) as [o w']
        end.
        cbn [fst] in H. subst o. cbn [allReviews world trace].
        rewrite sliceTo_nil. eexists _, _. split; [reflexivity |]. cbn. lia.
    + cbn [allReviews world trace]. rewrite sliceTo_nil.
      eexists _, _. split; [reflexivity |]. cbn. lia.
Qed.

Lemma failing_scrapers_witness :
  (exists w' calls,
      analyze_reviews (failingStore {| message := ofString "timeout" |})
        (ofString "com.example.app") (ofZ 100) (ofString "us") (ofString "en")
        newest (utc 0) android 0
      = Some (isError (ofString "timeout") (ofString "com.example.app") android,
              w', calls))
  /\ (exists w' calls,
         analyze_reviews (failingStore {| message := ofString "timeout" |})
           (ofString "com.example.app") (ofZ 100) (ofString "us") (ofString "en")
           newest (utc 0) ios 0
         = Some (content (ofString "com.example.app") ios (analyzeReviews (utc 0) ios []),
                 w', calls)).
Proof.
  split.
  - destruct (failing_scrapers (failingStore {| message := ofString "timeout" |})
                (ofString "com.example.app") (ofZ 100) (ofString "us") (ofString "en")
                newest (utc 0) android 0 {| message := ofString "timeout" |}
                (fun _ _ => eq_refl) (fun _ _ => eq_refl) (fun _ _ => eq_refl))
      as [w' [calls [H _]]].
    exists w', calls. exact H.
  - destruct (failing_scrapers (failingStore {| message := ofString "timeout" |})
                (ofString "com.example.app") (ofZ 100) (ofString "us") (ofString "en")
                newest (utc 0) ios 0 {| message := ofString "timeout" |}
                (fun _ _ => eq_refl) (fun _ _ => eq_refl) (fun _ _ => eq_refl))
      as [w' [calls [H _]]].
    exists w', calls. exact H.
Defined.

(** X17. With a whole number [n] for [num], and pages of fewer than [2^28]
    reviews (ten pages fit in an array), the iOS branch asks only while it
    holds fewer than [n] reviews, and goes on asking until then: every call
    is made with fewer than [n] reviews received before it, so no page is
    requested once [n] reviews are held, and the loop is left only with [n]
    reviews held, or after ten pages, or after a call that brought no
    review.  Hence at most [n] pages are requested, and the first [n] of the
    reviews received are analysed. *)
Theorem ios_stops_when_enough {World} (scraper : scrapers World)
    (appId : jsstring) (n : nat) (country lang : jsstring) (sort : sortParam)
    (c : clock) (w w' : World) (r : toolResult) (calls : list event) :
  (Z.of_nat n < 2 ^ 53)%Z ->
  (forall p w0 l w1,
      appStore_reviews scraper p w0 = (fulfilled (Some l), w1) ->
      (Z.of_nat (List.length l) < 2 ^ 28)%Z) ->
  analyze_reviews scraper appId (ofNat n) country lang sort c ios w
  = Some (r, w', calls) ->
  (forall i, i < List.length calls -> List.length (received (firstn i calls)) < n)
  /\ (n <= List.length (received calls)
      \/ List.length (reviewsRequests calls) = 10
      \/ exists before last, calls = before ++ [last] /\ received [last] = [])
  /\ List.length (reviewsRequests calls) <= Nat.min n 10
  /\ r = content appId ios (analyzeReviews c ios (firstn n (received calls)))
  /\ totalReviewsAnalyzed (analyzeReviews c ios (firstn n (received calls))) <= n.
Proof.
  intros Hn Hpages. unfold analyze_reviews.
  destruct (while_spec scraper appId (ofNat n) country sort 11 _
              (initial_invariant appId country sort w))
    as [s [Hs [k [Hk [[Hseq _] Hall]]]]]; [cbn; lia |].
  rewrite Hs. intros [= <- _ <-].
  assert (Hinit : wholeInvariant n {| page := 1; allReviews := []; world := w;
                                      trace := [] |}).
  { unfold wholeInvariant, calledWhileShort. cbn.
    repeat split; lia. }
  destruct (while_whole scraper appId n country sort Hn Hpages 11 _ s Hinit Hs)
    as [Hreq [Hshort Hend]].
  assert (Hten : List.length (reviewsRequests (trace s)) <= 10).
  { rewrite <- (length_map AppStore.page), Hseq, length_seq. exact Hk. }
  split; [exact Hshort |]. split; [exact Hend |].
  split; [lia |]. rewrite Hall, sliceTo_ofNat by exact Hn.
  split; [reflexivity |].
  cbn [analyzeReviews totalReviewsAnalyzed]. unfold processReviews.
  rewrite length_map, length_firstn. lia.
Qed.

Lemma ios_stops_when_enough_witness :
  match analyze_reviews sampleStore (ofString "284882215") (ofNat 3)
          (ofString "us") (ofString "en") newest (utc 0) ios 0 with
  | Some (r, _, calls) =>
      (forall i, i < List.length calls -> List.length (received (firstn i calls)) < 3)
      /\ List.length (reviewsRequests calls) <= 3
      /\ r = content (ofString "284882215") ios
               (analyzeReviews (utc 0) ios (firstn 3 (received calls)))
  | None => False
  end.
Proof.
  destruct (analyze_reviews sampleStore (ofString "284882215") (ofNat 3)
              (ofString "us") (ofString "en") newest (utc 0) ios 0)
    as [[[r w'] calls] |] eqn:E.
  - assert (Hn : (Z.of_nat 3 < 2 ^ 53)%Z) by (vm_compute; reflexivity).
    assert (Hpages : forall p w0 l w1,
               appStore_reviews sampleStore p w0 = (fulfilled (Some l), w1) ->
               (Z.of_nat (List.length l) < 2 ^ 28)%Z).
    { intros p w0 l w1. cbn [appStore_reviews sampleStore].
      destruct (AppStore.page p <=? 2); intros [= <- _]; vm_compute; reflexivity. }
    destruct (ios_stops_when_enough sampleStore _ 3 _ _ _ _ _ _ _ _ Hn Hpages E)
      as [Hshort [_ [Hreq [Hr _]]]].
    exact (conj Hshort (conj Hreq Hr)).
  - vm_compute in E. discriminate E.
Defined.

Section MathMin.

Lemma SFcompare_antisym (a b : number) (c : comparison) :
  SFcompare a b = Some c -> SFcompare b a = Some (CompOpp c).
Proof.
  destruct a as [s1 | s1 | | s1 m1 e1], b as [s2 | s2 | | s2 m2 e2];
    cbn [SFcompare]; try discriminate;
    try (destruct s1; intros [= <-]; reflexivity);
    try (destruct s2; intros [= <-]; reflexivity);
    try (intros [= <-]; reflexivity).
  - destruct s1, s2; intros [= <-]; reflexivity.
  - pose proof (Z.compare_antisym e1 e2) as He.
    pose proof (Pos.compare_cont_antisym m1 m2 Eq) as Hm. cbn [CompOpp] in Hm.
    destruct s1, s2; intros [= <-]; try reflexivity; rewrite He;
      destruct (e1 ?= e2)%Z; cbn [CompOpp]; try reflexivity;
      rewrite <- Hm; now rewrite ?CompOpp_involutive.
Qed.

(** [Math.min(num, 1000)]: [NaN] for [NaN], [num] when it is below 1000, and
    1000 otherwise; it is never above 1000. *)
Lemma mathMin_1000 (num : number) :
  mathMin num (ofZ 1000)
  = match num with
    | S754_nan => S754_nan
    | _ => if lessThan num (ofZ 1000) then num else ofZ 1000
    end
  /\ lessThan (ofZ 1000) (mathMin num (ofZ 1000)) = false.
Proof.
  assert (Hmin : mathMin num (ofZ 1000)
                 = match num with
                   | S754_nan => S754_nan
                   | _ => if lessThan num (ofZ 1000) then num else ofZ 1000
                   end).
  { unfold mathMin, lessThan, SFltb.
    destruct num as [s | s | | s m e]; try reflexivity; try (now destruct s).
    destruct (SFcompare (S754_finite s m e) (ofZ 1000)) as [[| |] |] eqn:E;
      try reflexivity.
    destruct s; discriminate E. }
  split; [exact Hmin |]. rewrite Hmin. unfold lessThan, SFltb.
  destruct num as [s | s | | s m e]; try reflexivity; try (now destruct s).
  destruct (SFcompare (S754_finite s m e) (ofZ 1000)) as [[| |] |] eqn:E;
    try reflexivity.
  now rewrite (SFcompare_antisym _ _ _ E).
Qed.

(** For a whole number the minimum is the minimum of the integers. *)
Lemma mathMin_1000_whole (n : nat) :
  (Z.of_nat n < 2 ^ 53)%Z -> mathMin (ofNat n) (ofZ 1000) = ofNat (Nat.min n 1000).
Proof.
  intros Hn. rewrite (proj1 (mathMin_1000 (ofNat n))).
  assert (Hlt : lessThan (ofNat n) (ofZ 1000) = (Z.of_nat n <? 1000)%Z).
  { unfold ofNat. apply lessThan_ofZ; [lia |]. split; [lia | reflexivity]. }
  assert (Hsame : match ofNat n with
                  | S754_nan => S754_nan
                  | _ => if lessThan (ofNat n) (ofZ 1000) then ofNat n else ofZ 1000
                  end
                  = if lessThan (ofNat n) (ofZ 1000) then ofNat n else ofZ 1000).
  { unfold ofNat at 1. destruct (Z.eq_dec (Z.of_nat n) 0) as [-> | Hne];
      [reflexivity |].
    now destruct (ofZ_exact (Z.of_nat n) ltac:(lia)) as [m [e [-> _]]]. }
  rewrite Hsame, Hlt. destruct (Z.ltb_spec (Z.of_nat n) 1000).
  - now rewrite Nat.min_l by lia.
  - rewrite Nat.min_r by lia. reflexivity.
Qed.

End MathMin.

(** X18. The Android branch makes exactly one call, to the Google Play
    scraper, under the sort order of the request, asking for
    [Math.min(num, 1000)] reviews: [NaN] when [num] is [NaN], [num] itself
    when it is below 1000 and 1000 otherwise, so never more than 1000, and
    for a whole number [n] the integer minimum of [n] and 1000.  A rejection
    becomes the error object with the message of the error; otherwise every
    review of the array received is analysed, as many as there are whatever
    [num] is, and a missing array counts as no reviews. *)
Theorem android_asks_once {World} (scraper : scrapers World)
    (appId : jsstring) (num : number) (country lang : jsstring) (sort : sortParam)
    (c : clock) (w : World) :
  exists p o w',
    gplay_reviews scraper p w = (o, w')
    /\ analyze_reviews scraper appId num country lang sort c android w
       = Some (match o with
               | fulfilled result =>
                   content appId android
                     (analyzeReviews c android
                        (match Gplay.data result with Some l => l | None => [] end))
               | rejected e => isError (message e) appId android
               end, w', [gplayReviewsCall p o])
    /\ Gplay.appId p = appId /\ Gplay.country p = country /\ Gplay.lang p = lang
    /\ Gplay.sort p = match sort with
                      | newest => Gplay.NEWEST
                      | rating => Gplay.RATING
                      | helpfulness => Gplay.HELPFULNESS
                      end
    /\ Gplay.num p = match num with
                     | S754_nan => S754_nan
                     | _ => if lessThan num (ofZ 1000) then num else ofZ 1000
                     end
    /\ lessThan (ofZ 1000) (Gplay.num p) = false
    /\ (forall n, (Z.of_nat n < 2 ^ 53)%Z -> num = ofNat n ->
                  Gplay.num p = ofNat (Nat.min n 1000))
    /\ (forall l, o = fulfilled {| Gplay.data := Some l |} ->
                  exists rep,
                    analyze_reviews scraper appId num country lang sort c android w
                    = Some (content appId android rep, w', [gplayReviewsCall p o])
                    /\ totalReviewsAnalyzed rep = List.length l).
Proof.
  unfold analyze_reviews.
  match goal with
  | |- context [gplay_reviews scraper ?p w] =>
      exists p; destruct (gplay_reviews scraper p w) as [o w'] eqn:E
  end.
  exists o, w'. split; [reflexivity |]. split; [now destruct o |].
  cbn [Gplay.appId Gplay.country Gplay.lang Gplay.sort Gplay.num].
  repeat (split; [reflexivity |]).
  split; [apply mathMin_1000 |]. split; [apply mathMin_1000 |]. split.
  - intros n Hn ->. now apply mathMin_1000_whole.
  - intros l ->. eexists. split; [reflexivity |].
    cbn [analyzeReviews totalReviewsAnalyzed Gplay.data]. unfold processReviews.
    apply length_map.
Qed.

Section Lookups.

Context {World : Type} (scraper : scrapers World).
Context (appId : jsstring) (num : number) (country : jsstring) (sort : sortParam).

Hypothesis not_numeric : isNumericId appId = false.

Lemma while_rounds (fuel : nat) (s s' : fetchState) :
  (exists rounds,
      trace s = flat_map (lookupRound {| AppStore.appId := appId;
                                         AppStore.country := country |}) rounds
      /\ Forall underLookedUpId rounds) ->
  while scraper appId num country sort fuel s = Some s' ->
  exists rounds last,
    trace s' = flat_map (lookupRound {| AppStore.appId := appId;
                                        AppStore.country := country |}) rounds ++ last
    /\ (last = []
        \/ exists e, last = [appCall {| AppStore.appId := appId;
                                        AppStore.country := country |} (rejected e)])
    /\ Forall underLookedUpId rounds.
Proof.
  revert s. induction fuel as [| fuel IH]; intros s [rounds [Htrace Hok]];
    [discriminate |].
  cbn [while]. destruct (loopCondition num s).
  - unfold loopBody. rewrite not_numeric.
    destruct (appStore_app scraper _ (world s)) as [[details | e] w1].
    + unfold fetchPage.
      match goal with
      | |- context [appStore_reviews scraper ?p w1] =>
          set (iosParams := p); destruct (appStore_reviews scraper iosParams w1) as [o w2]
      end.
      assert (Hnext : (trace s ++ [appCall {| AppStore.appId := appId;
                                              AppStore.country := country |}
                                     (fulfilled details)])
                      ++ [reviewsCall iosParams o]
                      = flat_map (lookupRound {| AppStore.appId := appId;
                                                 AppStore.country := country |})
                                 (rounds ++ [(details, iosParams, o)])).
      { rewrite flat_map_app, Htrace, <- app_assoc. cbn. reflexivity. }
      assert (Hok' : Forall underLookedUpId (rounds ++ [(details, iosParams, o)])).
      { apply Forall_app. split; [exact Hok |]. repeat constructor. }
      destruct o as [[[| r rest] |] | e];
        try (intros [= <-]; cbn [trace]; exists (rounds ++ [(details, iosParams, o)]), [];
             rewrite app_nil_r; split; [exact Hnext | split; [now left | exact Hok']]).
      * intros [= <-]. cbn [trace]. eexists _, []. rewrite app_nil_r.
        split; [exact Hnext | split; [now left | exact Hok']].
      * apply IH. cbn [trace]. eexists. split; [exact Hnext | exact Hok'].
      * intros [= <-]. cbn [trace]. eexists _, []. rewrite app_nil_r.
        split; [exact Hnext | split; [now left | exact Hok']].
      * intros [= <-]. cbn [trace]. eexists _, []. rewrite app_nil_r.
        split; [exact Hnext | split; [now left | exact Hok']].
    + intros [= <-]. cbn [trace]. exists rounds. eexists. rewrite Htrace.
      split; [reflexivity |]. split; [right; now exists e | exact Hok].
  - intros [= <-]. exists rounds, []. rewrite app_nil_r.
    split; [exact Htrace | split; [now left | exact Hok]].
Qed.

End Lookups.

(** X19. For an [appId] that is not numeric the iOS branch looks the app up
    again before every page: its calls are rounds of one lookup followed by
    one request for a page, the request carrying as [id] the decimal numeral
    of the [id] that this lookup gave; a failed lookup ends the loop and is
    the last call. *)
Theorem ios_looks_the_app_up_before_every_page {World} (scraper : scrapers World)
    (appId : jsstring) (num : number) (country lang : jsstring) (sort : sortParam)
    (c : clock) (w w' : World) (r : toolResult) (calls : list event) :
  isNumericId appId = false ->
  analyze_reviews scraper appId num country lang sort c ios w = Some (r, w', calls) ->
  exists rounds last,
    calls = flat_map (lookupRound {| AppStore.appId := appId;
                                     AppStore.country := country |}) rounds ++ last
    /\ (last = []
        \/ exists e, last = [appCall {| AppStore.appId := appId;
                                        AppStore.country := country |} (rejected e)])
    /\ Forall underLookedUpId rounds.
Proof.
  intros Hid. unfold analyze_reviews.
  destruct (while scraper appId num country sort 11 _) as [s |] eqn:Hs; [| discriminate].
  intros [= _ _ <-].
  apply (while_rounds scraper appId num country sort Hid 11
           {| page := 1; allReviews := []; world := w; trace := [] |} s); [| exact Hs].
  exists []. split; [reflexivity | constructor].
Qed.

Lemma ios_looks_the_app_up_before_every_page_witness :
  match analyze_reviews sampleStore (ofString "com.example.app") (ofZ 3)
          (ofString "us") (ofString "en") newest (utc 0) ios 0 with
  | Some (_, _, calls) =>
      exists rounds last,
        calls = flat_map (lookupRound {| AppStore.appId := ofString "com.example.app";
                                         AppStore.country := ofString "us" |}) rounds
                ++ last
        /\ Forall underLookedUpId rounds
  | None => False
  end.
Proof.
  destruct (analyze_reviews sampleStore (ofString "com.example.app") (ofZ 3)
              (ofString "us") (ofString "en") newest (utc 0) ios 0)
    as [[[r w'] calls] |] eqn:E.
  - assert (Hid : isNumericId (ofString "com.example.app") = false)
      by (vm_compute; reflexivity).
    destruct (ios_looks_the_app_up_before_every_page _ _ _ _ _ _ _ _ _ _ _ Hid E)
      as [rounds [last [Hcalls [_ Hok]]]].
    exists rounds, last. exact (conj Hcalls Hok).
  - vm_compute in E. discriminate E.
Defined.

(** ** The keyword analysis: thresholds of the competition level *)

Section Thresholds.

Local Open Scope Z_scope.

(** Finite positive Numbers with full mantissas compare as their values
    do. *)
Lemma lessThan_scaled (m1 m2 : BinNums.positive) (e1 e2 : Z) :
  2 ^ 52 <= Zpos m1 < 2 ^ 53 -> 2 ^ 52 <= Zpos m2 < 2 ^ 53 ->
  -200 <= e1 -> -200 <= e2 ->
  lessThan (S754_finite false m1 e1) (S754_finite false m2 e2)
  = (scaled m1 e1 <? scaled m2 e2).
Proof.
  intros H1 H2 He1 He2. unfold lessThan, SFltb, scaled. cbn [SFcompare].
  assert (Hp1 : 0 < 2 ^ (e1 + 200)) by (apply Z.pow_pos_nonneg; lia).
  assert (Hp2 : 0 < 2 ^ (e2 + 200)) by (apply Z.pow_pos_nonneg; lia).
  destruct (Z.compare_spec e1 e2) as [Heq | Hlt | Hgt].
  - subst e2. rewrite Pos.compare_cont_spec.
    destruct (Pos.compare_spec m1 m2) as [H | H | H]; cbn [Pos.switch_Eq];
      symmetry; [apply Z.ltb_ge | apply Z.ltb_lt | apply Z.ltb_ge].
    + subst m2. lia.
    + apply Z.mul_lt_mono_pos_r; lia.
    + apply Z.mul_le_mono_nonneg_r; lia.
  - symmetry. apply Z.ltb_lt.
    assert (Hstep : 2 * 2 ^ (e1 + 200) <= 2 ^ (e2 + 200)).
    { replace (2 * 2 ^ (e1 + 200)) with (2 ^ (e1 + 201))
        by (replace (e1 + 201) with (e1 + 200 + 1) by lia;
            rewrite Z.pow_add_r by lia; change (2 ^ 1) with 2; ring).
      apply Z.pow_le_mono_r; lia. }
    change (2 ^ 53) with (2 * 2 ^ 52) in *. nia.
  - symmetry. apply Z.ltb_ge.
    assert (Hstep : 2 * 2 ^ (e2 + 200) <= 2 ^ (e1 + 200)).
    { replace (2 * 2 ^ (e2 + 200)) with (2 ^ (e2 + 201))
        by (replace (e2 + 201) with (e2 + 200 + 1) by lia;
            rewrite Z.pow_add_r by lia; change (2 ^ 1) with 2; ring).
      apply Z.pow_le_mono_r; lia. }
    change (2 ^ 53) with (2 * 2 ^ 52) in *. nia.
Qed.

(** The quotient of two integers [c <= t] below [2^53], with the exponent
    [E] of the binade of [c / t]: the quotient is within half a unit of
    [2^E] of [c / t]. *)
Lemma div_ofZ_binade (c t : Z) :
  1 <= c <= t -> t < 2 ^ 53 ->
  exists (mq : BinNums.positive) (qe E : Z),
    div (ofZ c) (ofZ t) = S754_finite false mq qe
    /\ -106 <= E <= -52
    /\ E <= qe <= E + 1
    /\ 2 ^ 52 <= Zpos mq < 2 ^ 53
    /\ t * 2 ^ (E + 252) <= c * 2 ^ 200 < t * 2 ^ (E + 253)
    /\ Z.abs (2 * (scaled mq qe * t - c * 2 ^ 200)) <= 2 ^ (E + 200) * t.
Proof.
  intros Hc Ht. unfold div.
  destruct (ofZ_exact c ltac:(lia)) as [m1 [e1 [Hc1 [He1 [Hm1 [Hcan1 Hd1]]]]]].
  destruct (ofZ_exact t ltac:(lia)) as [m2 [e2 [Hc2 [He2 [Hm2 [Hcan2 Hd2]]]]]].
  rewrite Hc1, Hc2.
  pose proof (Zdigits2_mono c t ltac:(lia) ltac:(lia)) as Hmono.
  assert (He12 : e1 <= e2) by lia.
  unfold SFdiv, SFdiv_core_binary.
  rewrite (Zdigits2_unique (Zpos m1) 53 ltac:(lia) Hcan1).
  rewrite (Zdigits2_unique (Zpos m2) 53 ltac:(lia) Hcan2).
  rewrite fexp_eq.
  replace (Z.min (Z.max (53 + e1 - (53 + e2) - 53) (-1074)) (e1 - e2))
    with (e1 - e2 - 53) by lia.
  replace (e1 - e2 - (e1 - e2 - 53)) with 53 by lia.
  rewrite Z.shiftl_mul_pow2 by lia.
  set (N := Z.pos m1 * 2 ^ 53). set (D := Z.pos m2).
  pose proof (Z_div_mod N D ltac:(unfold D; lia)) as Hdiv.
  destruct (Z.div_eucl N D) as [q r]. destruct Hdiv as [HN Hr].
  set (ex := e1 - e2 - 53).
  set (a := - e1) in *. set (b := - e2) in *.
  assert (Hpa : 0 < 2 ^ a) by (apply Z.pow_pos_nonneg; unfold a; lia).
  assert (Hpb : 0 < 2 ^ b) by (apply Z.pow_pos_nonneg; unfold b; lia).
  assert (HD : 0 < D) by (unfold D; lia).
  assert (Hq52 : 2 ^ 52 <= q).
  { assert (2 ^ 52 * D <= N) by (unfold N, D; nia). nia. }
  assert (Hpex : 2 ^ (- ex) * 2 ^ b = 2 ^ a * 2 ^ 53).
  { rewrite <- !Z.pow_add_r by (unfold ex, a, b; lia). f_equal. unfold ex, a, b. lia. }
  assert (Hqup : q <= 2 ^ (- ex)).
  { assert (Hpe : 0 < 2 ^ (- ex)) by (apply Z.pow_pos_nonneg; unfold ex; lia).
    assert (H1 : q * D <= N) by lia.
    assert (H2 : N <= 2 ^ (- ex) * D).
    { unfold N, D. rewrite Hm1, Hm2.
      replace (2 ^ (- ex) * (t * 2 ^ b)) with (t * (2 ^ (- ex) * 2 ^ b)) by ring.
      rewrite Hpex. nia. }
    nia. }
  assert (Hdq : 53 <= Zdigits2 q <= - ex + 1).
  { split.
    - pose proof (Zdigits2_ge q 52 ltac:(lia) ltac:(lia) Hq52). lia.
    - apply Zdigits2_le; [lia |].
      rewrite Z.pow_add_r by (unfold ex; lia). change (2 ^ 1) with 2.
      assert (0 < 2 ^ (- ex)) by (apply Z.pow_pos_nonneg; unfold ex; lia). lia. }
  assert (Hloc : located N D q (new_location D r)).
  { rewrite new_location_position by (unfold D; lia).
    unfold located. split; [unfold D; lia |]. split; [lia |]. f_equal. lia. }
  destruct (binary_round_aux_scaled q ex (new_location D r) N D
              ltac:(lia) Hloc ltac:(unfold ex; lia) ltac:(unfold ex in *; lia))
    as [mq [qe [Heq [Heq_r [Herr Hcan]]]]].
  set (dq := Zdigits2 q) in *.
  replace (Z.max ex (dq + ex - 53)) with (dq + ex - 53) in Heq_r, Herr by lia.
  set (E := dq + ex - 53) in *.
  exists mq, qe, E. cbn [xorb]. split; [exact Heq |].
  split; [unfold E, ex in *; lia |]. split; [exact Heq_r |].
  split; [apply Hcan; lia |].
  pose proof (Zdigits2_bounds q ltac:(lia)) as [Hqlo Hqhi]. fold dq in Hqlo, Hqhi.
  assert (Hshift : 0 < 2 ^ (147 - a)) by (apply Z.pow_pos_nonneg; unfold a; lia).
  assert (HNc : N * 2 ^ (147 - a) = c * 2 ^ 200).
  { unfold N. rewrite Hm1.
    replace (c * 2 ^ a * 2 ^ 53 * 2 ^ (147 - a))
      with (c * (2 ^ a * 2 ^ 53 * 2 ^ (147 - a))) by ring.
    f_equal. rewrite <- !Z.pow_add_r by (unfold a; lia). f_equal. lia. }
  assert (HDlo : 2 ^ (dq - 1) * D * 2 ^ (147 - a) = t * 2 ^ (E + 252)).
  { unfold D. rewrite Hm2.
    replace (2 ^ (dq - 1) * (t * 2 ^ b) * 2 ^ (147 - a))
      with (t * (2 ^ (dq - 1) * 2 ^ b * 2 ^ (147 - a))) by ring.
    f_equal. rewrite <- !Z.pow_add_r by (unfold a, b; lia).
    f_equal. unfold E, ex, a, b. lia. }
  assert (HDhi : 2 ^ dq * D * 2 ^ (147 - a) = t * 2 ^ (E + 253)).
  { unfold D. rewrite Hm2.
    replace (2 ^ dq * (t * 2 ^ b) * 2 ^ (147 - a))
      with (t * (2 ^ dq * 2 ^ b * 2 ^ (147 - a))) by ring.
    f_equal. rewrite <- !Z.pow_add_r by (unfold a, b; lia).
    f_equal. unfold E, ex, a, b. lia. }
  split.
  - rewrite <- HNc, <- HDlo, <- HDhi. split.
    + apply Z.mul_le_mono_nonneg_r; [lia |].
      transitivity (q * D); [apply Z.mul_le_mono_nonneg_r; lia | lia].
    + apply Z.mul_lt_mono_pos_r; [lia |].
      apply Z.lt_le_trans with ((q + 1) * D); [lia |].
      apply Z.mul_le_mono_nonneg_r; lia.
  - assert (HNs : N * 2 ^ (ex + 200) = c * 2 ^ 200 * 2 ^ b).
    { unfold N. rewrite Hm1.
      replace (c * 2 ^ a * 2 ^ 53 * 2 ^ (ex + 200))
        with (c * (2 ^ a * 2 ^ 53 * 2 ^ (ex + 200))) by ring.
      replace (c * 2 ^ 200 * 2 ^ b) with (c * (2 ^ 200 * 2 ^ b)) by ring.
      f_equal. rewrite <- !Z.pow_add_r by (unfold ex, a, b; lia).
      f_equal. unfold ex, a, b. lia. }
    rewrite HNs in Herr. unfold D in Herr. rewrite Hm2 in Herr.
    replace (2 * (scaled mq qe * (t * 2 ^ b) - c * 2 ^ 200 * 2 ^ b))
      with (2 * (scaled mq qe * t - c * 2 ^ 200) * 2 ^ b) in Herr by ring.
    rewrite Z.abs_mul, (Z.abs_eq (2 ^ b)) in Herr by lia.
    replace (2 ^ (E + 200) * (t * 2 ^ b)) with (2 ^ (E + 200) * t * 2 ^ b) in Herr
      by ring.
    apply Z.mul_le_mono_pos_r in Herr; [exact Herr | exact Hpb].
Qed.

(** The two literals are the quotients 7/10 and 4/10 rounded to nearest. *)
Lemma literals_nearest :
  div (ofZ 7) (ofZ 10) = literal_0_7 /\ div (ofZ 4) (ofZ 10) = literal_0_4.
Proof. split; vm_compute; reflexivity. Qed.

Lemma dominance_bound (c t u E : Z) :
  0 < t -> E <= -52 ->
  Z.abs (2 * (u - c * 2 ^ 200)) <= 2 ^ (E + 200) * t ->
  Z.abs (2 * (u - c * 2 ^ 200)) <= 2 ^ 148 * t.
Proof.
  intros Ht HE H. etransitivity; [exact H |].
  apply Z.mul_le_mono_nonneg_r; [lia |]. apply Z.pow_le_mono_r; lia.
Qed.

(** [c / t > 0.7] on Numbers is [10 c > 7 t] on integers: the rounding of the
    quotient and of the literal does not move the threshold, and a quotient
    of exactly 7/10 is not above it. *)
Lemma above_0_7 (c t : Z) :
  1 <= c <= t -> t < 2 ^ 32 ->
  lessThan literal_0_7 (div (ofZ c) (ofZ t)) = (7 * t <? 10 * c).
Proof.
  intros Hc Ht.
  destruct (div_ofZ_binade c t Hc ltac:(lia))
    as [mq [qe [E [Heq [HE [Hqe [Hcan [Hbin Herr]]]]]]]].
  rewrite Heq. unfold literal_0_7.
  rewrite lessThan_scaled by (try exact Hcan; lia).
  pose proof (dominance_bound c t _ E ltac:(lia) ltac:(lia) Herr) as Hcoarse.
  set (S := scaled mq qe) in *.
  set (L := scaled 6305039478318694 (-53)).
  assert (HL : 10 * L = 7 * 2 ^ 200 - 4 * 2 ^ 147) by (vm_compute; reflexivity).
  assert (Hcmp : forall x y, x * t < y * t -> x < y)
    by (intros x y H; apply (Z.mul_lt_mono_pos_r t); lia).
  assert (Hcmp' : forall x y, x * t <= y * t -> x <= y)
    by (intros x y H; apply (Z.mul_le_mono_pos_r _ _ t); lia).
  change (2 ^ 32) with 4294967296 in Ht.
  change (2 ^ 200) with 1606938044258990275541962092341162602522202993782792835301376 in *.
  change (2 ^ 148) with 356811923176489970264571492362373784095686656 in *.
  change (2 ^ 147) with 178405961588244985132285746181186892047843328 in *.
  destruct (Z.lt_trichotomy (7 * t) (10 * c)) as [Hgt | [Heq7 | Hlt]].
  - rewrite (proj2 (Z.ltb_lt (7 * t) (10 * c)) Hgt). apply Z.ltb_lt. apply Hcmp.
    set (u := S * t) in *. set (v := L * t).
    assert (Hv : 10 * v = (7 * 1606938044258990275541962092341162602522202993782792835301376
                           - 4 * 178405961588244985132285746181186892047843328) * t)
      by (unfold v; rewrite <- HL; ring).
    lia.
  - rewrite (proj2 (Z.ltb_ge (7 * t) (10 * c)) ltac:(lia)). apply Z.ltb_ge. apply Hcmp'.
    assert (HE53 : E = -53).
    { destruct (Z.eq_dec E (-52)) as [-> | H52].
      - change (2 ^ (-52 + 252)) with 1606938044258990275541962092341162602522202993782792835301376 in Hbin.
        lia.
      - destruct (Z.eq_dec E (-53)) as [-> | H53]; [reflexivity |].
        assert (Hp : 2 ^ (E + 253) <= 2 ^ 199) by (apply Z.pow_le_mono_r; lia).
        assert (Hq : t * 2 ^ (E + 253) <= t * 2 ^ 199)
          by (apply Z.mul_le_mono_nonneg_l; lia).
        change (2 ^ 199) with 803469022129495137770981046170581301261101496891396417650688 in Hq.
        lia. }
    subst E. change (2 ^ (-53 + 200)) with 178405961588244985132285746181186892047843328 in Herr.
    assert (Hmt : 4503599627370496 * t <= Zpos mq * t)
      by (apply Z.mul_le_mono_nonneg_r; [lia | change (2 ^ 52) with 4503599627370496 in Hcan; lia]).
    destruct (Z.eq_dec qe (-53)) as [-> | Hne].
    + unfold S, L, scaled in *.
      change (2 ^ (-53 + 200)) with 178405961588244985132285746181186892047843328 in *.
      destruct (Z.lt_trichotomy (Zpos mq) 6305039478318694) as [Hm | [Hm | Hm]].
      * assert (Zpos mq * t <= 6305039478318693 * t)
          by (apply Z.mul_le_mono_nonneg_r; lia).
        set (w := Zpos mq * t) in *.
        replace (Z.pos mq * 178405961588244985132285746181186892047843328 * t)
          with (178405961588244985132285746181186892047843328 * w) in * by (unfold w; ring).
        lia.
      * rewrite Hm. lia.
      * assert (6305039478318695 * t <= Zpos mq * t)
          by (apply Z.mul_le_mono_nonneg_r; lia).
        set (w := Zpos mq * t) in *.
        replace (Z.pos mq * 178405961588244985132285746181186892047843328 * t)
          with (178405961588244985132285746181186892047843328 * w) in * by (unfold w; ring).
        lia.
    + assert (qe = -52) by lia. subst qe. exfalso.
      unfold S, scaled in Herr.
      change (2 ^ (-52 + 200)) with 356811923176489970264571492362373784095686656 in Herr.
      set (w := Zpos mq * t) in *.
      replace (Z.pos mq * 356811923176489970264571492362373784095686656 * t)
        with (356811923176489970264571492362373784095686656 * w) in Herr by (unfold w; ring).
      lia.
  - rewrite (proj2 (Z.ltb_ge (7 * t) (10 * c)) ltac:(lia)). apply Z.ltb_ge. apply Hcmp'.
    set (u := S * t) in *. set (v := L * t).
    assert (Hv : 10 * v = (7 * 1606938044258990275541962092341162602522202993782792835301376
                           - 4 * 178405961588244985132285746181186892047843328) * t)
      by (unfold v; rewrite <- HL; ring).
    lia.
Qed.

(** [c / t > 0.4] on Numbers is [10 c > 4 t] on integers. *)
Lemma above_0_4 (c t : Z) :
  1 <= c <= t -> t < 2 ^ 32 ->
  lessThan literal_0_4 (div (ofZ c) (ofZ t)) = (4 * t <? 10 * c).
Proof.
  intros Hc Ht.
  destruct (div_ofZ_binade c t Hc ltac:(lia))
    as [mq [qe [E [Heq [HE [Hqe [Hcan [Hbin Herr]]]]]]]].
  rewrite Heq. unfold literal_0_4.
  rewrite lessThan_scaled by (try exact Hcan; lia).
  pose proof (dominance_bound c t _ E ltac:(lia) ltac:(lia) Herr) as Hcoarse.
  set (S := scaled mq qe) in *.
  set (L := scaled 7205759403792794 (-54)).
  assert (HL : 10 * L = 4 * 2 ^ 200 + 4 * 2 ^ 146) by (vm_compute; reflexivity).
  assert (Hcmp : forall x y, x * t < y * t -> x < y)
    by (intros x y H; apply (Z.mul_lt_mono_pos_r t); lia).
  assert (Hcmp' : forall x y, x * t <= y * t -> x <= y)
    by (intros x y H; apply (Z.mul_le_mono_pos_r _ _ t); lia).
  change (2 ^ 32) with 4294967296 in Ht.
  change (2 ^ 200) with 1606938044258990275541962092341162602522202993782792835301376 in *.
  change (2 ^ 148) with 356811923176489970264571492362373784095686656 in *.
  change (2 ^ 146) with 89202980794122492566142873090593446023921664 in *.
  destruct (Z.lt_trichotomy (4 * t) (10 * c)) as [Hgt | [Heq4 | Hlt]].
  - rewrite (proj2 (Z.ltb_lt (4 * t) (10 * c)) Hgt). apply Z.ltb_lt. apply Hcmp.
    set (u := S * t) in *. set (v := L * t).
    assert (Hv : 10 * v = (4 * 1606938044258990275541962092341162602522202993782792835301376
                           + 4 * 89202980794122492566142873090593446023921664) * t)
      by (unfold v; rewrite <- HL; ring).
    lia.
  - rewrite (proj2 (Z.ltb_ge (4 * t) (10 * c)) ltac:(lia)). apply Z.ltb_ge. apply Hcmp'.
    assert (HE54 : E = -54).
    { destruct (Z.eq_dec E (-52)) as [-> | H52].
      - change (2 ^ (-52 + 252)) with 1606938044258990275541962092341162602522202993782792835301376 in Hbin.
        lia.
      - destruct (Z.eq_dec E (-53)) as [-> | H53].
        + change (2 ^ (-53 + 252)) with 803469022129495137770981046170581301261101496891396417650688 in Hbin.
          lia.
        + destruct (Z.eq_dec E (-54)) as [-> | H54]; [reflexivity |].
          assert (Hp : 2 ^ (E + 253) <= 2 ^ 198) by (apply Z.pow_le_mono_r; lia).
          assert (Hq : t * 2 ^ (E + 253) <= t * 2 ^ 198)
            by (apply Z.mul_le_mono_nonneg_l; lia).
          change (2 ^ 198) with 401734511064747568885490523085290650630550748445698208825344 in Hq.
          lia. }
    subst E. change (2 ^ (-54 + 200)) with 89202980794122492566142873090593446023921664 in Herr.
    assert (Hmt : 4503599627370496 * t <= Zpos mq * t)
      by (apply Z.mul_le_mono_nonneg_r; [lia | change (2 ^ 52) with 4503599627370496 in Hcan; lia]).
    destruct (Z.eq_dec qe (-54)) as [-> | Hne].
    + unfold S, L, scaled in *.
      change (2 ^ (-54 + 200)) with 89202980794122492566142873090593446023921664 in *.
      destruct (Z.lt_trichotomy (Zpos mq) 7205759403792794) as [Hm | [Hm | Hm]].
      * assert (Zpos mq * t <= 7205759403792793 * t)
          by (apply Z.mul_le_mono_nonneg_r; lia).
        set (w := Zpos mq * t) in *.
        replace (Z.pos mq * 89202980794122492566142873090593446023921664 * t)
          with (89202980794122492566142873090593446023921664 * w) in * by (unfold w; ring).
        lia.
      * rewrite Hm. lia.
      * assert (7205759403792795 * t <= Zpos mq * t)
          by (apply Z.mul_le_mono_nonneg_r; lia).
        set (w := Zpos mq * t) in *.
        replace (Z.pos mq * 89202980794122492566142873090593446023921664 * t)
          with (89202980794122492566142873090593446023921664 * w) in * by (unfold w; ring).
        lia.
    + assert (qe = -53) by lia. subst qe. exfalso.
      unfold S, scaled in Herr.
      change (2 ^ (-53 + 200)) with 178405961588244985132285746181186892047843328 in Herr.
      set (w := Zpos mq * t) in *.
      replace (Z.pos mq * 178405961588244985132285746181186892047843328 * t)
        with (178405961588244985132285746181186892047843328 * w) in Herr by (unfold w; ring).
      lia.
  - rewrite (proj2 (Z.ltb_ge (4 * t) (10 * c)) ltac:(lia)). apply Z.ltb_ge. apply Hcmp'.
    set (u := S * t) in *. set (v := L * t).
    assert (Hv : 10 * v = (4 * 1606938044258990275541962092341162602522202993782792835301376
                           + 4 * 89202980794122492566142873090593446023921664) * t)
      by (unfold v; rewrite <- HL; ring).
    lia.
Qed.

End Thresholds.

(** ** The keyword analysis: brands and categories *)

Section Brands.

Lemma objectPrototypeText_plain (k : string) :
  objectPrototypeText k = None -> prototypeName k = false.
Proof.
  unfold objectPrototypeText, prototypeName.
  destruct (String.eqb k "__proto__"); [discriminate |].
  destruct (String.eqb k "constructor"); [discriminate | reflexivity].
Qed.

Lemma plainNames_plain (names : list string) :
  plainNames names -> Forall (fun k => prototypeName k = false) names.
Proof. apply Forall_impl. exact objectPrototypeText_plain. Qed.

Lemma bumpKey_bump (o : jsobject value) (k : string) :
  objectPrototypeText k = None -> bumpKey o k = bump o k.
Proof.
  intros Hk. unfold bumpKey, bump. rewrite Hk.
  apply objectPrototypeText_plain, prototypeName_false in Hk. destruct Hk as [Hc Hp].
  apply String.eqb_neq in Hc, Hp. now rewrite Hc, Hp.
Qed.

Lemma developerCounts_tally (apps : list normalizedApp) :
  plainNames (developers apps) -> developerCounts apps = tally [] (developers apps).
Proof.
  unfold developerCounts, tally, developers, plainNames.
  generalize (@nil (string * value)).
  induction apps as [| a apps IH]; intros o Hplain; cbn [map fold_left] in *.
  - reflexivity.
  - inversion Hplain as [| ? ? Ha Hrest]; subst.
    rewrite (bumpKey_bump o _ Ha). now apply IH.
Qed.

Lemma categoryDistribution_tally (apps : list normalizedApp) :
  plainNames (categories apps) ->
  categoryDistribution apps = tally [] (categories apps).
Proof.
  unfold categoryDistribution, tally, categories, plainNames.
  generalize (@nil (string * value)).
  induction apps as [| a apps IH]; intros o Hplain; cbn [flat_map fold_left] in *.
  - reflexivity.
  - destruct (n_category a) as [[| ch rest] |]; cbn [app] in *; try now apply IH.
    inversion Hplain as [| ? ? Ha Hrest]; subst.
    cbn [fold_left]. rewrite (bumpKey_bump o _ Ha). now apply IH.
Qed.

Lemma categories_length (apps : list normalizedApp) :
  List.length (categories apps) <= List.length apps.
Proof.
  unfold categories. induction apps as [| a apps IH]; cbn [flat_map List.length];
    [lia |].
  rewrite length_app. destruct (n_category a) as [[| ch rest] |]; cbn [List.length]; lia.
Qed.

(** The sorted entries of the developer table. *)
Lemma sorted_developers (apps : list normalizedApp) :
  plainNames (developers apps) ->
  let sorted := sortByCount (entries (developerCounts apps)) in
  NoDup (map fst sorted)
  /\ (forall k v, In (k, v) sorted
                  <-> In k (developers apps) /\ v = VNum (appsOf apps k))
  /\ StronglySorted (fun a b => countOf (snd b) <= countOf (snd a)) sorted
  /\ totalCount sorted = List.length apps.
Proof.
  intros Hplain. cbv zeta. rewrite (developerCounts_tally apps Hplain).
  pose proof (plainNames_plain _ Hplain) as Hplain'.
  destruct (entries_tally _ Hplain') as [Hnd Hentries].
  pose proof (sortByCount_perm (entries (tally [] (developers apps)))) as Hperm.
  assert (Hnum : numeric (entries (tally [] (developers apps)))).
  { apply Forall_forall. intros [k v] Hkv. apply Hentries in Hkv.
    destruct Hkv as [_ ->]. now eexists. }
  split; [| split; [| split]].
  - apply (Permutation_NoDup (l := map fst (entries (tally [] (developers apps)))));
      [| exact Hnd].
    apply Permutation_map. now symmetry.
  - intros k v. rewrite <- Hentries. split; apply Permutation_in; [| symmetry]; exact Hperm.
  - now apply sortByCount_sorted.
  - unfold totalCount. rewrite (list_sum_perm _ _ (Permutation_map _ Hperm)).
    fold (totalCount (entries (tally [] (developers apps)))).
    rewrite totalCount_entries.
    destruct (tally_conserves [] _ Hplain' ltac:(constructor)) as [_ ->].
    cbn. unfold developers. apply length_map.
Qed.

Lemma topBrands_entries (apps : list normalizedApp) :
  topBrands apps = map fst (firstn 2 (sortByCount (entries (developerCounts apps)))).
Proof. unfold topBrands, sortedDevelopers. apply firstn_map. Qed.

Lemma fold_counts (o : jsobject value) (f : string -> nat) (l : list string) (acc : nat) :
  (forall b, In b l -> own o b = Some (VNum (f b))) ->
  fold_left (fun count brand =>
               match count, own o brand with
               | Some c, Some (VNum n) => Some (c + n)
               | _, _ => None
               end) l (Some acc)
  = Some (acc + list_sum (map f l)).
Proof.
  revert acc. induction l as [| b l IH]; intros acc Hown; cbn [fold_left map list_sum].
  - f_equal. cbn. lia.
  - rewrite (Hown b (or_introl eq_refl)). rewrite IH by (intros; apply Hown; now right).
    f_equal. cbn [list_sum fold_right]. unfold list_sum. cbn [fold_right]. lia.
Qed.

(** The apps of the top brands: counted, at least one when there is an app,
    and not more than there are apps. *)
Lemma topBrandAppsCount_sum (apps : list normalizedApp) :
  plainNames (developers apps) ->
  let c := list_sum (map (appsOf apps) (topBrands apps)) in
  topBrandAppsCount apps = Some c
  /\ c <= List.length apps
  /\ (apps <> [] -> 1 <= c).
Proof.
  intros Hplain. cbv zeta.
  destruct (sorted_developers apps Hplain) as [Hnd [Hin [Hsorted Htotal]]].
  cbv zeta in Hnd, Hin, Hsorted, Htotal.
  set (sorted := sortByCount (entries (developerCounts apps))) in *.
  assert (Hsum : list_sum (map (appsOf apps) (topBrands apps))
                 = totalCount (firstn 2 sorted)).
  { rewrite topBrands_entries. fold sorted. unfold totalCount. rewrite map_map.
    f_equal. apply map_ext_in. intros [k v] Hkv. apply firstn_incl, Hin in Hkv.
    destruct Hkv as [_ ->]. reflexivity. }
  split; [| split].
  - unfold topBrandAppsCount. rewrite (fold_counts _ (appsOf apps)); [reflexivity |].
    intros b Hb. rewrite topBrands_entries in Hb. fold sorted in Hb.
    apply in_map_iff in Hb. destruct Hb as [[k v] [Hk Hkv]]. cbn [fst] in Hk. subst k.
    apply firstn_incl, Hin in Hkv. destruct Hkv as [Hdev _].
    rewrite (developerCounts_tally apps Hplain).
    rewrite own_tally_plain;
      [| apply objectPrototypeText_plain;
         exact (proj1 (Forall_forall _ _) Hplain b Hdev)
       | discriminate].
    cbn [own addCount]. fold (appsOf apps b).
    pose proof (proj1 (count_occ_In string_dec _ b) Hdev) as Hpos.
    unfold appsOf. destruct (count_occ string_dec (developers apps) b); [lia | reflexivity].
  - rewrite Hsum, <- Htotal. apply totalCount_firstn.
  - intros Hne. rewrite Hsum.
    destruct apps as [| a apps']; [congruence |].
    assert (Ha : In (n_developer a, VNum (appsOf (a :: apps') (n_developer a))) sorted).
    { apply Hin. split; [now left | reflexivity]. }
    destruct sorted as [| [k v] rest]; [destruct Ha |].
    assert (Hk : In (k, v) ((k, v) :: rest)) by now left.
    apply Hin in Hk. destruct Hk as [Hdev ->].
    pose proof (proj1 (count_occ_In string_dec _ k) Hdev) as Hpos.
    unfold totalCount. cbn [firstn map list_sum fold_right snd countOf].
    unfold appsOf. unfold list_sum. cbn [fold_right]. lia.
Qed.

Lemma dominance_chain (T C Q n : Z) :
  (1 <= C <= T)%Z -> (T < 2 ^ 32)%Z ->
  (Z.abs (2 * (Q * T - C * 2 ^ 200)) <= 2 ^ 148 * T)%Z ->
  (Z.abs (2 * 2 ^ 200 * n - 200 * Q) <= 2 ^ 200)%Z ->
  (2 * Z.abs (T * n - 100 * C) <= T)%Z.
Proof.
  intros HC HT Hq Hn.
  set (u := (2 * 2 ^ 200 * n - 200 * Q)%Z) in *.
  set (w := (Q * T - C * 2 ^ 200)%Z) in *.
  assert (Hid : (2 * 2 ^ 200 * (T * n - 100 * C) = T * u + 200 * w)%Z)
    by (unfold u, w; ring).
  assert (Hu : (Z.abs (T * u) <= T * 2 ^ 200)%Z).
  { rewrite Z.abs_mul, (Z.abs_eq T) by lia. apply Z.mul_le_mono_nonneg_l; lia. }
  set (y := (T * n - 100 * C)%Z) in *.
  set (tu := (T * u)%Z) in *.
  change (2 ^ 200)%Z with 1606938044258990275541962092341162602522202993782792835301376%Z in *.
  change (2 ^ 148)%Z with 356811923176489970264571492362373784095686656%Z in *.
  change (2 ^ 32)%Z with 4294967296%Z in *.
  lia.
Qed.

End Brands.

Section SortedMap.

Lemma StronglySorted_map_in {A B} (R : A -> A -> Prop) (R' : B -> B -> Prop)
    (f : A -> B) (l : list A) :
  (forall x y, In x l -> In y l -> R x y -> R' (f x) (f y)) ->
  StronglySorted R l -> StronglySorted R' (map f l).
Proof.
  intros Himp Hs. induction Hs as [| a l Hs IH Ha]; cbn [map]; constructor.
  - apply IH. intros x y Hx Hy. apply Himp; now right.
  - apply Forall_forall. intros b Hb. apply in_map_iff in Hb.
    destruct Hb as [y [<- Hy]]. apply Himp; [now left | now right |].
    exact (proj1 (Forall_forall _ _) Ha y Hy).
Qed.

Lemma plain_no_proto (names : list string) :
  plainNames names -> ~ In "__proto__" names.
Proof.
  intros Hplain Hin.
  pose proof (proj1 (Forall_forall _ _) Hplain _ Hin) as H. discriminate H.
Qed.

End SortedMap.

(** X20. The competition level follows the exact share of the apps that the
    top brands hold: with [c] apps of the top brands among [t] results
    (fewer than [2^32], developers not named like a property of
    [Object.prototype]), the level is Low when [c / t] is above 7/10, Medium
    when it is above 4/10 and not above 7/10, and High otherwise.  The
    rounding of the quotient and of the literals [0.7] and [0.4] never moves
    a threshold; a share of exactly 70% is Medium and one of exactly 40% is
    High. *)
Theorem competition_level_by_share (pf : platform) (results : list SearchResult.app) :
  let apps := map (normalize pf) results in
  let t := List.length results in
  let c := list_sum (map (appsOf apps) (topBrands apps)) in
  results <> [] ->
  (Z.of_nat t < 2 ^ 32)%Z ->
  plainNames (developers apps) ->
  1 <= c <= t
  /\ b_competitionLevel (brandPresenceOf (analyzeTopKeywords pf results))
     = if 7 * t <? 10 * c then Low
       else if 4 * t <? 10 * c then Medium
       else High.
Proof.
  cbv zeta. intros Hne Ht Hplain.
  set (apps := map (normalize pf) results) in *.
  assert (Hlen : List.length apps = List.length results) by apply length_map.
  assert (Hne' : apps <> []).
  { intros H. apply Hne. destruct results; [reflexivity | discriminate H]. }
  destruct (topBrandAppsCount_sum apps Hplain) as [Hc [Hle Hpos]].
  cbv zeta in Hc, Hle, Hpos. specialize (Hpos Hne').
  set (c := list_sum (map (appsOf apps) (topBrands apps))) in *.
  rewrite Hlen in Hle. split; [lia |].
  cbn [analyzeTopKeywords brandPresenceOf b_competitionLevel]. fold apps.
  unfold competitionLevel, brandDominance. rewrite Hc, Hlen. unfold ofNat.
  rewrite above_0_7, above_0_4 by lia.
  assert (H7 : (7 * Z.of_nat (List.length results) <? 10 * Z.of_nat c)%Z
               = (7 * List.length results <? 10 * c)).
  { destruct (Nat.ltb_spec (7 * List.length results) (10 * c));
      [apply Z.ltb_lt | apply Z.ltb_ge]; lia. }
  assert (H4 : (4 * Z.of_nat (List.length results) <? 10 * Z.of_nat c)%Z
               = (4 * List.length results <? 10 * c)).
  { destruct (Nat.ltb_spec (4 * List.length results) (10 * c));
      [apply Z.ltb_lt | apply Z.ltb_ge]; lia. }
  now rewrite H7, H4.
Qed.

Lemma competition_level_by_share_witness :
  b_competitionLevel (brandPresenceOf (analyzeTopKeywords android sampleResults))
  = Medium.
Proof.
  assert (Hne : sampleResults <> []) by discriminate.
  assert (Ht : (Z.of_nat (List.length sampleResults) < 2 ^ 32)%Z)
    by (vm_compute; reflexivity).
  assert (Hplain : plainNames (developers (map (normalize android) sampleResults)))
    by (repeat constructor).
  destruct (competition_level_by_share android sampleResults Hne Ht Hplain) as [_ H].
  etransitivity; [exact H | vm_compute; reflexivity].
Defined.

(** X21. The top brands are the two developers with the most apps among the
    results (all developers when there are fewer than two), without
    repetition and in descending order of their number of apps, when no
    developer is named like a property of [Object.prototype]: every
    developer left out has at most as many apps as each top brand. *)
Theorem top_brands_have_most_apps (pf : platform) (results : list SearchResult.app) :
  let apps := map (normalize pf) results in
  let brands := b_topBrands (brandPresenceOf (analyzeTopKeywords pf results)) in
  plainNames (developers apps) ->
  NoDup brands
  /\ List.length brands = Nat.min 2 (List.length (firstOccurrences (developers apps)))
  /\ (forall b, In b brands -> In b (developers apps))
  /\ StronglySorted (fun a b => appsOf apps b <= appsOf apps a) brands
  /\ (forall b d, In b brands -> In d (developers apps) -> ~ In d brands ->
                  appsOf apps d <= appsOf apps b).
Proof.
  cbv zeta. intros Hplain.
  cbn [analyzeTopKeywords brandPresenceOf b_topBrands].
  set (apps := map (normalize pf) results) in *.
  destruct (sorted_developers apps Hplain) as [Hnd [Hin [Hsorted _]]].
  cbv zeta in Hnd, Hin, Hsorted. rewrite topBrands_entries.
  set (sorted := sortByCount (entries (developerCounts apps))) in *.
  split; [| split; [| split; [| split]]].
  - rewrite <- firstn_map. now apply NoDup_firstn.
  - rewrite length_map, length_firstn. f_equal.
    unfold sorted. rewrite (Permutation_length (sortByCount_perm _)).
    rewrite (Permutation_length (entries_perm _)).
    rewrite (developerCounts_tally apps Hplain).
    rewrite <- (length_map fst), keys_tally_first_occurrences; [reflexivity |].
    now apply plain_no_proto.
  - intros b Hb. apply in_map_iff in Hb. destruct Hb as [[k v] [<- Hkv]].
    apply firstn_incl, Hin in Hkv. exact (proj1 Hkv).
  - apply (StronglySorted_map_in (fun a b => countOf (snd b) <= countOf (snd a)));
      [| now apply sorted_firstn].
    intros [k v] [k' v'] Hx Hy. apply firstn_incl, Hin in Hx. apply firstn_incl, Hin in Hy.
    destruct Hx as [_ ->], Hy as [_ ->]. now cbn.
  - intros b d Hb Hd Hnot. apply in_map_iff in Hb. destruct Hb as [[k v] [<- Hkv]].
    assert (Hdin : In (d, VNum (appsOf apps d)) sorted) by (apply Hin; now split).
    rewrite <- (firstn_skipn 2 sorted) in Hdin. apply in_app_or in Hdin.
    destruct Hdin as [Hfirst | Hrest].
    + exfalso. apply Hnot. apply in_map_iff. now exists (d, VNum (appsOf apps d)).
    + pose proof (sorted_firstn_skipn _ sorted 2 _ _ Hsorted Hkv Hrest) as Hle.
      apply firstn_incl, Hin in Hkv. destruct Hkv as [_ ->]. exact Hle.
Qed.

Lemma top_brands_have_most_apps_witness :
  b_topBrands (brandPresenceOf (analyzeTopKeywords ios sampleResults)) = ["Acme"; "Bolt"]
  /\ NoDup (b_topBrands (brandPresenceOf (analyzeTopKeywords ios sampleResults))).
Proof.
  split; [vm_compute; reflexivity |].
  assert (Hplain : plainNames (developers (map (normalize ios) sampleResults)))
    by (repeat constructor).
  exact (proj1 (top_brands_have_most_apps ios sampleResults Hplain)).
Defined.

(** X22. The category distribution counts the apps of each category: its
    keys are the categories of the results, a missing or empty category
    aside, each with the number of apps that have it, so the counts add up
    to the number of apps with a category, when no category is named like a
    property of [Object.prototype]. *)
Theorem category_distribution_counts (pf : platform) (results : list SearchResult.app) :
  let apps := map (normalize pf) results in
  let table :=
    entries (m_categoryDistribution (metricsOf (analyzeTopKeywords pf results))) in
  plainNames (categories apps) ->
  NoDup (map fst table)
  /\ (forall k v, In (k, v) table
                  <-> In k (categories apps)
                      /\ v = VNum (count_occ string_dec (categories apps) k))
  /\ totalCount table = List.length (categories apps)
  /\ List.length (categories apps) <= List.length results.
Proof.
  cbv zeta. intros Hplain.
  cbn [analyzeTopKeywords metricsOf m_categoryDistribution].
  set (apps := map (normalize pf) results) in *.
  rewrite (categoryDistribution_tally apps Hplain).
  pose proof (plainNames_plain _ Hplain) as Hplain'.
  destruct (entries_tally _ Hplain') as [Hnd Hentries].
  split; [exact Hnd |]. split; [exact Hentries |]. split.
  - rewrite totalCount_entries.
    destruct (tally_conserves [] _ Hplain' ltac:(constructor)) as [_ ->]. reflexivity.
  - rewrite (categories_length apps). unfold apps. now rewrite length_map.
Qed.

Lemma category_distribution_counts_witness :
  entries (m_categoryDistribution (metricsOf (analyzeTopKeywords android sampleResults)))
  = [("Games", VNum 5); ("Tools", VNum 3); ("Music", VNum 1)]
  /\ totalCount
       (entries (m_categoryDistribution
                   (metricsOf (analyzeTopKeywords android sampleResults))))
     = 9.
Proof.
  split; [vm_compute; reflexivity |].
  assert (Hplain : plainNames (categories (map (normalize android) sampleResults)))
    by (repeat constructor).
  destruct (category_distribution_counts android sampleResults Hplain)
    as [_ [_ [Htotal _]]].
  etransitivity; [exact Htotal | vm_compute; reflexivity].
Defined.

(** X23. The two shares of the report are the exact shares rounded to two
    decimals.  The brand dominance is [n / 100] for an integer [n] within a
    half of [100 c / t], and the percentage of paid apps is [m / 100] for an
    integer [m] within a half of [10000 p / t], for [c] apps of the top
    brands and [p] paid apps among [t] results (fewer than [2^32],
    developers not named like a property of [Object.prototype]). *)
Theorem reported_shares_are_rounded (pf : platform) (results : list SearchResult.app) :
  let apps := map (normalize pf) results in
  let t := Z.of_nat (List.length results) in
  let c := Z.of_nat (list_sum (map (appsOf apps) (topBrands apps))) in
  let p := Z.of_nat (List.length (paidApps apps)) in
  results <> [] ->
  (t < 2 ^ 32)%Z ->
  plainNames (developers apps) ->
  exists n m : Z,
    b_brandDominance (brandPresenceOf (analyzeTopKeywords pf results))
    = parseHundredths n
    /\ (2 * Z.abs (t * n - 100 * c) <= t)%Z
    /\ m_paidAppsPercentage (metricsOf (analyzeTopKeywords pf results))
       = parseHundredths m
    /\ (2 * Z.abs (t * m - 10000 * p) <= t)%Z.
Proof.
  cbv zeta. intros Hne Ht Hplain.
  set (apps := map (normalize pf) results) in *.
  assert (Hlen : List.length apps = List.length results) by apply length_map.
  assert (Hne' : apps <> []).
  { intros H. apply Hne. destruct results; [reflexivity | discriminate H]. }
  destruct (topBrandAppsCount_sum apps Hplain) as [Hc [Hle Hpos]].
  cbv zeta in Hc, Hle, Hpos. specialize (Hpos Hne').
  set (c := list_sum (map (appsOf apps) (topBrands apps))) in *.
  cbn [analyzeTopKeywords brandPresenceOf metricsOf b_brandDominance
         m_paidAppsPercentage]. fold apps.
  (* the brand dominance *)
  destruct (div_ofZ (Z.of_nat c) (Z.of_nat (List.length apps)) ltac:(lia) ltac:(lia))
    as [mq [qe [Hdiv [Hqe [Hcan Herr]]]]].
  destruct (toFixed2_nearest mq qe ltac:(lia) ltac:(lia)) as [n [Hn [_ Hnear]]].
  (* the percentage of paid apps *)
  assert (Hpaid : List.length (paidApps apps) <= List.length apps)
    by (unfold paidApps; apply filter_length_le).
  destruct (percentage_hundredths (List.length (paidApps apps)) (List.length apps)
              Hpaid ltac:(lia)) as [m [Hm [_ [_ Hmnear]]]].
  exists n, m. split; [| split; [| split]].
  - unfold round2, brandDominance. rewrite Hc. unfold div, ofNat.
    now rewrite Hdiv, Hn.
  - rewrite <- Hlen.
    apply (dominance_chain _ _ (scaled mq qe)); trivial; lia.
  - unfold round2, paidPercentage.
    assert (Heq : percentage (ofNat (List.length (paidApps apps))) (List.length apps)
                  = mul (div (ofNat (List.length (paidApps apps)))
                             (ofNat (List.length apps))) (ofZ 100)).
    { unfold percentage. destruct (List.length apps) eqn:E; [| reflexivity].
      destruct apps; [congruence | discriminate E]. }
    now rewrite <- Heq, Hm.
  - rewrite <- Hlen. exact Hmnear.
Qed.

Lemma reported_shares_are_rounded_witness :
  exists n m : Z,
    b_brandDominance (brandPresenceOf (analyzeTopKeywords android sampleResults))
    = parseHundredths n
    /\ (2 * Z.abs (10 * n - 100 * 7) <= 10)%Z
    /\ m_paidAppsPercentage (metricsOf (analyzeTopKeywords android sampleResults))
       = parseHundredths m
    /\ (2 * Z.abs (10 * m - 10000 * 2) <= 10)%Z.
Proof.
  assert (Hne : sampleResults <> []) by discriminate.
  assert (Ht : (Z.of_nat (List.length sampleResults) < 2 ^ 32)%Z)
    by (vm_compute; reflexivity).
  assert (Hplain : plainNames (developers (map (normalize android) sampleResults)))
    by (repeat constructor).
  destruct (reported_shares_are_rounded android sampleResults Hne Ht Hplain)
    as [n [m H]].
  exists n, m. exact H.
Defined.

(** X24. Without results the analysis does not fail: the three ratios are
    [NaN] (each is a division by the number of apps, which is 0), the lists
    and the table are empty, and the competition level is High, since [NaN]
    is above no threshold. *)
Theorem no_results (pf : platform) :
  analyzeTopKeywords pf []
  = {| brandPresenceOf :=
         {| b_topBrands := [];
            b_brandDominance := S754_nan;
            b_competitionLevel := High |};
       metricsOf :=
         {| m_totalApps := 0;
            m_averageRating := S754_nan;
            m_paidAppsPercentage := S754_nan;
            m_categoryDistribution := [] |} |}.
Proof. reflexivity. Qed.
